(** * TypeNeon: typing-session scoring, key heatmap, falling-word game and
      text services, embedded from the TypeScript sources.

    Conventions of the embedding.
    - A JavaScript string is a [string]: a sequence of code units, each an
      [ascii] (the 8-bit range, read as Latin-1).  [String.length] is the
      [.length] of the source, [text[idx]] is [char_at], which is [None]
      where the source yields [undefined].
    - A JavaScript number holding a count, a score or a [Date.now()] reading
      is a [Z]: these integers, their sums and their differences stay far
      below 2^53, and binary64 holds them exactly.  A number produced by a
      division is read in two ways.  [F64] is IEEE-754 binary64, with the
      operations of the Standard Library's specification of floating point;
      [Scoring64] computes the session statistics with it, as the browser
      does.  [Scoring] computes them over exact rationals [Q] (a [jsnum]
      where the divisor can be zero): it is the arithmetic of the formulas,
      and differs from the former where a quotient falls on a tie of
      [Math.round] (see [Scoring64Facts]).  The heatmap rates and the
      positions of the falling words are exact rationals.
    - React state is a record; a handler is a function from the record (and
      the event's data) to the next record.  An [await] splits an [async]
      handler into the part run at the call and the part run when the
      provider settles. *)

From Stdlib Require Import ZArith QArith Qminmax Qround List String Ascii Bool Lia Lqa.
From Stdlib Require Import Sorting.Sorted Sorting.Permutation.
From Stdlib Require Floats.SpecFloat.
Import ListNotations.

Local Open Scope string_scope.
Local Open Scope list_scope.
Local Open Scope Z_scope.

(* ================================================================== *)
(** ** JavaScript primitives the sources rely on *)
(* ================================================================== *)

Module Js.

(** [s.length] as a number. *)
Definition len (s : string) : Z := Z.of_nat (String.length s).

(** [s[i]]: a one-unit string, or [None] for [undefined]. *)
Definition char_at (s : string) (i : nat) : option string :=
  match String.get i s with
  | Some c => Some (String c EmptyString)
  | None => None
  end.

(** [s.split('')]: the code units of [s], each as a string. *)
Fixpoint split_chars (s : string) : list string :=
  match s with
  | EmptyString => []
  | String c s' => String c EmptyString :: split_chars s'
  end.

(** [a === b] for a string [a] and a possibly undefined string [b]. *)
Definition strict_eq (a : string) (b : option string) : bool :=
  match b with
  | Some t => String.eqb a t
  | None => false
  end.

(** [arr.reduce((acc, x, idx) => f(acc, x, idx), init)]. *)
Fixpoint reduce_from {A B : Type} (f : B -> A -> nat -> B)
    (l : list A) (idx : nat) (acc : B) : B :=
  match l with
  | [] => acc
  | x :: l' => reduce_from f l' (S idx) (f acc x idx)
  end.

Definition reduce {A B : Type} (f : B -> A -> nat -> B) (l : list A) (init : B) : B :=
  reduce_from f l 0 init.

(** [Math.round], on the real number its argument stands for: the nearest
    integer, a tie going up.  [F64.round] applies it to the value of a
    binary64 number. *)
Definition round (x : Q) : Z := Qfloor (x + (1 # 2)).

(** [a || b] on numbers read from a nullable state cell: [null] and [0] are
    both falsy. *)
Definition or_num (a : option Z) (b : Z) : Z :=
  match a with
  | Some v => if v =? 0 then b else v
  | None => b
  end.

(** Truthiness of a nullable number. *)
Definition truthy_num (a : option Z) : bool :=
  match a with
  | Some v => negb (v =? 0)
  | None => false
  end.

(** [s.slice(0, -1)]: all but the last code unit. *)
Fixpoint drop_last (s : string) : string :=
  match s with
  | EmptyString => EmptyString
  | String c EmptyString => EmptyString
  | String c s' => String c (drop_last s')
  end.

(** [s.startsWith(p)]. *)
Definition starts_with (s p : string) : bool := String.prefix p s.

(** A number that a division may have produced. *)
Inductive jsnum : Type :=
| Fin (q : Q)
| PosInf
| NegInf
| NaN.

(** [a / b] on finite numbers. *)
Definition div (a b : Q) : jsnum :=
  if Qeq_bool b 0 then
    match Qcompare a 0 with
    | Gt => PosInf
    | Lt => NegInf
    | Eq => NaN
    end
  else Fin (a / b).

(** [x > q] for a finite [q]; false on [NaN]. *)
Definition gt (x : jsnum) (q : Q) : bool :=
  match x with
  | Fin p => negb (Qle_bool p q)
  | PosInf => true
  | NegInf => false
  | NaN => false
  end.

(** [Math.round] on a possibly infinite number. *)
Definition round_num (x : jsnum) : jsnum :=
  match x with
  | Fin p => Fin (inject_Z (round p))
  | other => other
  end.

(** [x * q] for a finite non-zero [q]. *)
Definition scale (x : jsnum) (q : Q) : jsnum :=
  match x with
  | Fin p => Fin (p * q)
  | other => other
  end.

(** Code units matched by [\s] and stripped by [trim()], within the 8-bit
    range: tab, line feed, vertical tab, form feed, carriage return, space
    and no-break space. *)
Definition is_space (c : ascii) : bool :=
  let n := N_of_ascii c in
  (((9 <=? n) && (n <=? 13)) || (n =? 32) || (n =? 160))%N.

(** [c.toLowerCase()] on one code unit: A-Z and the Latin-1 capitals
    (U+00C0-U+00DE, the multiplication sign apart) move up by 32. *)
Definition lower_ascii (c : ascii) : ascii :=
  let n := N_of_ascii c in
  if (((65 <=? n) && (n <=? 90)) ||
      ((192 <=? n) && (n <=? 222) && negb (n =? 215)))%N
  then ascii_of_N (n + 32)
  else c.

(** [s.toLowerCase()], unit by unit: within the 8-bit range the lower case
    of a unit is one unit.  (Beyond that range the lower case of U+0130 is
    two units; the strings of this development do not reach it.) *)
Fixpoint toLowerCase (s : string) : string :=
  match s with
  | EmptyString => EmptyString
  | String c s' => String (lower_ascii c) (toLowerCase s')
  end.

(** Leading whitespace removed. *)
Fixpoint trim_start (s : string) : string :=
  match s with
  | EmptyString => EmptyString
  | String c s' => if is_space c then trim_start s' else s
  end.

(** Trailing whitespace removed. *)
Fixpoint trim_end (s : string) : string :=
  match s with
  | EmptyString => EmptyString
  | String c s' =>
      match trim_end s' with
      | EmptyString => if is_space c then EmptyString else String c EmptyString
      | rest => String c rest
      end
  end.

(** [s.trim()]. *)
Definition trim (s : string) : string := trim_end (trim_start s).

(** [s.split(/\s+/)]: the pieces between maximal runs of whitespace.  [cur]
    is the piece being read, [in_run] says that the previous unit was
    whitespace.  A run at the start or at the end leaves an empty piece, and
    the empty string splits into one empty piece. *)
Fixpoint split_ws_from (cur : string) (in_run : bool) (s : string) : list string :=
  match s with
  | EmptyString => [cur]
  | String c s' =>
      if is_space c
      then if in_run then split_ws_from cur true s'
           else cur :: split_ws_from EmptyString true s'
      else split_ws_from (cur ++ String c EmptyString) false s'
  end.

Definition split_ws (s : string) : list string := split_ws_from EmptyString false s.

(** [arr.slice(0, count)]; a negative [count] counts from the end. *)
Definition slice0 {A : Type} (l : list A) (count : Z) : list A :=
  if count <? 0
  then firstn (Z.to_nat (Z.max 0 (Z.of_nat (List.length l) + count))) l
  else firstn (Z.to_nat count) l.

(** [arr.findIndex(p)]: the first index whose element satisfies [p];
    [None] stands for -1. *)
Fixpoint findIndex {A : Type} (p : A -> bool) (l : list A) : option nat :=
  match l with
  | [] => None
  | a :: l' => if p a then Some O
               else match findIndex p l' with
                    | Some i => Some (S i)
                    | None => None
                    end
  end.

(** [arr.filter((_, i) => i !== k)]. *)
Fixpoint remove_index {A : Type} (k : nat) (l : list A) : list A :=
  match l, k with
  | [], _ => []
  | _ :: l', O => l'
  | a :: l', S k' => a :: remove_index k' l'
  end.

(** [a || b] on strings: the empty string is falsy, and so is [undefined]. *)
Definition or_str (a : option string) (b : string) : string :=
  match a with
  | Some EmptyString => b
  | Some s => s
  | None => b
  end.

End Js.

(* ================================================================== *)
(** ** Binary64: the numbers the divisions of the sources produce *)
(* ================================================================== *)

(** The operations are those of [SpecFloat] at precision 53 and exponent
    bound 1024: each result is the exact one rounded to the nearest
    binary64 number, a tie going to the even mantissa. *)
Module F64.
Import SpecFloat.

Definition prec : Z := 53.
Definition emax : Z := 1024.

Definition t : Type := spec_float.

(** The binary64 number of an integer; exact below 2^53 in magnitude. *)
Definition of_Z (z : Z) : t := binary_normalize prec emax z 0 false.

(** [a / b]. *)
Definition div (a b : t) : t := SFdiv prec emax a b.

(** [a * b]. *)
Definition mul (a b : t) : t := SFmul prec emax a b.

(** The literal [0.001]: the binary64 number nearest to 1/1000. *)
Definition thousandth : t := div (of_Z 1) (of_Z 1000).

(** [Math.max(a, b)]: [NaN] if either argument is, and [+0] above [-0]. *)
Definition max (a b : t) : t :=
  match SFcompare a b with
  | None => S754_nan
  | Some Lt => b
  | Some Gt => a
  | Some Eq => match a with S754_zero true => b | _ => a end
  end.

(** [a >= b]. *)
Definition geb (a b : t) : bool :=
  match SFcompare a b with
  | Some (Eq | Gt) => true
  | _ => false
  end.

(** The real number a binary64 number stands for; the two zeros stand for
    the same. *)
Definition value (x : t) : Js.jsnum :=
  match x with
  | S754_zero _ => Js.Fin 0
  | S754_infinity s => if s then Js.NegInf else Js.PosInf
  | S754_nan => Js.NaN
  | S754_finite s m e =>
      Js.Fin ((if s then - inject_Z (Zpos m) else inject_Z (Zpos m)) * 2 ^ e)
  end.

(** [Math.round(x)], given by its value: the integer nearest to the value
    of [x], a tie going up; an infinity and [NaN] are left as they are. *)
Definition round (x : t) : Js.jsnum := Js.round_num (value x).

(** [x] is a number, not [NaN], and its sign bit is [s]. *)
Definition has_sign (s : bool) (x : t) : Prop :=
  match x with
  | S754_zero s' | S754_infinity s' | S754_finite s' _ _ => s' = s
  | S754_nan => False
  end.

End F64.

(* ================================================================== *)
(** ** types.ts *)
(* ================================================================== *)

Inductive GameMode : Type := LESSON | ZEN | GAME_RAIN | ANALYTICS.

Definition GameMode_eqb (a b : GameMode) : bool :=
  match a, b with
  | LESSON, LESSON | ZEN, ZEN | GAME_RAIN, GAME_RAIN | ANALYTICS, ANALYTICS => true
  | _, _ => false
  end.

Record KeyStats : Type := mkKeyStats {
  char : string;
  total : Z;
  errors : Z
}.

Record TypingSessionStats : Type := mkStats {
  wpm : Z;
  accuracy : Z;
  timeElapsed : Q;
  mistakes : Z;
  charsTyped : Z
}.

(** [WordEntity]; its fields live in a module of their own, [id], [x] and
    [y] being names too short to leave at the top level. *)
Module Word.
Record WordEntity : Type := mk {
  id : Z;
  text : string;
  x : Q;
  y : Q;
  speed : Q;
  typed : string
}.
End Word.

Inductive Theme : Type := light | dark.

(* ================================================================== *)
(** ** A JavaScript object used as a record keyed by strings *)
(* ================================================================== *)

(** An object literal is the list of its own properties in the order
    [Object.values] walks them: array-index keys in ascending numeric order,
    then the other keys in the order of their creation. *)
Module Obj.

Definition t (V : Type) : Type := list (string * V).

Definition empty {V : Type} : t V := [].

Definition digit (c : ascii) : option N :=
  let n := N_of_ascii c in
  if ((48 <=? n) && (n <=? 57))%N then Some (n - 48)%N else None.

Fixpoint digits (s : string) (acc : N) : option N :=
  match s with
  | EmptyString => Some acc
  | String c s' =>
      match digit c with
      | Some d => digits s' (acc * 10 + d)%N
      | None => None
      end
  end.

(** The array index a key denotes: a canonical decimal numeral below
    2^32 - 1. *)
Definition array_index (k : string) : option N :=
  match k with
  | EmptyString => None
  | String c rest =>
      if Ascii.eqb c "0" && negb (String.eqb rest EmptyString) then None
      else match digits k 0 with
           | Some n => if (n <? 4294967295)%N then Some n else None
           | None => None
           end
  end.

(** [o[k]], an own property; [None] is [undefined].  The heatmap is read
    at keys that are the lower case of one code unit, none of which names a
    property inherited from [Object.prototype]. *)
Fixpoint get {V : Type} (o : t V) (k : string) : option V :=
  match o with
  | [] => None
  | (k', v) :: o' => if String.eqb k k' then Some v else get o' k
  end.

(** Assignment to an existing property: the value changes, the place in the
    order does not. *)
Fixpoint replace {V : Type} (o : t V) (k : string) (v : V) : t V :=
  match o with
  | [] => []
  | (k', v') :: o' =>
      if String.eqb k k' then (k', v) :: o' else (k', v') :: replace o' k v
  end.

(** A new array-index key goes before the first larger index and before
    every other key. *)
Fixpoint insert_index {V : Type} (o : t V) (n : N) (k : string) (v : V) : t V :=
  match o with
  | [] => [(k, v)]
  | (k', v') :: o' =>
      match array_index k' with
      | Some m =>
          if (n <? m)%N then (k, v) :: (k', v') :: o'
          else (k', v') :: insert_index o' n k v
      | None => (k, v) :: (k', v') :: o'
      end
  end.

(** [{ ...o, [k]: v }]: the spread copies the properties of [o] in their
    order, then [k] is assigned. *)
Definition set {V : Type} (o : t V) (k : string) (v : V) : t V :=
  match get o k with
  | Some _ => replace o k v
  | None =>
      match array_index k with
      | Some n => insert_index o n k v
      | None => o ++ [(k, v)]
      end
  end.

(** [Object.values(o)]. *)
Definition values {V : Type} (o : t V) : list V := map snd o.

Definition keys {V : Type} (o : t V) : list string := map fst o.

End Obj.

(* ================================================================== *)
(** ** services/geminiService.ts *)
(* ================================================================== *)

Module Services.

(** What [ai.models.generateContent] does with a request: the promise
    rejects (network or API error), or resolves to a response whose [text]
    is a string or [undefined]. *)
Inductive Provider : Type :=
| Rejects
| Resolves (text : option string).

(** The result of running a block that may throw. *)
Inductive result (A : Type) : Type :=
| Returns (a : A)
| Throws.
Arguments Returns {A} a.
Arguments Throws {A}.

Definition bind {A B : Type} (m : result A) (k : A -> result B) : result B :=
  match m with
  | Returns a => k a
  | Throws => Throws
  end.

Notation "x <- m ;; k" := (bind m (fun x => k))
  (at level 61, m at next level, right associativity).

(** [try { body } catch (e) { return handler }]. *)
Definition try_catch {A : Type} (body : result A) (handler : A) : result A :=
  match body with
  | Returns a => Returns a
  | Throws => Returns handler
  end.

(** [await ai.models.generateContent(...)], then [response.text]. *)
Definition generateContent (p : Provider) : result (option string) :=
  match p with
  | Rejects => Throws
  | Resolves t => Returns t
  end.

Definition PANGRAM : string := "The quick brown fox jumps over the lazy dog.".
Definition ADVICE_ON_EMPTY : string := "Keep practicing! Accuracy is key to speed.".
Definition ADVICE_ON_ERROR : string := "Great job! Keep typing every day.".
Definition FALLBACK_WORDS : list string :=
  ["space"; "galaxy"; "rocket"; "planet"; "star"; "comet"; "orbit"; "laser";
   "alien"; "moon"].

(** The arguments of the three operations only build the prompt, which the
    provider alone reads; [focusKeys.join], the template string and
    [console.error] do not throw. *)

Definition generateLessonContent (focusKeys : list string) (difficulty topic : string)
    (p : Provider) : result string :=
  try_catch
    (text <- generateContent p ;;
     Returns (Js.or_str (option_map Js.trim text) PANGRAM))
    PANGRAM.

Definition generateTypingAdvice (wpm accuracy : Js.jsnum) (weakKeys : list string)
    (p : Provider) : result string :=
  try_catch
    (text <- generateContent p ;;
     Returns (Js.or_str (option_map Js.trim text) ADVICE_ON_EMPTY))
    ADVICE_ON_ERROR.

Definition generateGameWords (count : Z) (p : Provider) : result (list string) :=
  try_catch
    (response_text <- generateContent p ;;
     let text := Js.or_str response_text "" in
     Returns (Js.slice0
                (filter (fun w => 0 <? Js.len w) (Js.split_ws text)) count))
    FALLBACK_WORDS.

(** *** Vocabulary of the properties *)

(** The response carries no text: [text] is [undefined], or empty once
    trimmed. *)
Definition blank (r : option string) : bool :=
  match r with
  | Some t => String.eqb (Js.trim t) ""
  | None => true
  end.

Fixpoint all_space (s : string) : bool :=
  match s with
  | EmptyString => true
  | String c s' => Js.is_space c && all_space s'
  end.

End Services.

(* ================================================================== *)
(** ** App.tsx: the derived session statistics *)
(* ================================================================== *)

Module Scoring.

(** The callback of the [reduce] in [currentStats] and [finishSession]:
    [char !== text[idx] ? acc + 1 : acc]. *)
Definition count_error (text : string) (acc : Z) (ch : string) (idx : nat) : Z :=
  if negb (Js.strict_eq ch (Js.char_at text idx)) then acc + 1 else acc.

Definition count_errors (text userInput : string) : Z :=
  Js.reduce (count_error text) (Js.split_chars userInput) 0.

(** [Math.max((Date.now() - (startTime || Date.now())) / 60000, 0.001)]. *)
Definition elapsed_minutes (startTime : option Z) (now : Z) : Q :=
  Qmax (inject_Z (now - Js.or_num startTime now) / 60000) (1 # 1000).

(** The body of the [useMemo] that yields [currentStats], over exact
    rationals; [now] is the reading of [Date.now()] at the evaluation.  The
    local [timeElapsed] of the source is computed and never read.
    [Scoring64.currentStats] is the same body over binary64 numbers, with
    the two readings of the clock kept apart. *)
Definition currentStats (text userInput : string) (startTime : option Z)
    (isFinished : bool) (now : Z) : TypingSessionStats :=
  let charsTyped := Js.len userInput in
  let errors := count_errors text userInput in
  let timeElapsed :=
    if Js.truthy_num startTime
    then (if isFinished then now else now) - Js.or_num startTime 0
    else 0 in
  let minutes := elapsed_minutes startTime now in
  let wpm := Js.round ((inject_Z charsTyped / 5) / minutes) in
  let accuracy :=
    if charsTyped >? 0
    then Js.round (((inject_Z (charsTyped - errors)) / inject_Z charsTyped) * 100)
    else 100 in
  {| wpm := wpm; accuracy := accuracy; timeElapsed := minutes * 60;
     mistakes := errors; charsTyped := charsTyped |}.

(** The words of the specification, stated independently of the fold. *)

(** Index [i] is a mistake: the typed unit differs from the reference's. *)
Definition differs (text userInput : string) (i : nat) : bool :=
  match String.get i userInput, String.get i text with
  | Some a, Some b => negb (Ascii.eqb a b)
  | Some _, None => true
  | None, _ => false
  end.

(** The number of indices below the typed length that are mistakes. *)
Definition spec_mistakes (text userInput : string) : Z :=
  Z.of_nat (List.length
    (filter (differs text userInput) (seq 0 (String.length userInput)))).

(** Index [j] of the suffix [s], which starts at offset [off] of the typed
    input, is a mistake. *)
Definition differs_from (text s : string) (off j : nat) : bool :=
  match String.get j s, String.get (off + j) text with
  | Some a, Some b => negb (Ascii.eqb a b)
  | Some _, None => true
  | None, _ => false
  end.

(** Milliseconds since the start; zero while the start timestamp is unset
    ([null], or the falsy [0]). *)
Definition spec_elapsed_ms (startTime : option Z) (now : Z) : Z :=
  match startTime with
  | Some t => if t =? 0 then 0 else now - t
  | None => 0
  end.

(** [n] is [x] rounded to the nearest integer, a tie going up. *)
Definition rounds_to (x : Q) (n : Z) : Prop :=
  (inject_Z n - (1 # 2) <= x)%Q /\ (x < inject_Z n + (1 # 2))%Q.

End Scoring.

(* ================================================================== *)
(** ** App.tsx: the derived session statistics, in binary64 *)
(* ================================================================== *)

Module Scoring64.

(** [TypingSessionStats] with its numbers as the browser holds them: [wpm]
    and [accuracy] are results of [Math.round], given by their values. *)
Record Stats : Type := mkStats {
  wpm : Js.jsnum;
  accuracy : Js.jsnum;
  timeElapsed : F64.t;
  mistakes : Z;
  charsTyped : Z
}.

(** [Math.max((Date.now() - (startTime || Date.now())) / 60000, 0.001)].
    [now] is the first reading of the clock; [later] is the second, which
    is taken only when [startTime] is falsy. *)
Definition minutes (startTime : option Z) (now later : Z) : F64.t :=
  F64.max (F64.div (F64.of_Z (now - Js.or_num startTime later)) (F64.of_Z 60000))
          F64.thousandth.

(** The body of the [useMemo] that yields [currentStats].  The counts and
    the difference of the clock readings are integers; they become binary64
    numbers where the source divides.  The local [timeElapsed] of the
    source, which is never read, is left out. *)
Definition currentStats (text userInput : string) (startTime : option Z)
    (isFinished : bool) (now later : Z) : Stats :=
  let charsTyped := Js.len userInput in
  let errors := Scoring.count_errors text userInput in
  let minutes := minutes startTime now later in
  let wpm := F64.round (F64.div (F64.div (F64.of_Z charsTyped) (F64.of_Z 5)) minutes) in
  let accuracy :=
    if charsTyped >? 0
    then F64.round
           (F64.mul (F64.div (F64.of_Z (charsTyped - errors)) (F64.of_Z charsTyped))
                    (F64.of_Z 100))
    else Js.Fin 100 in
  {| wpm := wpm; accuracy := accuracy;
     timeElapsed := F64.mul minutes (F64.of_Z 60);
     mistakes := errors; charsTyped := charsTyped |}.

(** The words of the specification. *)

(** [r] is [Math.round] of the binary64 number [d]: the integer nearest to
    the value of [d], a tie going up, or [d] itself where it is infinite or
    [NaN]. *)
Definition rounded (d : F64.t) (r : Js.jsnum) : Prop :=
  match F64.value d with
  | Js.Fin q => exists k : Z, r = Js.Fin (inject_Z k) /\ Scoring.rounds_to q k
  | other => r = other
  end.

(** A reference text of forty units, and an input that has seventeen of
    them wrong. *)
Definition forty : string := "aaaaaaaaaaaaaaaaaaaaaaabbbbbbbbbbbbbbbbb".

Definition forty_typed : string := "aaaaaaaaaaaaaaaaaaaaaaaaaaaaaaaaaaaaaaaa".

End Scoring64.


(* ================================================================== *)
(** ** App.tsx: the key heatmap *)
(* ================================================================== *)

Module Heatmap.

Definition t : Type := Obj.t KeyStats.

(** Division of two counters, as the filters of the source write it. *)
Definition ratio (a b : Z) : Js.jsnum := Js.div (inject_Z a) (inject_Z b).

(** The updater handed to [setKeyStats]: [expectedChar] is [text[userInput.length]],
    [isCorrect] is [e.key === expectedChar]. *)
Definition recordAttempt (prev : t) (expectedChar : option string) (isCorrect : bool) : t :=
  let charKey := Js.or_str (option_map Js.toLowerCase expectedChar) "" in
  if String.eqb charKey "" then prev
  else
    let current :=
      match Obj.get prev charKey with
      | Some c => c
      | None => {| char := charKey; total := 0; errors := 0 |}
      end in
    Obj.set prev charKey
      {| char := char current;
         total := total current + 1;
         errors := if isCorrect then errors current else errors current + 1 |}.

(** [handleLessonGenerate]: the keys sent as focus keys of the next lesson. *)
Definition lessonWeakKeys (keyStats : t) : list string :=
  map char
    (filter (fun k => Js.gt (ratio (errors k) (total k)) (1 # 10) && (total k >? 5))
            (Obj.values keyStats)).

(** [finishSession]: the keys sent to the coach. *)
Definition adviceWeakKeys (keyStats : t) : list string :=
  map char
    (filter (fun k => Js.gt (ratio (errors k) (total k)) (1 # 10))
            (Obj.values keyStats)).

(** [b.errors / (b.total || 1)]. *)
Definition guarded_rate (k : KeyStats) : Q :=
  inject_Z (errors k) / inject_Z (if total k =? 0 then 1 else total k).

(** The comparator of [weakKeysDisplay], [rate(b) - rate(a)], is positive,
    so that [a] goes behind [b], when the rate of [a] is below the rate of
    [b]. *)
Definition goes_behind (a b : KeyStats) : bool :=
  negb (Qle_bool (guarded_rate b) (guarded_rate a)).

(** [Array.prototype.sort] is stable.  [insert_sorted a l] places [a], which
    stood before every element of [l], behind those it has to follow and
    before the first it does not. *)
Fixpoint insert_sorted (a : KeyStats) (l : list KeyStats) : list KeyStats :=
  match l with
  | [] => [a]
  | b :: l' => if goes_behind a b then b :: insert_sorted a l' else a :: b :: l'
  end.

Definition sort (l : list KeyStats) : list KeyStats :=
  fold_right insert_sorted [] l.

(** [weakKeysDisplay]: sort, keep three, drop those without an error. *)
Definition weakKeysDisplay (keyStats : t) : list KeyStats :=
  filter (fun k => errors k >? 0)
         (firstn 3 (sort (Obj.values keyStats))).

(** *** Vocabulary of the properties *)

(** An entry counts no more errors than attempts. *)
Definition sane (k : KeyStats) : Prop := 0 <= errors k <= total k.

(** The entry [recordAttempt] starts from on first sight of a key. *)
Definition zeroed (key : string) : KeyStats :=
  {| char := key; total := 0; errors := 0 |}.

(** A run of recorded attempts, each an expected character (or none) and
    whether the typed character matched it. *)
Definition recordAll (attempts : list (option string * bool)) : Heatmap.t :=
  fold_left (fun h a => recordAttempt h (fst a) (snd a)) attempts Obj.empty.

(** The thresholds of [handleLessonGenerate] on the two counters: more than
    5 attempts, and more than one error in ten attempts. *)
Definition weak (k : KeyStats) : bool :=
  (5 <? total k) && (total k <? 10 * errors k).

(** Descending order of the guarded error rate. *)
Definition rate_ge (a b : KeyStats) : Prop := (guarded_rate b <= guarded_rate a)%Q.

(** Two entries have the same guarded error rate. *)
Definition same_rate (a b : KeyStats) : bool :=
  Qeq_bool (guarded_rate a) (guarded_rate b).

(** [order] ranks the entries [l] by error rate: it holds the same entries,
    in descending order of the guarded rate, those of equal rate in the
    order they have in [l]. *)
Definition ranked (l order : list KeyStats) : Prop :=
  Permutation l order /\ StronglySorted rate_ge order /\
  forall k, filter (same_rate k) order = filter (same_rate k) l.

(** A heatmap on which two keys were attempted ten times each: "a" with two
    errors, then "b" with five. *)
Definition two_keys : Heatmap.t :=
  recordAll (repeat (Some "a", true) 8 ++ repeat (Some "a", false) 2 ++
             repeat (Some "b", true) 5 ++ repeat (Some "b", false) 5).

(** A heatmap with a single failed attempt. *)
Definition one_miss : Heatmap.t := recordAll [(Some "q", false)].

End Heatmap.

(* ================================================================== *)
(** ** App.tsx: the component state and its handlers *)
(** The repository holds two revisions of [App.tsx].  Their cells and
    handlers are the same; the later one drops [isFinished] from the
    dependencies of [currentStats] and adds [weakKeysDisplay].  The state
    machine below follows the revision named [App.tsx]. *)
(* ================================================================== *)

Module App.

Definition DEFAULT_TEXT : string :=
  "Welcome to TypeNeon. Start typing to begin your journey. Speed and accuracy will follow practice.".

(** The arguments of one call of [generateTypingAdvice]. *)
Record AdviceRequest : Type := mkAdviceRequest {
  req_wpm : Js.jsnum;
  req_accuracy : Js.jsnum;
  req_weakKeys : list string
}.

(** The dependency array of the [useMemo]:
    [[userInput, startTime, isFinished, text]]. *)
Definition Deps : Type := (string * option Z * bool * string)%type.

(** The [useState] cells of [App], the cache of the [useMemo], and the
    calls of [generateTypingAdvice] made so far. *)
Record State : Type := mkState {
  theme : Theme;
  mode : GameMode;
  text : string;
  userInput : string;
  startTime : option Z;
  isFinished : bool;
  keyStats : Heatmap.t;
  loading : bool;
  aiAdvice : string;
  lastGameScore : Z;
  statsMemo : option (Deps * TypingSessionStats);
  adviceCalls : list AdviceRequest
}.

Definition initial : State :=
  {| theme := dark; mode := LESSON; text := DEFAULT_TEXT; userInput := "";
     startTime := None; isFinished := false; keyStats := Obj.empty;
     loading := false; aiAdvice := ""; lastGameScore := 0;
     statsMemo := None; adviceCalls := [] |}.

(** The setters of the [useState] cells. *)
Definition setTheme (v : Theme) (s : State) : State :=
  mkState v (mode s) (text s) (userInput s) (startTime s) (isFinished s)
    (keyStats s) (loading s) (aiAdvice s) (lastGameScore s) (statsMemo s) (adviceCalls s).
Definition setMode (v : GameMode) (s : State) : State :=
  mkState (theme s) v (text s) (userInput s) (startTime s) (isFinished s)
    (keyStats s) (loading s) (aiAdvice s) (lastGameScore s) (statsMemo s) (adviceCalls s).
Definition setText (v : string) (s : State) : State :=
  mkState (theme s) (mode s) v (userInput s) (startTime s) (isFinished s)
    (keyStats s) (loading s) (aiAdvice s) (lastGameScore s) (statsMemo s) (adviceCalls s).
Definition setUserInput (v : string) (s : State) : State :=
  mkState (theme s) (mode s) (text s) v (startTime s) (isFinished s)
    (keyStats s) (loading s) (aiAdvice s) (lastGameScore s) (statsMemo s) (adviceCalls s).
Definition setStartTime (v : option Z) (s : State) : State :=
  mkState (theme s) (mode s) (text s) (userInput s) v (isFinished s)
    (keyStats s) (loading s) (aiAdvice s) (lastGameScore s) (statsMemo s) (adviceCalls s).
Definition setIsFinished (v : bool) (s : State) : State :=
  mkState (theme s) (mode s) (text s) (userInput s) (startTime s) v
    (keyStats s) (loading s) (aiAdvice s) (lastGameScore s) (statsMemo s) (adviceCalls s).
Definition setKeyStats (v : Heatmap.t) (s : State) : State :=
  mkState (theme s) (mode s) (text s) (userInput s) (startTime s) (isFinished s)
    v (loading s) (aiAdvice s) (lastGameScore s) (statsMemo s) (adviceCalls s).
Definition setLoading (v : bool) (s : State) : State :=
  mkState (theme s) (mode s) (text s) (userInput s) (startTime s) (isFinished s)
    (keyStats s) v (aiAdvice s) (lastGameScore s) (statsMemo s) (adviceCalls s).
Definition setAiAdvice (v : string) (s : State) : State :=
  mkState (theme s) (mode s) (text s) (userInput s) (startTime s) (isFinished s)
    (keyStats s) (loading s) v (lastGameScore s) (statsMemo s) (adviceCalls s).
Definition setLastGameScore (v : Z) (s : State) : State :=
  mkState (theme s) (mode s) (text s) (userInput s) (startTime s) (isFinished s)
    (keyStats s) (loading s) (aiAdvice s) v (statsMemo s) (adviceCalls s).
Definition setStatsMemo (v : option (Deps * TypingSessionStats)) (s : State) : State :=
  mkState (theme s) (mode s) (text s) (userInput s) (startTime s) (isFinished s)
    (keyStats s) (loading s) (aiAdvice s) (lastGameScore s) v (adviceCalls s).
Definition callGenerateTypingAdvice (r : AdviceRequest) (s : State) : State :=
  mkState (theme s) (mode s) (text s) (userInput s) (startTime s) (isFinished s)
    (keyStats s) (loading s) (aiAdvice s) (lastGameScore s) (statsMemo s)
    (adviceCalls s ++ [r]).

(** *** Rendering: the memoised statistics *)

Definition deps (s : State) : Deps :=
  (userInput s, startTime s, isFinished s, text s).

Definition option_Z_eqb (a b : option Z) : bool :=
  match a, b with
  | Some u, Some v => u =? v
  | None, None => true
  | _, _ => false
  end.

(** React compares the dependencies one by one with [Object.is]. *)
Definition deps_eqb (a b : Deps) : bool :=
  let '(ui, st, fin, tx) := a in
  let '(ui', st', fin', tx') := b in
  String.eqb ui ui' && option_Z_eqb st st' && Bool.eqb fin fin' && String.eqb tx tx'.

(** One render at clock reading [now]: [useMemo] runs its body when no value
    is cached or a dependency changed, and keeps the cached value otherwise.
    The cached statistics are those of [Scoring], the exact reading. *)
Definition render (now : Z) (s : State) : State :=
  let fresh :=
    setStatsMemo
      (Some (deps s,
             Scoring.currentStats (text s) (userInput s) (startTime s) (isFinished s) now))
      s in
  match statsMemo s with
  | Some (d, _) => if deps_eqb d (deps s) then s else fresh
  | None => fresh
  end.

(** The statistics on screen (header cards and the result panel). *)
Definition shownStats (s : State) : option TypingSessionStats :=
  option_map snd (statsMemo s).

(** *** Handlers *)

Definition resetSession (s : State) : State :=
  setAiAdvice "" (setIsFinished false (setStartTime None (setUserInput "" s))).

(** [handleModeChange] up to its [await]. *)
Definition handleModeChange (newMode : GameMode) (s : State) : State :=
  let s1 := resetSession (setMode newMode s) in
  match newMode with
  | ZEN => setLoading true s1
  | LESSON => setText DEFAULT_TEXT s1
  | _ => s1
  end.

(** [handleModeChange(ZEN)] after its [await]: [r] is what
    [generateLessonContent] gave. *)
Definition handleModeChange_resume (r : Services.result string) (s : State) : State :=
  match r with
  | Services.Returns newText => setLoading false (setText newText s)
  | Services.Throws => s
  end.

(** [handleLessonGenerate] up to its [await]. *)
Definition handleLessonGenerate (difficulty : string) (s : State) : State :=
  setLoading true s.

(** [handleLessonGenerate] after its [await]. *)
Definition handleLessonGenerate_resume (r : Services.result string) (s : State) : State :=
  match r with
  | Services.Returns newText => setLoading false (resetSession (setText newText s))
  | Services.Throws => s
  end.

(** [finishSession] up to its [await].  It reads [text], [startTime] and
    [keyStats] of the render that created the handler, here [closure]: the
    state before the keystroke.  The speed and the accuracy it computes go
    into the prompt of the coach and nowhere else; they are given in exact
    rationals, and [now] stands for both readings of the clock in
    [Date.now() - (startTime || Date.now())].  Where [startTime] is unset
    the second reading can be later than the first, and the duration of the
    source is zero or negative where this one is zero. *)
Definition finishSession (finalInput : string) (now : Z) (closure s : State) : State :=
  let errors := Scoring.count_errors (text closure) finalInput in
  let chars := Js.len finalInput in
  let durationMin := (inject_Z (now - Js.or_num (startTime closure) now) / 60000)%Q in
  let wpm := Js.round_num (Js.div (inject_Z chars / 5) durationMin) in
  let accuracy :=
    Js.round_num (Js.scale (Js.div (inject_Z (chars - errors)) (inject_Z chars)) 100) in
  let weakKeys := Heatmap.adviceWeakKeys (keyStats closure) in
  callGenerateTypingAdvice
    {| req_wpm := wpm; req_accuracy := accuracy; req_weakKeys := weakKeys |}
    (setIsFinished true s).

(** [finishSession] after its [await]. *)
Definition finishSession_resume (r : Services.result string) (s : State) : State :=
  match r with
  | Services.Returns advice => setAiAdvice advice s
  | Services.Throws => s
  end.

(** The [keydown] listener; [key] is [e.key], [now] the reading of
    [Date.now()].  The [preventDefault] on the space bar touches no cell. *)
Definition handleKeyDown (key : string) (now : Z) (s : State) : State :=
  if GameMode_eqb (mode s) GAME_RAIN || isFinished s || loading s then s
  else if (Js.len key =? 1) || String.eqb key "Backspace" then
    let s1 := if negb (Js.truthy_num (startTime s)) then setStartTime (Some now) s else s in
    if String.eqb key "Backspace" then setUserInput (Js.drop_last (userInput s)) s1
    else
      let expectedChar := Js.char_at (text s) (String.length (userInput s)) in
      let isCorrect := Js.strict_eq key expectedChar in
      let s2 := setKeyStats (Heatmap.recordAttempt (keyStats s1) expectedChar isCorrect) s1 in
      let next := (userInput s2 ++ key)%string in
      let s3 := if Js.len next =? Js.len (text s) then finishSession next now s s2 else s2 in
      setUserInput next s3
  else s.

(** [onGameEnd] as [App] passes it to [RainGame]. *)
Definition onGameEnd (score : Z) (s : State) : State :=
  setIsFinished true (setLastGameScore score s).

(** *** Events *)

Inductive Event : Type :=
| KeyDown (key : string)
| ThemeClick
| ModeClick (newMode : GameMode)
| ZenTextSettled (p : Services.Provider)
| SurpriseClick
| SurpriseSettled (p : Services.Provider)
| AdviceSettled (p : Services.Provider)
| NextLessonClick
| GameEnded (score : Z)
| PlayAgainClick.

(** What an event does to the cells; buttons act only where the JSX
    renders them enabled.  A [...Settled] event is the continuation of an
    [async] handler; the model lets one arrive at any moment, which covers
    every interleaving the browser can produce. *)
Definition handle (now : Z) (e : Event) (s : State) : State :=
  match e with
  | KeyDown key => handleKeyDown key now s
  | ThemeClick => setTheme (match theme s with dark => light | light => dark end) s
  | ModeClick newMode => handleModeChange newMode s
  | ZenTextSettled p =>
      handleModeChange_resume
        (Services.generateLessonContent [] "Intermediate" "Philosophy and Nature" p) s
  | SurpriseClick =>
      if GameMode_eqb (mode s) LESSON && negb (loading s)
      then handleLessonGenerate "Intermediate" s else s
  | SurpriseSettled p =>
      handleLessonGenerate_resume
        (Services.generateLessonContent (Heatmap.lessonWeakKeys (keyStats s))
           "Intermediate" "Science Fiction" p) s
  | AdviceSettled p =>
      match List.last (map Some (adviceCalls s)) None with
      | Some r =>
          finishSession_resume
            (Services.generateTypingAdvice (req_wpm r) (req_accuracy r) (req_weakKeys r) p) s
      | None => s
      end
  | NextLessonClick =>
      if negb (GameMode_eqb (mode s) GAME_RAIN) && isFinished s
      then let s1 := resetSession s in
           if GameMode_eqb (mode s) ZEN then handleModeChange ZEN s1 else s1
      else s
  | GameEnded score =>
      if GameMode_eqb (mode s) GAME_RAIN && negb (isFinished s)
      then onGameEnd score s else s
  | PlayAgainClick =>
      if GameMode_eqb (mode s) GAME_RAIN && isFinished s
      then setLastGameScore 0 (setIsFinished false s) else s
  end.

(** One event at clock reading [now]: the handler runs, React renders. *)
Definition step (s : State) (ev : Z * Event) : State :=
  render (fst ev) (handle (fst ev) (snd ev) s).

Definition run (s : State) (evs : list (Z * Event)) : State :=
  fold_left step evs s.

(** *** Vocabulary of the properties *)

(** The typed input, start timestamp, finished flag and advice are cleared. *)
Definition cleared (s : State) : Prop :=
  userInput s = "" /\ startTime s = None /\ isFinished s = false /\ aiAdvice s = "".

(** The cache of the [useMemo] was filled for the cells as they are. *)
Definition rendered (s : State) : Prop :=
  match statsMemo s with
  | Some (d, _) => d = deps s
  | None => True
  end.

(** Events that leave the session running: keystrokes, the theme button,
    the arrival of the coach's advice, and the click that asks for another
    lesson (the session ends when that lesson arrives). *)
Definition keeps_session (e : Event) : bool :=
  match e with
  | KeyDown _ | ThemeClick | AdviceSettled _ | SurpriseClick => true
  | _ => false
  end.

(** The heatmap built by one keystroke on the default text. *)
Definition after_W : State := run initial [(1000, KeyDown "W")].

End App.

(* ================================================================== *)
(** ** RainGame: the falling-word game *)
(* ================================================================== *)

Module RainGame.

(** The [useState] cells and the two refs of the component; [spawnCalls]
    counts the calls of [spawnWord], [pendingSpawns] holds, for each call
    whose [await] has not returned, the [level] its closure read, and
    [gameEnds] lists the scores handed to [onGameEnd]. *)
Record State : Type := mkState {
  words : list Word.WordEntity;
  currentInput : string;
  score : Z;
  lives : Z;
  level : Z;
  lastSpawnTime : Q;
  spawnRate : Z;
  spawnCalls : nat;
  pendingSpawns : list Z;
  gameEnds : list Z
}.

Definition initial : State :=
  {| words := []; currentInput := ""; score := 0; lives := 3; level := 1;
     lastSpawnTime := 0; spawnRate := 2000; spawnCalls := 0;
     pendingSpawns := []; gameEnds := [] |}.

Definition setWords (v : list Word.WordEntity) (s : State) : State :=
  mkState v (currentInput s) (score s) (lives s) (level s) (lastSpawnTime s) (spawnRate s) (spawnCalls s) (pendingSpawns s) (gameEnds s).
Definition setCurrentInput (v : string) (s : State) : State :=
  mkState (words s) v (score s) (lives s) (level s) (lastSpawnTime s) (spawnRate s) (spawnCalls s) (pendingSpawns s) (gameEnds s).
Definition setScore (v : Z) (s : State) : State :=
  mkState (words s) (currentInput s) v (lives s) (level s) (lastSpawnTime s) (spawnRate s) (spawnCalls s) (pendingSpawns s) (gameEnds s).
Definition setLives (v : Z) (s : State) : State :=
  mkState (words s) (currentInput s) (score s) v (level s) (lastSpawnTime s) (spawnRate s) (spawnCalls s) (pendingSpawns s) (gameEnds s).
Definition setLevel (v : Z) (s : State) : State :=
  mkState (words s) (currentInput s) (score s) (lives s) v (lastSpawnTime s) (spawnRate s) (spawnCalls s) (pendingSpawns s) (gameEnds s).
Definition setLastSpawnTime (v : Q) (s : State) : State :=
  mkState (words s) (currentInput s) (score s) (lives s) (level s) v (spawnRate s) (spawnCalls s) (pendingSpawns s) (gameEnds s).
Definition setSpawnRate (v : Z) (s : State) : State :=
  mkState (words s) (currentInput s) (score s) (lives s) (level s) (lastSpawnTime s) v (spawnCalls s) (pendingSpawns s) (gameEnds s).
Definition setPendingSpawns (v : list Z) (s : State) : State :=
  mkState (words s) (currentInput s) (score s) (lives s) (level s) (lastSpawnTime s) (spawnRate s) (spawnCalls s) v (gameEnds s).
Definition setSpawnCalls (v : nat) (s : State) : State :=
  mkState (words s) (currentInput s) (score s) (lives s) (level s) (lastSpawnTime s) (spawnRate s) v (pendingSpawns s) (gameEnds s).
Definition setGameEnds (v : list Z) (s : State) : State :=
  mkState (words s) (currentInput s) (score s) (lives s) (level s) (lastSpawnTime s) (spawnRate s) (spawnCalls s) (pendingSpawns s) v.

(** [onGameEnd(score)], the callback of the parent. *)
Definition onGameEnd (sc : Z) (s : State) : State :=
  setGameEnds (gameEnds s ++ [sc]) s.

(** [spawnWord()] up to its [await]. *)
Definition spawnWord (s : State) : State :=
  setPendingSpawns (pendingSpawns s ++ [level s]) (setSpawnCalls (S (spawnCalls s)) s).

(** [spawnWord] after its [await], for the pending call number [i]:
    [newWords] is what [generateGameWords(1)] gave, [now] is [Date.now()]
    and [rnd] is [Math.random()]. *)
Definition spawnWord_resume (i : nat) (newWords : Services.result (list string))
    (now : Z) (rnd : Q) (s : State) : State :=
  match nth_error (pendingSpawns s) i, newWords with
  | Some lvl, Services.Returns ws =>
      let wordText := Js.or_str (nth_error ws 0) "code" in
      setWords
        (words s ++
         [ {| Word.id := now; Word.text := wordText;
              Word.x := rnd * 80 + 5; Word.y := -(10);
              Word.speed := (2 # 10) + inject_Z lvl * (5 # 100);
              Word.typed := "" |} ])
        (setPendingSpawns (Js.remove_index i (pendingSpawns s)) s)
  | Some _, Services.Throws => setPendingSpawns (Js.remove_index i (pendingSpawns s)) s
  | None, _ => s
  end.

Definition setY (v : Q) (w : Word.WordEntity) : Word.WordEntity :=
  {| Word.id := Word.id w; Word.text := Word.text w; Word.x := Word.x w;
     Word.y := v; Word.speed := Word.speed w; Word.typed := Word.typed w |}.

(** [nextY > 100]. *)
Definition below_bottom (nextY : Q) : bool := negb (Qle_bool nextY 100).

(** The body of the [forEach] in [updateGame]; the accumulator is
    [(nextWords, livesLost)]. *)
Definition advance (acc : list Word.WordEntity * Z) (word : Word.WordEntity)
    : list Word.WordEntity * Z :=
  let nextY := (Word.y word + Word.speed word)%Q in
  if below_bottom nextY then (fst acc, snd acc + 1)
  else (fst acc ++ [setY nextY word], snd acc).

(** [updateGame(time)], one animation frame. *)
Definition updateGame (time : Q) (s : State) : State :=
  if lives s <=? 0 then s
  else
    let s1 :=
      if negb (Qle_bool (time - lastSpawnTime s) (inject_Z (spawnRate s)))
      then
        let s' := setLastSpawnTime time (spawnWord s) in
        if spawnRate s' >? 800 then setSpawnRate (spawnRate s' - 10) s' else s'
      else s in
    let '(nextWords, livesLost) := fold_left advance (words s1) ([], 0) in
    let s2 :=
      if livesLost >? 0 then
        let newLives := lives s1 - livesLost in
        setLives newLives (if newLives <=? 0 then onGameEnd (score s) s1 else s1)
      else s1 in
    setWords nextWords s2.

(** The [keydown] listener of the game; [key] is [e.key]. *)
Definition handleKeyDown (key : string) (s : State) : State :=
  if lives s <=? 0 then s
  else if (Js.len key >? 1) && negb (String.eqb key "Backspace") then s
  else if String.eqb key "Backspace"
  then setCurrentInput (Js.drop_last (currentInput s)) s
  else
    let newTyped := (currentInput s ++ key)%string in
    match Js.findIndex (fun w => Js.starts_with (Word.text w) newTyped) (words s) with
    | Some targetIndex =>
        match nth_error (words s) targetIndex with
        | Some targetWord =>
            if String.eqb newTyped (Word.text targetWord) then
              let s1 := setScore (score s + Js.len (Word.text targetWord) * 10) s in
              let s2 := setCurrentInput "" s1 in
              let s3 :=
                if (score s >? 0) && (Z.rem (score s) 100 =? 0)
                then setLevel (level s2 + 1) s2 else s2 in
              setWords (Js.remove_index targetIndex (words s)) s3
            else setCurrentInput newTyped s
        | None => s
        end
    | None => setCurrentInput "" s
    end.

Inductive Event : Type :=
| Frame (time : Q)
| KeyDown (key : string)
| SpawnSettled (i : nat) (p : Services.Provider) (now : Z) (rnd : Q).

Definition step (s : State) (e : Event) : State :=
  match e with
  | Frame time => updateGame time s
  | KeyDown key => handleKeyDown key s
  | SpawnSettled i p now rnd =>
      spawnWord_resume i (Services.generateGameWords 1 p) now rnd s
  end.

Definition run (s : State) (evs : list Event) : State := fold_left step evs s.

(** *** Vocabulary of the properties *)

(** The spawn interval after [n] calls of [spawnWord]. *)
Definition interval_after (n : nat) : Z := Z.max 800 (2000 - 10 * Z.of_nat n).

(** The word passes the bottom boundary on this frame. *)
Definition falls_out (w : Word.WordEntity) : bool :=
  below_bottom (Word.y w + Word.speed w).

(** The word one frame later. *)
Definition moved (w : Word.WordEntity) : Word.WordEntity :=
  setY (Word.y w + Word.speed w) w.

(** A spawn is due at [time]. *)
Definition spawn_due (time : Q) (s : State) : bool :=
  negb (Qle_bool (time - lastSpawnTime s) (inject_Z (spawnRate s))).

(** The frame at [time] calls [spawnWord]: the game is on and a spawn is
    due. *)
Definition spawns_now (time : Q) (s : State) : bool :=
  (0 <? lives s) && spawn_due time s.

(** The number of multiples of 100 that lie in [(old, new]]. *)
Definition hundreds_crossed (old new : Z) : Z := new / 100 - old / 100.

Definition word (t : string) : Word.WordEntity :=
  {| Word.id := 1; Word.text := t; Word.x := 50; Word.y := 0;
     Word.speed := 1 # 4; Word.typed := "" |}.

(** A game with [ws] falling, [input] typed so far and score [sc]. *)
Definition playing (ws : list Word.WordEntity) (input : string) (sc : Z) : State :=
  setScore sc (setCurrentInput input (setWords ws initial)).

(** While the game is on nothing was reported; once the lives are used up
    exactly one score was, and it is the score of the game. *)
Definition end_reported_once (s : State) : Prop :=
  (0 < lives s /\ gameEnds s = []) \/ (lives s <= 0 /\ gameEnds s = [score s]).

End RainGame.

(* ================================================================== *)
(** ** components/TypingArea.tsx: the reference text as coloured spans *)
(* ================================================================== *)

Module TypingArea.

(** The colour class of a span: none for a unit not typed yet, the dark
    class for a unit typed right, the red class for a unit typed wrong. *)
Inductive ColorClass : Type := NoColor | CorrectColor | IncorrectColor.

Record Span : Type := mkSpan {
  spanChar : string;
  colorClass : ColorClass;
  isCurrent : bool;
  isCursor : bool
}.

(** [arr.map((x, index) => f(x, index))]. *)
Fixpoint mapi_from {A B : Type} (f : A -> nat -> B) (l : list A) (index : nat) : list B :=
  match l with
  | [] => []
  | a :: l' => f a index :: mapi_from f l' (S index)
  end.

Definition mapi {A B : Type} (f : A -> nat -> B) (l : list A) : list B :=
  mapi_from f l 0.

(** The callback of [fullText.split('').map]. *)
Definition renderSpan (userInput : string) (isFocused : bool) (ch : string) (index : nat) : Span :=
  let isCurrent := Nat.eqb index (String.length userInput) in
  let isCursor := isCurrent && isFocused in
  let colorClass :=
    if Nat.ltb index (String.length userInput)
    then let userChar := Js.char_at userInput index in
         if Js.strict_eq ch userChar then CorrectColor else IncorrectColor
    else NoColor in
  {| spanChar := ch; colorClass := colorClass; isCurrent := isCurrent;
     isCursor := isCursor |}.

(** The spans of the text area. *)
Definition spans (fullText userInput : string) (isFocused : bool) : list Span :=
  mapi (renderSpan userInput isFocused) (Js.split_chars fullText).

(** *** Vocabulary of the properties *)

Definition is_incorrect (sp : Span) : bool :=
  match colorClass sp with IncorrectColor => true | _ => false end.

Definition is_correct (sp : Span) : bool :=
  match colorClass sp with CorrectColor => true | _ => false end.

(** The number of spans shown in red. *)
Definition redCount (fullText userInput : string) (isFocused : bool) : Z :=
  Z.of_nat (List.length (filter is_incorrect (spans fullText userInput isFocused))).

(** The number of spans that carry the cursor. *)
Definition cursorCount (fullText userInput : string) (isFocused : bool) : nat :=
  List.length (filter isCursor (spans fullText userInput isFocused)).

End TypingArea.

(* ================================================================== *)
(** ** components/VirtualKeyboard.tsx: the colour of a key *)
(* ================================================================== *)

Module VirtualKeyboard.

(** The four class strings [getKeyColor] can return. *)
Inductive KeyColor : Type :=
| BaseColor      (* white / slate *)
| ActiveColor    (* neon blue, the key to press next *)
| RedColor       (* error rate above 0.2 *)
| OrangeColor.   (* error rate above 0.1 *)

(** [activeKey && keyLabel.toLowerCase() === activeKey.toLowerCase()];
    [activeKey] is [text[userInput.length]], [undefined] past the end. *)
Definition is_active (activeKey : option string) (keyLabel : string) : bool :=
  match activeKey with
  | Some a =>
      negb (String.eqb a "") &&
      String.eqb (Js.toLowerCase keyLabel) (Js.toLowerCase a)
  | None => false
  end.

Definition getKeyColor (activeKey : option string) (keyStats : Heatmap.t)
    (keyLabel : string) : KeyColor :=
  let lowerKey := Js.toLowerCase keyLabel in
  let stats := Obj.get keyStats lowerKey in
  if is_active activeKey keyLabel then ActiveColor
  else
    match stats with
    | Some st =>
        if total st >? 0 then
          let errorRate := Heatmap.ratio (errors st) (total st) in
          if Js.gt errorRate (2 # 10) then RedColor
          else if Js.gt errorRate (1 # 10) then OrangeColor
          else BaseColor
        else BaseColor
    | None => BaseColor
    end.

End VirtualKeyboard.

(* ================================================================== *)
(** ** Further vocabulary of the properties *)
(* ================================================================== *)

Module Vocabulary.

(** The typed units that differ from the reference, position by position;
    a typed unit past the end of the reference differs. *)
Fixpoint mismatches (text userInput : string) {struct userInput} : nat :=
  match userInput with
  | EmptyString => 0
  | String b u' =>
      match text with
      | EmptyString => S (String.length u')
      | String a t' => (if Ascii.eqb a b then 0 else 1) + mismatches t' u'
      end
  end.

(** The same, counting only positions the reference has. *)
Fixpoint mismatches_within (text userInput : string) {struct userInput} : nat :=
  match userInput, text with
  | String b u', String a t' =>
      (if Ascii.eqb a b then 0 else 1) + mismatches_within t' u'
  | _, _ => 0
  end.

(** No unit of the string is whitespace. *)
Fixpoint no_space (s : string) : bool :=
  match s with
  | EmptyString => true
  | String c s' => negb (Js.is_space c) && no_space s'
  end.

(** A heatmap entry sits under its own character, a key that lower-casing
    leaves as it is, and has been attempted at least once. *)
Definition well_keyed (kv : string * KeyStats) : Prop :=
  char (snd kv) = fst kv /\
  Js.toLowerCase (fst kv) = fst kv /\
  1 <= total (snd kv).

(** A counter summed over the entries of the heatmap. *)
Definition sum_by (f : KeyStats -> Z) (h : Heatmap.t) : Z :=
  fold_right (fun k acc => f k + acc) 0 (Obj.values h).

(** The attempts, and the errors, summed over the heatmap. *)
Definition sum_total (h : Heatmap.t) : Z := sum_by total h.

Definition sum_errors (h : Heatmap.t) : Z := sum_by errors h.

(** An attempt that [recordAttempt] records: it has an expected character. *)
Definition recorded (a : option string * bool) : bool :=
  match fst a with
  | Some e => negb (String.eqb e "")
  | None => false
  end.

Definition failed (a : option string * bool) : bool :=
  recorded a && negb (snd a).

(** The session can still take a character, or it is finished with no more
    typed than the reference holds. *)
Definition within_text (s : App.State) : Prop :=
  (App.isFinished s = true /\ (String.length (App.userInput s) <= String.length (App.text s))%nat)
  \/ (String.length (App.userInput s) < String.length (App.text s))%nat.

Definition is_keydown (e : App.Event) : bool :=
  match e with
  | App.KeyDown _ => true
  | _ => false
  end.

(** A word on screen: it has a text, it moves down, and it lies between its
    spawn height and the bottom boundary. *)
Definition word_ok (w : Word.WordEntity) : Prop :=
  Word.text w <> "" /\ (1 # 4 <= Word.speed w)%Q /\
  (-(10) <= Word.y w)%Q /\ (Word.y w <= 100)%Q.

(** The invariant of the game on its words, its level and the levels held by
    the spawns under way. *)
Definition game_ok (s : RainGame.State) : Prop :=
  Forall word_ok (RainGame.words s) /\
  1 <= RainGame.level s /\
  Forall (fun l => 1 <= l) (RainGame.pendingSpawns s).

(** The invariant of the game on its counters. *)
Definition counters_ok (s : RainGame.State) : Prop :=
  0 <= RainGame.score s /\ (10 | RainGame.score s) /\ RainGame.lives s <= 3 /\
  1 <= RainGame.level s.

(** [w'] is the word [w] at the same or a lower place on the screen. *)
Definition same_word_lower (w w' : Word.WordEntity) : Prop :=
  Word.id w' = Word.id w /\ Word.text w' = Word.text w /\
  Word.speed w' = Word.speed w /\ (Word.y w <= Word.y w')%Q.

End Vocabulary.

(* ================================================================== *)
(** * Properties *)
(* ================================================================== *)

(** ** The session statistics *)

Module ScoringFacts.
Import Scoring.

Lemma filter_seq_shift (f : nat -> bool) (n a : nat) :
  List.length (filter f (seq (S a) n)) =
  List.length (filter (fun j => f (S j)) (seq a n)).
Proof.
  revert a; induction n as [|n IH]; intro a; simpl; [reflexivity|].
  destruct (f (S a)); simpl; rewrite IH; reflexivity.
Qed.

Lemma count_error_step (text : string) (acc : Z) (c : ascii) (s : string) (off : nat) :
  count_error text acc (String c "") off =
  acc + (if differs_from text (String c s) off 0 then 1 else 0).
Proof.
  unfold count_error, differs_from, Js.strict_eq, Js.char_at.
  rewrite Nat.add_0_r. cbn [String.get].
  destruct (String.get off text) as [b|]; cbn [negb]; [|lia].
  destruct (Ascii.eqb_spec c b) as [->|Hne].
  - rewrite String.eqb_refl. cbn. lia.
  - assert (Hs : String.eqb (String c "") (String b "") = false)
      by (apply String.eqb_neq; congruence).
    rewrite Hs. cbn. lia.
Qed.

(** The fold of the source counts, from any offset, the differing indices. *)
Lemma reduce_count_errors (text : string) :
  forall (s : string) (off : nat) (acc : Z),
    Js.reduce_from (count_error text) (Js.split_chars s) off acc =
    acc + Z.of_nat (List.length
      (filter (differs_from text s off) (seq 0 (String.length s)))).
Proof.
  induction s as [|c s IH]; intros off acc.
  - cbn. lia.
  - cbn [Js.split_chars Js.reduce_from String.length seq filter].
    rewrite IH, (count_error_step text acc c s off).
    assert (E : List.length (filter (differs_from text (String c s) off)
                               (seq 1 (String.length s))) =
                List.length (filter (differs_from text s (S off))
                               (seq 0 (String.length s)))).
    { rewrite filter_seq_shift. f_equal. apply filter_ext. intro j.
      unfold differs_from. cbn [String.get].
      replace (off + S j)%nat with (S off + j)%nat by lia. reflexivity. }
    destruct (differs_from text (String c s) off 0); cbn [List.length];
      rewrite E; lia.
Qed.

Lemma count_errors_spec (text userInput : string) :
  count_errors text userInput = spec_mistakes text userInput.
Proof.
  unfold count_errors, Js.reduce, spec_mistakes.
  rewrite reduce_count_errors, Z.add_0_l. reflexivity.
Qed.

Lemma round_rounds_to (x : Q) : rounds_to x (Js.round x).
Proof.
  unfold rounds_to, Js.round.
  pose proof (Qfloor_le (x + (1 # 2))) as H1.
  pose proof (Qlt_floor (x + (1 # 2))) as H2.
  rewrite inject_Z_plus in H2. change (inject_Z 1) with 1%Q in H2.
  split; lra.
Qed.


Lemma elapsed_ms_eq (startTime : option Z) (now : Z) :
  now - Js.or_num startTime now = spec_elapsed_ms startTime now.
Proof.
  unfold Js.or_num, spec_elapsed_ms.
  destruct startTime as [t|]; [destruct (t =? 0)|]; lia.
Qed.

Lemma round_zero_over (m : Q) : Js.round ((inject_Z 0 / 5) / m) = 0.
Proof.
  unfold Js.round.
  assert (E : ((inject_Z 0 / 5) / m + (1 # 2) == 1 # 2)%Q).
  { unfold Qdiv. change (inject_Z 0) with 0%Q. ring. }
  rewrite (Qfloor_comp _ _ E). reflexivity.
Qed.

(** The formulas over exact rationals.  For every reference text, typed
    input and timestamps, [Scoring.currentStats] returns: [charsTyped], the
    length of the typed input; [mistakes], the number of indices below that
    length at which the typed unit differs from the reference's; [wpm], the
    rounding of (charsTyped / 5) over the elapsed minutes, the latter
    floored at 0.001; [accuracy], 100 when nothing is typed and the rounding
    of ((charsTyped - mistakes) / charsTyped) * 100 otherwise.  With empty
    input, accuracy is 100, wpm 0 and mistakes 0.  The statistics as the
    browser computes them are the subject of [Scoring64Facts]. *)
Theorem currentStats_exact (text userInput : string) (startTime : option Z)
    (isFinished : bool) (now : Z) :
  let s := currentStats text userInput startTime isFinished now in
  let n := Js.len userInput in
  let m := spec_mistakes text userInput in
  let minutes := Qmax (inject_Z (spec_elapsed_ms startTime now) / 60000) (1 # 1000) in
  charsTyped s = n /\
  mistakes s = m /\
  rounds_to ((inject_Z n / 5) / minutes) (wpm s) /\
  (if n =? 0 then accuracy s = 100
   else rounds_to ((inject_Z (n - m) / inject_Z n) * 100) (accuracy s)) /\
  (let s0 := currentStats text "" startTime isFinished now in
   accuracy s0 = 100 /\ wpm s0 = 0 /\ mistakes s0 = 0).
Proof.
  cbv zeta. unfold currentStats. cbn [charsTyped mistakes wpm accuracy].
  unfold elapsed_minutes. rewrite elapsed_ms_eq, count_errors_spec.
  repeat split.
  - apply round_rounds_to.
  - apply round_rounds_to.
  - destruct (Z.eqb_spec (Js.len userInput) 0) as [E|E].
    + rewrite E. reflexivity.
    + assert (H : (Js.len userInput >? 0) = true) by (unfold Js.len in *; lia).
      rewrite H. apply round_rounds_to.
  - apply round_zero_over.
Qed.

(** The example of the specification: "cat" typed as "cap". *)
Example currentStats_cat_cap :
  let s := currentStats "cat" "cap" (Some 1000) false 61000 in
  mistakes s = 1 /\ charsTyped s = 3 /\ accuracy s = 67.
Proof. vm_compute. repeat split. Qed.

End ScoringFacts.

(** ** The session statistics in binary64 *)

Module Scoring64Facts.
Import SpecFloat.
Import F64 (has_sign).

Lemma shr_1_nonneg (mrs : shr_record) : 0 <= shr_m mrs -> 0 <= shr_m (shr_1 mrs).
Proof.
  destruct mrs as [m r s]. cbn [shr_m]. intro H.
  destruct m as [|[p|p|]|p]; cbn; lia.
Qed.

Lemma iter_pos_nonneg (p : positive) :
  forall mrs, 0 <= shr_m mrs -> 0 <= shr_m (iter_pos shr_1 p mrs).
Proof.
  induction p as [p IH|p IH|]; intros mrs H; cbn [iter_pos].
  - apply IH, IH, shr_1_nonneg, H.
  - apply IH, IH, H.
  - apply shr_1_nonneg, H.
Qed.

Lemma shr_fexp_nonneg (m e : Z) (l : location) :
  0 <= m -> 0 <= shr_m (fst (shr_fexp F64.prec F64.emax m e l)).
Proof.
  intro H. unfold shr_fexp, shr.
  assert (R : shr_m (shr_record_of_loc m l) = m) by (destruct l as [|[]]; reflexivity).
  destruct (fexp F64.prec F64.emax (Zdigits2 m + e) - e) as [|p|p]; cbn [fst]; try lia.
  apply iter_pos_nonneg. lia.
Qed.

Lemma round_nearest_even_nonneg (m : Z) (l : location) :
  0 <= m -> 0 <= round_nearest_even m l.
Proof.
  intro H. destruct l as [|[]]; cbn [round_nearest_even]; try lia.
  destruct (Z.even m); lia.
Qed.

(** Rounding a non-negative mantissa yields a zero, a finite number or an
    infinity of the sign asked for, never [NaN]. *)
Lemma binary_round_aux_sign (sx : bool) (mx ex : Z) (lx : location) :
  0 <= mx -> has_sign sx (binary_round_aux F64.prec F64.emax sx mx ex lx).
Proof.
  intro H. unfold binary_round_aux.
  pose proof (shr_fexp_nonneg mx ex lx H) as H1.
  destruct (shr_fexp F64.prec F64.emax mx ex lx) as [mrs' e']. cbn [fst] in H1.
  pose proof (shr_fexp_nonneg _ e' loc_Exact
                (round_nearest_even_nonneg _ (loc_of_shr_record mrs') H1)) as H2.
  destruct (shr_fexp F64.prec F64.emax _ e' loc_Exact) as [mrs'' e'']. cbn [fst] in H2.
  destruct (shr_m mrs'') as [|m|m]; [reflexivity| |lia].
  destruct (e'' <=? F64.emax - F64.prec); reflexivity.
Qed.

Lemma of_Z_sign (z : Z) : has_sign (z <? 0) (F64.of_Z z).
Proof.
  unfold F64.of_Z, binary_normalize. destruct z as [|m|m]; [reflexivity| |].
  - unfold binary_round. destruct (shl_align _ _ _) as [mz ez].
    apply binary_round_aux_sign. lia.
  - unfold binary_round. destruct (shl_align _ _ _) as [mz ez].
    apply binary_round_aux_sign. lia.
Qed.

Lemma div_sign (sx sy : bool) (x : F64.t) (my : positive) (ey : Z) :
  has_sign sx x -> has_sign (xorb sx sy) (F64.div x (S754_finite sy my ey)).
Proof.
  unfold F64.div. destruct x as [s|s| |s mx ex]; cbn [has_sign SFdiv]; intro H;
    try (subst; reflexivity); try contradiction.
  subst s. unfold SFdiv_core_binary.
  set (m' := match _ - _ - _ with Z0 => _ | Zpos _ => _ | Zneg _ => _ end).
  assert (M : 0 <= m').
  { subst m'. destruct (_ - _ - _); [lia| |lia]. apply Z.shiftl_nonneg. lia. }
  pose proof (Z.div_pos m' (Zpos my) M ltac:(lia)) as Q.
  unfold Z.div in Q. destruct (Z.div_eucl m' (Z.pos my)) as [q r].
  apply binary_round_aux_sign, Q.
Qed.

(** [Math.max(a, 0.001)] for a number [a]: at least 0.001, positive, and
    0.001 itself when [a] is negative. *)
Lemma max_thousandth (a : F64.t) (s : bool) :
  has_sign s a ->
  F64.geb (F64.max a F64.thousandth) F64.thousandth = true /\
  has_sign false (F64.max a F64.thousandth) /\
  (s = true -> F64.max a F64.thousandth = F64.thousandth).
Proof.
  assert (T : exists m e, F64.thousandth = S754_finite false m e) by (vm_compute; eauto).
  destruct T as (m & e & T).
  assert (G : F64.geb F64.thousandth F64.thousandth = true) by (vm_compute; reflexivity).
  assert (B : has_sign false F64.thousandth) by (rewrite T; reflexivity).
  intro H. destruct a as [z|z| |z ma ea]; cbn [has_sign] in H; try contradiction; subst z.
  - unfold F64.max. rewrite T. cbn [SFcompare]. rewrite <- T. auto.
  - unfold F64.max. rewrite T. cbn [SFcompare]. rewrite <- T.
    destruct s; [auto|]. split; [|split]; [reflexivity|reflexivity|discriminate].
  - destruct s.
    + unfold F64.max. rewrite T. cbn [SFcompare]. rewrite <- T. auto.
    + unfold F64.max, F64.geb.
      destruct (SFcompare (S754_finite false ma ea) F64.thousandth) as [[]|] eqn:C.
      * rewrite C. split; [|split]; [reflexivity|reflexivity|discriminate].
      * auto.
      * rewrite C. split; [|split]; [reflexivity|reflexivity|discriminate].
      * rewrite T in C. cbn in C. discriminate.
Qed.

Lemma max_thousandth_not_zero (a : F64.t) (s : bool) (z : bool) :
  has_sign s a -> F64.max a F64.thousandth <> S754_zero z.
Proof.
  intro H. destruct a as [z'|z'| |z' ma ea]; cbn [has_sign] in H; try contradiction.
  - vm_compute. discriminate.
  - destruct z'; vm_compute; discriminate.
  - unfold F64.max. destruct (SFcompare _ _) as [[]|] eqn:C; discriminate.
Qed.

(** The elapsed minutes: a quotient by 60000, then the floor. *)
Lemma minutes_floor (startTime : option Z) (now later : Z) :
  let mins := Scoring64.minutes startTime now later in
  F64.geb mins F64.thousandth = true /\
  has_sign false mins /\
  (forall z, mins <> S754_zero z) /\
  (now - Js.or_num startTime later < 0 -> mins = F64.thousandth).
Proof.
  cbv zeta. unfold Scoring64.minutes.
  set (el := now - Js.or_num startTime later).
  assert (D : exists m e, F64.of_Z 60000 = S754_finite false m e) by (vm_compute; eauto).
  destruct D as (m & e & D). rewrite D.
  pose proof (div_sign (el <? 0) false _ m e (of_Z_sign el)) as S.
  rewrite xorb_false_r in S.
  destruct (max_thousandth _ _ S) as (G & P & N).
  repeat split; [exact G | exact P | | ].
  - intro z. eapply max_thousandth_not_zero, S.
  - intro L. apply N. apply Z.ltb_lt, L.
Qed.

(** Nothing typed: zero words over any positive number of minutes. *)
Lemma zero_over (a : F64.t) :
  has_sign false a -> (forall z, a <> S754_zero z) ->
  F64.round (F64.div (F64.div (F64.of_Z 0) (F64.of_Z 5)) a) = Js.Fin 0.
Proof.
  intros H N.
  assert (Z5 : F64.div (F64.of_Z 0) (F64.of_Z 5) = S754_zero false)
    by (vm_compute; reflexivity).
  rewrite Z5. destruct a as [z|z| |z ma ea]; cbn [has_sign] in H; try contradiction.
  - exfalso. apply (N z). reflexivity.
  - reflexivity.
  - reflexivity.
Qed.

Lemma round_rounded (d : F64.t) : Scoring64.rounded d (F64.round d).
Proof.
  unfold Scoring64.rounded, F64.round.
  destruct (F64.value d) as [q| | |]; cbn [Js.round_num]; try reflexivity.
  exists (Js.round q). split; [reflexivity | apply ScoringFacts.round_rounds_to].
Qed.

(** The exact quotient is not what [Math.round] sees.  Three characters in
    24 seconds: (3 / 5) / (24000 / 60000) is 3/2 and rounds to 2, the
    binary64 quotient lies just below 3/2 and the code yields 1.  Forty
    characters with seventeen wrong: (23 / 40) * 100 is 115/2 and rounds to
    58, the binary64 product lies just below and the code yields 57. *)
Lemma exact_rounding_counterexample :
  let s := Scoring64.currentStats "abc" "abc" (Some 1000) false 25000 25000 in
  let a := Scoring64.currentStats Scoring64.forty Scoring64.forty_typed
             (Some 1000) false 25000 25000 in
  (Scoring64.charsTyped s = 3 /\ Scoring64.wpm s = Js.Fin 1 /\
   ~ Scoring.rounds_to
       ((inject_Z 3 / 5) / Qmax (inject_Z (25000 - 1000) / 60000) (1 # 1000)) 1 /\
   wpm (Scoring.currentStats "abc" "abc" (Some 1000) false 25000) = 2) /\
  (Scoring64.charsTyped a = 40 /\ Scoring64.mistakes a = 17 /\
   Scoring64.accuracy a = Js.Fin 57 /\
   ~ Scoring.rounds_to ((inject_Z (40 - 17) / inject_Z 40) * 100) 57 /\
   accuracy (Scoring.currentStats Scoring64.forty Scoring64.forty_typed
               (Some 1000) false 25000) = 58).
Proof.
  cbv zeta. split.
  - split; [vm_compute; reflexivity|]. split; [vm_compute; reflexivity|].
    split; [|vm_compute; reflexivity].
    unfold Scoring.rounds_to. intros [_ H]. vm_compute in H. discriminate.
  - split; [vm_compute; reflexivity|]. split; [vm_compute; reflexivity|].
    split; [vm_compute; reflexivity|]. split; [|vm_compute; reflexivity].
    unfold Scoring.rounds_to. intros [_ H]. vm_compute in H. discriminate.
Qed.

(** C1, as the code has it.  For every reference text, typed input, start
    timestamp and readings of the clock, [currentStats] returns:
    [charsTyped], the length of the typed input; [mistakes], the number of
    indices below that length at which the typed unit differs from the
    reference's; [wpm], [Math.round] of the binary64 quotient of
    (charsTyped / 5) by the elapsed minutes, themselves the binary64
    quotient of the elapsed milliseconds by 60000, floored at the binary64
    number 0.001 (and equal to it when the start timestamp is unset and the
    clock does not run backwards); [accuracy], 100 when nothing is typed and
    [Math.round] of the binary64 product ((charsTyped - mistakes) /
    charsTyped) * 100 otherwise.  With empty input, accuracy is 100, wpm 0
    and mistakes 0. *)
Theorem currentStats_binary64 (text userInput : string) (startTime : option Z)
    (isFinished : bool) (now later : Z) :
  let s := Scoring64.currentStats text userInput startTime isFinished now later in
  let n := Js.len userInput in
  let m := Scoring.spec_mistakes text userInput in
  let elapsed :=
    match startTime with
    | Some t => if t =? 0 then now - later else now - t
    | None => now - later
    end in
  let mins := F64.max (F64.div (F64.of_Z elapsed) (F64.of_Z 60000)) F64.thousandth in
  Scoring64.charsTyped s = n /\
  Scoring64.mistakes s = m /\
  F64.geb mins F64.thousandth = true /\
  (Js.truthy_num startTime = false -> now <= later -> mins = F64.thousandth) /\
  Scoring64.rounded (F64.div (F64.div (F64.of_Z n) (F64.of_Z 5)) mins) (Scoring64.wpm s) /\
  (if n =? 0 then Scoring64.accuracy s = Js.Fin 100
   else Scoring64.rounded
          (F64.mul (F64.div (F64.of_Z (n - m)) (F64.of_Z n)) (F64.of_Z 100))
          (Scoring64.accuracy s)) /\
  (let s0 := Scoring64.currentStats text "" startTime isFinished now later in
   Scoring64.accuracy s0 = Js.Fin 100 /\ Scoring64.wpm s0 = Js.Fin 0 /\
   Scoring64.mistakes s0 = 0).
Proof.
  cbv zeta.
  assert (E : match startTime with
              | Some t => if t =? 0 then now - later else now - t
              | None => now - later
              end = now - Js.or_num startTime later).
  { unfold Js.or_num. destruct startTime as [t|]; [destruct (t =? 0)|]; reflexivity. }
  rewrite E. fold (Scoring64.minutes startTime now later).
  destruct (minutes_floor startTime now later) as (G & P & N & L). cbv zeta in *.
  unfold Scoring64.currentStats.
  cbn [Scoring64.charsTyped Scoring64.mistakes Scoring64.wpm Scoring64.accuracy].
  rewrite ScoringFacts.count_errors_spec.
  split; [reflexivity|]. split; [reflexivity|]. split; [exact G|]. split.
  { intros T H.
    assert (O : Js.or_num startTime later = later).
    { unfold Js.truthy_num in T. unfold Js.or_num.
      destruct startTime as [v|]; [|reflexivity].
      destruct (v =? 0); [reflexivity | discriminate]. }
    destruct (Z.eq_dec now later) as [->|Hne].
    - unfold Scoring64.minutes. rewrite O, Z.sub_diag. vm_compute. reflexivity.
    - apply L. rewrite O. lia. }
  split; [apply round_rounded|]. split.
  { destruct (Z.eqb_spec (Js.len userInput) 0) as [Z0|Z0].
    - rewrite Z0. reflexivity.
    - assert (H : (Js.len userInput >? 0) = true) by (unfold Js.len in *; lia).
      rewrite H. apply round_rounded. }
  split; [reflexivity|]. split; [|reflexivity].
  change (Js.len "") with 0. apply zero_over; assumption.
Qed.

End Scoring64Facts.

(** ** The object model *)

Module ObjFacts.

Section Lookup.
Context {V : Type}.
Implicit Types (o : Obj.t V) (k : string) (v : V).

Lemma get_replace o k v k' :
  Obj.get o k <> None ->
  Obj.get (Obj.replace o k v) k' = if String.eqb k' k then Some v else Obj.get o k'.
Proof.
  induction o as [|[k0 v0] o IH]; cbn [Obj.get Obj.replace]; intro Hin.
  - congruence.
  - destruct (String.eqb_spec k k0) as [->|Hk]; cbn [Obj.get].
    + destruct (String.eqb_spec k' k0); reflexivity.
    + destruct (String.eqb_spec k' k0) as [->|Hk'].
      * destruct (String.eqb_spec k0 k); [congruence|reflexivity].
      * apply IH, Hin.
Qed.

Lemma get_insert_index o n k v k' :
  Obj.get o k = None ->
  Obj.get (Obj.insert_index o n k v) k' =
  if String.eqb k' k then Some v else Obj.get o k'.
Proof.
  induction o as [|[k0 v0] o IH]; cbn [Obj.get Obj.insert_index]; intro Hout.
  - reflexivity.
  - destruct (String.eqb_spec k k0) as [->|Hk]; [discriminate|].
    destruct (Obj.array_index k0) as [m|]; [destruct (n <? m)%N|];
      cbn [Obj.get]; try reflexivity.
    destruct (String.eqb_spec k' k0) as [->|Hk'].
    + destruct (String.eqb_spec k0 k); [congruence|reflexivity].
    + apply IH, Hout.
Qed.

Lemma get_app_new o k v k' :
  Obj.get o k = None ->
  Obj.get (o ++ [(k, v)]) k' = if String.eqb k' k then Some v else Obj.get o k'.
Proof.
  induction o as [|[k0 v0] o IH]; cbn [Obj.get app]; intro Hout.
  - reflexivity.
  - destruct (String.eqb_spec k k0) as [->|Hk]; [discriminate|].
    destruct (String.eqb_spec k' k0) as [->|Hk'].
    + destruct (String.eqb_spec k0 k); [congruence|reflexivity].
    + apply IH, Hout.
Qed.

(** Reading after [{ ...o, [k]: v }]. *)
Lemma get_set o k v k' :
  Obj.get (Obj.set o k v) k' = if String.eqb k' k then Some v else Obj.get o k'.
Proof.
  unfold Obj.set. destruct (Obj.get o k) eqn:E.
  - apply get_replace. congruence.
  - destruct (Obj.array_index k); [apply get_insert_index | apply get_app_new];
      exact E.
Qed.

Variable P : V -> Prop.

Lemma Forall_replace o k v :
  Forall P (Obj.values o) -> P v -> Forall P (Obj.values (Obj.replace o k v)).
Proof.
  unfold Obj.values. induction o as [|[k0 v0] o IH]; cbn [Obj.replace map];
    intros Ho Hv; [constructor|].
  inversion Ho; subst.
  destruct (String.eqb k k0); cbn [map snd]; constructor; auto.
Qed.

Lemma Forall_insert_index o n k v :
  Forall P (Obj.values o) -> P v -> Forall P (Obj.values (Obj.insert_index o n k v)).
Proof.
  unfold Obj.values. induction o as [|[k0 v0] o IH]; cbn [Obj.insert_index map];
    intros Ho Hv; [repeat constructor; exact Hv|].
  inversion Ho; subst.
  destruct (Obj.array_index k0) as [m|]; [destruct (n <? m)%N|];
    cbn [map snd]; repeat constructor; auto.
Qed.

Lemma Forall_set o k v :
  Forall P (Obj.values o) -> P v -> Forall P (Obj.values (Obj.set o k v)).
Proof.
  intros Ho Hv. unfold Obj.set.
  destruct (Obj.get o k); [apply Forall_replace; assumption|].
  destruct (Obj.array_index k); [apply Forall_insert_index; assumption|].
  unfold Obj.values. rewrite map_app. apply Forall_app. split; [exact Ho|].
  repeat constructor. exact Hv.
Qed.

Lemma get_Forall o k v :
  Forall P (Obj.values o) -> Obj.get o k = Some v -> P v.
Proof.
  unfold Obj.values. induction o as [|[k0 v0] o IH]; cbn [Obj.get map snd];
    intros Ho Hg; [discriminate|].
  inversion Ho; subst.
  destruct (String.eqb k k0); [injection Hg as <-; assumption | auto].
Qed.

End Lookup.

End ObjFacts.

(** ** The key heatmap *)

Module HeatmapFacts.
Import Heatmap.

Ltac app_cells :=
  lazy beta iota zeta delta
    [App.resetSession App.finishSession App.callGenerateTypingAdvice
     App.setTheme App.setMode App.setText App.setUserInput App.setStartTime
     App.setIsFinished App.setKeyStats App.setLoading App.setAiAdvice
     App.setLastGameScore App.setStatsMemo App.onGameEnd App.deps
     App.theme App.mode App.text App.userInput App.startTime App.isFinished
     App.keyStats App.loading App.aiAdvice App.lastGameScore App.statsMemo
     App.adviceCalls].

Lemma recordAttempt_sane (prev : Heatmap.t) (e : option string) (b : bool) :
  Forall sane (Obj.values prev) -> Forall sane (Obj.values (recordAttempt prev e b)).
Proof.
  intro H. unfold recordAttempt.
  destruct (String.eqb _ ""); [exact H|].
  apply ObjFacts.Forall_set; [exact H|].
  set (key := Js.or_str (option_map Js.toLowerCase e) "").
  assert (Hc : sane (match Obj.get prev key with
                     | Some c => c | None => zeroed key end)).
  { destruct (Obj.get prev key) eqn:E.
    - eapply ObjFacts.get_Forall; eauto.
    - unfold sane, zeroed; cbn; lia. }
  fold (zeroed key). revert Hc. generalize (match Obj.get prev key with
                     | Some c => c | None => zeroed key end).
  intros k Hk. unfold sane in *. cbn [errors total]. destruct b; lia.
Qed.

Lemma recordAll_sane (attempts : list (option string * bool)) :
  Forall sane (Obj.values (recordAll attempts)).
Proof.
  unfold recordAll.
  assert (G : forall h, Forall sane (Obj.values h) ->
     Forall sane (Obj.values
       (fold_left (fun h a => recordAttempt h (fst a) (snd a)) attempts h))).
  { induction attempts as [|a l IH]; intros h Hh; cbn [fold_left]; [exact Hh|].
    apply IH, recordAttempt_sane, Hh. }
  apply G. constructor.
Qed.

(** The only writer of the heatmap is the updater in [handleKeyDown]. *)
Lemma handleKeyDown_keyStats (key : string) (now : Z) (s : App.State) :
  App.keyStats (App.handleKeyDown key now s) = App.keyStats s \/
  App.keyStats (App.handleKeyDown key now s) =
    recordAttempt (App.keyStats s)
      (Js.char_at (App.text s) (String.length (App.userInput s)))
      (Js.strict_eq key (Js.char_at (App.text s) (String.length (App.userInput s)))).
Proof.
  unfold App.handleKeyDown.
  destruct (_ || _ || _); [left; reflexivity|].
  destruct (_ || _); [|left; reflexivity].
  destruct (String.eqb key "Backspace").
  - left. destruct (negb _); app_cells; reflexivity.
  - right. destruct (negb _); destruct (_ =? _); app_cells; reflexivity.
Qed.

Lemma handle_keyStats (now : Z) (e : App.Event) (s : App.State) :
  App.keyStats (App.handle now e s) = App.keyStats s \/
  exists ex b, App.keyStats (App.handle now e s) = recordAttempt (App.keyStats s) ex b.
Proof.
  destruct e; cbn [App.handle].
  - destruct (handleKeyDown_keyStats key now s) as [H|H]; [left|right]; eauto.
  - left; reflexivity.
  - left. unfold App.handleModeChange. destruct newMode; app_cells; reflexivity.
  - left. unfold App.handleModeChange_resume.
    destruct (Services.generateLessonContent _ _ _ _); reflexivity.
  - left. destruct (_ && _); reflexivity.
  - left. unfold App.handleLessonGenerate_resume.
    destruct (Services.generateLessonContent _ _ _ _); reflexivity.
  - left. destruct (last _ _); [|reflexivity].
    unfold App.finishSession_resume.
    destruct (Services.generateTypingAdvice _ _ _ _); reflexivity.
  - left. destruct (_ && _); [|reflexivity].
    destruct (GameMode_eqb _ _); reflexivity.
  - left. destruct (_ && _); reflexivity.
  - left. destruct (_ && _); reflexivity.
Qed.

Lemma render_keyStats (now : Z) (s : App.State) :
  App.keyStats (App.render now s) = App.keyStats s.
Proof.
  unfold App.render. destruct (App.statsMemo s) as [[d v]|]; [|reflexivity].
  destruct (App.deps_eqb d (App.deps s)); reflexivity.
Qed.

Lemma run_sane (evs : list (Z * App.Event)) :
  forall s, Forall sane (Obj.values (App.keyStats s)) ->
            Forall sane (Obj.values (App.keyStats (App.run s evs))).
Proof.
  induction evs as [|[now e] evs IH]; intros s Hs; cbn [App.run fold_left]; [exact Hs|].
  apply IH. unfold App.step. cbn [fst snd]. rewrite render_keyStats.
  destruct (handle_keyStats now e s) as [->|(ex & b & ->)];
    [exact Hs | apply recordAttempt_sane, Hs].
Qed.

(** C3. Whatever the attempts recorded, and whatever the events the
    application has handled since it started, every entry of the heatmap has
    errors <= total.  One attempt is keyed by the lower-cased expected
    character: without an expected character (end of the text) the heatmap
    is returned as it is; otherwise the entry of that key, zeroed on first
    sight, gets its total raised by one, its errors raised by one exactly
    when the attempt was not correct, and no other entry changes.  The
    keystroke handler records the character expected at the position of the
    cursor, correct exactly when the typed key equals it. *)
Theorem heatmap_errors_le_total :
  (forall attempts, Forall sane (Obj.values (recordAll attempts))) /\
  (forall evs, Forall sane (Obj.values (App.keyStats (App.run App.initial evs)))) /\
  (forall prev isCorrect, recordAttempt prev None isCorrect = prev) /\
  (forall prev (expected : ascii) isCorrect k',
     let key := String (Js.lower_ascii expected) "" in
     let old := match Obj.get prev key with Some c => c | None => zeroed key end in
     Obj.get (recordAttempt prev (Some (String expected "")) isCorrect) k' =
     if String.eqb k' key
     then Some {| char := char old;
                  total := total old + 1;
                  errors := errors old + (if isCorrect then 0 else 1) |}
     else Obj.get prev k') /\
  (forall key now s,
     let expectedChar := Js.char_at (App.text s) (String.length (App.userInput s)) in
     App.keyStats (App.handleKeyDown key now s) = App.keyStats s \/
     App.keyStats (App.handleKeyDown key now s) =
       recordAttempt (App.keyStats s) expectedChar (Js.strict_eq key expectedChar)).
Proof.
  split; [exact recordAll_sane|].
  split; [intro evs; apply run_sane; constructor|].
  split; [reflexivity|].
  split; [|intros; apply handleKeyDown_keyStats].
  intros prev expected isCorrect k' key old.
  unfold recordAttempt. cbn [option_map Js.toLowerCase Js.or_str].
  fold key. change (String.eqb key "") with false. cbv iota.
  rewrite ObjFacts.get_set.
  destruct (String.eqb k' key); [|reflexivity].
  fold (zeroed key). fold old. destruct isCorrect; do 2 f_equal; lia.
Qed.

End HeatmapFacts.

(** ** The session: reset, completion and the statistics on screen *)

Module AppFacts.
Import App.

Ltac cells := HeatmapFacts.app_cells.

(** The same on a state given by its cells, in the goal and the context. *)
Ltac cells_all :=
  lazy beta iota zeta delta
    [resetSession finishSession callGenerateTypingAdvice
     setTheme setMode setText setUserInput setStartTime
     setIsFinished setKeyStats setLoading setAiAdvice
     setLastGameScore setStatsMemo onGameEnd deps
     theme mode text userInput startTime isFinished
     keyStats loading aiAdvice lastGameScore statsMemo adviceCalls] in *.

Lemma generateLessonContent_returns (ks : list string) (d t : string) (p : Services.Provider) :
  exists v, Services.generateLessonContent ks d t p = Services.Returns v.
Proof. destruct p; cbn; eauto. Qed.

(** A new session does not empty the heatmap: after one
    keystroke the heatmap has an entry, and neither a reset, nor a change of
    mode, nor a new lesson removes it. *)
Lemma reset_heatmap_counterexample :
  keyStats after_W = [("w", {| char := "w"; total := 1; errors := 0 |})] /\
  keyStats (resetSession after_W) <> Obj.empty /\
  keyStats (run after_W [(2000, ModeClick ZEN)]) <> Obj.empty /\
  keyStats (run after_W [(2000, SurpriseClick);
                         (3000, SurpriseSettled (Services.Resolves (Some "new text")))])
    <> Obj.empty.
Proof. vm_compute. repeat split; discriminate. Qed.

(** C8, as the code has it. An explicit reset, a change of mode and the
    arrival of a generated lesson each clear the typed input, the start
    timestamp, the finished flag and the advice text, and each leaves the
    heatmap exactly as it was: the key statistics outlive the session. *)
Theorem new_session_keeps_heatmap :
  (forall s, cleared (resetSession s) /\ keyStats (resetSession s) = keyStats s) /\
  (forall newMode s,
     cleared (handleModeChange newMode s) /\
     keyStats (handleModeChange newMode s) = keyStats s) /\
  (forall now p s,
     cleared (handle now (SurpriseSettled p) s) /\
     keyStats (handle now (SurpriseSettled p) s) = keyStats s).
Proof.
  unfold cleared. split; [|split].
  - intro s. cells. repeat split.
  - intros newMode s. unfold handleModeChange. destruct newMode; cells; repeat split.
  - intros now p s. cbn [handle]. unfold handleLessonGenerate_resume.
    destruct (generateLessonContent_returns (Heatmap.lessonWeakKeys (keyStats s))
                "Intermediate" "Science Fiction" p) as [v ->].
    cells. repeat split.
Qed.

Lemma option_Z_eqb_refl (a : option Z) : option_Z_eqb a a = true.
Proof. destruct a; cbn; [apply Z.eqb_refl | reflexivity]. Qed.

Lemma deps_eqb_refl (d : Deps) : deps_eqb d d = true.
Proof.
  destruct d as [[[ui st] fin] tx]. cbn.
  rewrite !String.eqb_refl, option_Z_eqb_refl, Bool.eqb_reflx. reflexivity.
Qed.

Lemma deps_eqb_finished (ui ui' tx tx' : string) (st st' : option Z) :
  deps_eqb (ui, st, false, tx) (ui', st', true, tx') = false.
Proof.
  cbn. destruct (String.eqb ui ui'), (option_Z_eqb st st'); reflexivity.
Qed.

Lemma render_rendered (now : Z) (s : State) : rendered (render now s).
Proof.
  unfold render, rendered.
  destruct (statsMemo s) as [[d v]|] eqn:E.
  - destruct (deps_eqb d (deps s)) eqn:D.
    + rewrite E. destruct d as [[[ui st] fin] tx]. unfold deps in *.
      cbn in D. apply andb_prop in D as [D D4]. apply andb_prop in D as [D D3].
      apply andb_prop in D as [D1 D2].
      apply String.eqb_eq in D1, D4. apply Bool.eqb_prop in D3.
      assert (st = startTime s).
      { destruct st, (startTime s); cbn in D2; try discriminate; try reflexivity.
        apply Z.eqb_eq in D2. congruence. }
      congruence.
    + cells. reflexivity.
  - cells. reflexivity.
Qed.

Lemma run_rendered (evs : list (Z * Event)) :
  forall s, rendered s -> rendered (run s evs).
Proof.
  induction evs as [|ev evs IH]; intros s Hs; cbn [run fold_left]; [exact Hs|].
  apply IH. apply render_rendered.
Qed.

Lemma one_unit_not_backspace (key : string) :
  Js.len key = 1 -> String.eqb key "Backspace" = false.
Proof.
  destruct key as [|a [|b k]]; unfold Js.len; cbn [String.length]; intro H;
    try lia.
  cbn. destruct (Ascii.eqb a "B"); reflexivity.
Qed.

(** In the finished state an event that keeps the session changes neither
    the cells the statistics depend on, nor the cached statistics, nor the
    list of calls to the coach. *)
Lemma finished_step_frozen (s : State) (ev : Z * Event) :
  isFinished s = true ->
  (exists v, statsMemo s = Some (deps s, v)) ->
  keeps_session (snd ev) = true ->
  let s' := step s ev in
  isFinished s' = true /\ deps s' = deps s /\
  statsMemo s' = statsMemo s /\ adviceCalls s' = adviceCalls s.
Proof.
  intros Hfin [v Hmemo] Hkeep. destruct ev as [now e]. cbn [snd] in Hkeep.
  unfold step. cbn [fst snd].
  assert (H : isFinished (handle now e s) = true /\
              deps (handle now e s) = deps s /\
              statsMemo (handle now e s) = statsMemo s /\
              adviceCalls (handle now e s) = adviceCalls s).
  { destruct e; try discriminate; cbn [handle].
    - unfold handleKeyDown. rewrite Hfin, orb_true_r. cbn [orb]. auto.
    - cells. unfold deps. cells. auto.
    - destruct (_ && _); [|auto].
      unfold handleLessonGenerate. cells. auto.
    - destruct (last _ _); [|auto].
      unfold finishSession_resume.
      destruct (Services.generateTypingAdvice _ _ _ _); [|auto].
      cells. unfold deps. cells. auto. }
  destruct H as (H1 & H2 & H3 & H4).
  unfold render. rewrite H3, Hmemo, H2, deps_eqb_refl.
  repeat split; congruence.
Qed.

Lemma finished_run_frozen (evs : list (Z * Event)) :
  forall s,
    isFinished s = true ->
    (exists v, statsMemo s = Some (deps s, v)) ->
    Forall (fun ev => keeps_session (snd ev) = true) evs ->
    isFinished (run s evs) = true /\
    statsMemo (run s evs) = statsMemo s /\
    adviceCalls (run s evs) = adviceCalls s.
Proof.
  induction evs as [|ev evs IH]; intros s Hfin Hmemo Hall; cbn [run fold_left];
    [auto|].
  inversion Hall as [|? ? Hev Hrest]; subst.
  destruct (finished_step_frozen s ev Hfin Hmemo Hev) as (F1 & F2 & F3 & F4).
  destruct Hmemo as [v Hv].
  destruct (IH (step s ev) F1) as (G1 & G2 & G3); [|exact Hrest|].
  - exists v. rewrite F3, F2. exact Hv.
  - fold (run (step s ev) evs). rewrite G2, G3, F3, F4. auto.
Qed.

(** C2, at a run the browser can produce.  Zen mode is asked for twice, so
    that two texts are under way.  The first, "hi", arrives and is typed:
    the second keystroke, one second after the first, completes it, and the
    statistics on screen are a speed of 24, an accuracy of 100 and no
    mistake.  A minute later the second text, "ho", arrives.  The session is
    still finished, with the same typed input and the same start timestamp,
    and the statistics on screen are computed again, against the new text
    and at the new reading of the clock: a speed of 0, an accuracy of 50,
    one mistake.  The elapsed time used in the reported wpm has grown after
    completion.  The binary64 statistics are the same numbers at both
    renders. *)
Lemma late_text_recomputes_finished_stats :
  let finished :=
    run initial [(0, ModeClick ZEN); (100, ModeClick ZEN);
                 (1000, ZenTextSettled (Services.Resolves (Some "hi")));
                 (2000, KeyDown "h"); (3000, KeyDown "i")] in
  let after := step finished (63000, ZenTextSettled (Services.Resolves (Some "ho"))) in
  (isFinished finished = true /\ userInput finished = "hi" /\
   startTime finished = Some 2000 /\
   option_map (fun st => (wpm st, accuracy st, mistakes st)) (shownStats finished) =
     Some (24, 100, 0)) /\
  (isFinished after = true /\ userInput after = "hi" /\
   startTime after = Some 2000 /\
   option_map (fun st => (wpm st, accuracy st, mistakes st)) (shownStats after) =
     Some (0, 50, 1)) /\
  (let st := Scoring64.currentStats "hi" "hi" (Some 2000) true 3000 3000 in
   (Scoring64.wpm st, Scoring64.accuracy st, Scoring64.mistakes st) =
     (Js.Fin 24, Js.Fin 100, 0)) /\
  (let st := Scoring64.currentStats "ho" "hi" (Some 2000) true 63000 63000 in
   (Scoring64.wpm st, Scoring64.accuracy st, Scoring64.mistakes st) =
     (Js.Fin 0, Js.Fin 50, 1)).
Proof.
  cbv zeta. split; [|split; [|split]].
  - repeat split; vm_compute; reflexivity.
  - repeat split; vm_compute; reflexivity.
  - vm_compute; reflexivity.
  - vm_compute; reflexivity.
Qed.

End AppFacts.

(** ** The text services *)

Module ServicesFacts.
Import Services.

Lemma trim_end_head (c : ascii) (s : string) :
  Js.is_space c = false -> Js.trim_end (String c s) <> "".
Proof.
  intro H. cbn [Js.trim_end]. rewrite H.
  destruct (Js.trim_end s); discriminate.
Qed.

Lemma trim_start_shape (s : string) :
  (Js.trim_start s = "" /\ all_space s = true) \/
  (exists c s', Js.trim_start s = String c s' /\ Js.is_space c = false).
Proof.
  induction s as [|c s IH]; cbn [Js.trim_start all_space].
  - left; split; reflexivity.
  - destruct (Js.is_space c) eqn:E; cbn [andb].
    + exact IH.
    + right. exists c, s. split; [reflexivity | exact E].
Qed.

Lemma trim_empty_all_space (s : string) : Js.trim s = "" -> all_space s = true.
Proof.
  unfold Js.trim. intro H.
  destruct (trim_start_shape s) as [[_ A]|(c & s' & E & Hc)]; [exact A|].
  rewrite E in H. exfalso. exact (trim_end_head c s' Hc H).
Qed.

(** Splitting whitespace leaves only the piece read so far and empty pieces. *)
Lemma split_ws_all_space (s : string) :
  all_space s = true ->
  forall cur b, Forall (fun w => w = cur \/ w = "") (Js.split_ws_from cur b s).
Proof.
  induction s as [|c s IH]; cbn [all_space Js.split_ws_from]; intros H cur b.
  - repeat constructor.
  - apply andb_prop in H as [Hc Hs]. rewrite Hc. destruct b.
    + apply IH, Hs.
    + constructor; [left; reflexivity|].
      eapply Forall_impl; [|apply (IH Hs "" true)].
      cbn beta. intros w [->| ->]; right; reflexivity.
Qed.

Lemma words_of_blank (r : option string) :
  blank r = true ->
  filter (fun w => 0 <? Js.len w) (Js.split_ws (Js.or_str r "")) = [].
Proof.
  intro H.
  assert (A : all_space (Js.or_str r "") = true).
  { destruct r as [t|]; [|reflexivity]. cbn [blank] in H.
    apply String.eqb_eq, trim_empty_all_space in H.
    destruct t; [reflexivity | exact H]. }
  pose proof (split_ws_all_space _ A "" false) as F. fold (Js.split_ws (Js.or_str r "")) in F.
  induction F as [|w l Hw _ IH]; [reflexivity|].
  cbn [filter]. assert (w = "") as -> by (destruct Hw; assumption).
  cbn. exact IH.
Qed.

Lemma slice0_length {A : Type} (l : list A) (count : Z) :
  0 <= count -> Z.of_nat (List.length (Js.slice0 l count)) <= count.
Proof.
  intro H. unfold Js.slice0.
  replace (count <? 0) with false by (symmetry; apply Z.ltb_ge; exact H).
  pose proof (firstn_le_length (Z.to_nat count) l). rewrite length_firstn. lia.
Qed.

Lemma slice0_incl {A : Type} (P : A -> Prop) (l : list A) (count : Z) :
  Forall P l -> Forall P (Js.slice0 l count).
Proof.
  intro H. unfold Js.slice0.
  assert (F : forall n, Forall P (firstn n l)).
  { intro n. rewrite <- (firstn_skipn n l) in H. apply Forall_app in H. tauto. }
  destruct (count <? 0); apply F.
Qed.

Lemma kept_words_nonempty (l : list string) :
  Forall (fun w => w <> "") (filter (fun w => 0 <? Js.len w) l).
Proof.
  apply Forall_forall. intros w Hin. apply filter_In in Hin as [_ Hw].
  intros ->. discriminate.
Qed.

(** An empty response is not answered like a failure:
    the word list is then empty, not the ten fallback words, and the coach's
    text is not the one returned on failure. *)
Lemma empty_response_counterexample :
  generateGameWords 1 (Resolves None) = Returns [] /\
  generateGameWords 1 (Resolves None) <> Returns FALLBACK_WORDS /\
  generateGameWords 1 (Resolves (Some "")) <> generateGameWords 1 Rejects /\
  generateTypingAdvice (Js.Fin 40) (Js.Fin 90) [] (Resolves (Some "")) <>
    generateTypingAdvice (Js.Fin 40) (Js.Fin 90) [] Rejects.
Proof. vm_compute. repeat split; discriminate. Qed.

(** C9, as the code has it. None of the three operations throws.  When
    the provider fails, the lesson is the pangram, the advice is "Great job!
    Keep typing every day." and the words are the ten fallback words.  When
    the provider answers without text (undefined, empty or blank), the
    lesson is the pangram again, the advice is the other fixed string, "Keep
    practicing! Accuracy is key to speed.", and the word list is empty. *)
Theorem services_fallbacks (focusKeys : list string) (difficulty topic : string)
    (wpm accuracy : Js.jsnum) (weakKeys : list string) (count : Z) (r : option string) :
  blank r = true ->
  (forall p, exists v, generateLessonContent focusKeys difficulty topic p = Returns v) /\
  (forall p, exists v, generateTypingAdvice wpm accuracy weakKeys p = Returns v) /\
  (forall p, exists v, generateGameWords count p = Returns v) /\
  generateLessonContent focusKeys difficulty topic Rejects = Returns PANGRAM /\
  generateTypingAdvice wpm accuracy weakKeys Rejects = Returns ADVICE_ON_ERROR /\
  generateGameWords count Rejects = Returns FALLBACK_WORDS /\
  generateLessonContent focusKeys difficulty topic (Resolves r) = Returns PANGRAM /\
  generateTypingAdvice wpm accuracy weakKeys (Resolves r) = Returns ADVICE_ON_EMPTY /\
  generateGameWords count (Resolves r) = Returns [].
Proof.
  intro H.
  assert (T : Js.or_str (option_map Js.trim r) PANGRAM = PANGRAM /\
              Js.or_str (option_map Js.trim r) ADVICE_ON_EMPTY = ADVICE_ON_EMPTY).
  { destruct r as [t|]; [|split; reflexivity]. cbn [blank] in H.
    apply String.eqb_eq in H. cbn [option_map]. rewrite H. split; reflexivity. }
  destruct T as [T1 T2].
  repeat split; try (intros []; cbn; eauto).
  - unfold generateLessonContent. cbn [generateContent bind try_catch]. rewrite T1. reflexivity.
  - unfold generateTypingAdvice. cbn [generateContent bind try_catch]. rewrite T2. reflexivity.
  - unfold generateGameWords. cbn [generateContent bind try_catch].
    rewrite (words_of_blank r H). unfold Js.slice0.
    destruct (count <? 0); rewrite firstn_nil; reflexivity.
Qed.

Lemma services_fallbacks_witness :
  generateLessonContent ["a"] "Intermediate" "Science Fiction"
    (Resolves (Some "  ")) = Returns PANGRAM /\
  generateGameWords 1 (Resolves (Some "  ")) = Returns [].
Proof.
  destruct (services_fallbacks ["a"] "Intermediate" "Science Fiction"
              (Js.Fin 40) (Js.Fin 90) [] 1 (Some "  "))
    as (_ & _ & _ & _ & _ & _ & H7 & _ & H9).
  - vm_compute; reflexivity.
  - exact (conj H7 H9).
Defined.

(** More than [count] words can come back when the provider
    fails: one word is asked for and ten are returned. *)
Lemma generateGameWords_counterexample :
  exists ws, generateGameWords 1 Rejects = Returns ws /\
             ~ (Z.of_nat (List.length ws) <= 1).
Proof. exists FALLBACK_WORDS. split; [reflexivity | cbn; lia]. Qed.

(** C10, as the code has it. For a count N >= 0 the operation returns a
    list of non-empty words; when the provider answers, the list has at
    most N words; when the provider fails, the list is the ten fallback
    words, whatever N. *)
Theorem generateGameWords_bounded (count : Z) (p : Provider) :
  0 <= count ->
  exists ws,
    generateGameWords count p = Returns ws /\
    Forall (fun w => w <> "") ws /\
    match p with
    | Resolves _ => Z.of_nat (List.length ws) <= count
    | Rejects => ws = FALLBACK_WORDS
    end.
Proof.
  intro H. destruct p as [|r]; unfold generateGameWords;
    cbn [generateContent bind try_catch]; eexists; split; try reflexivity.
  - split; [|reflexivity]. unfold FALLBACK_WORDS.
    repeat constructor; discriminate.
  - split; [apply slice0_incl, kept_words_nonempty | apply slice0_length, H].
Qed.

Lemma generateGameWords_bounded_witness :
  exists ws,
    generateGameWords 2 (Resolves (Some " alpha beta  gamma ")) = Returns ws /\
    Forall (fun w => w <> "") ws /\ Z.of_nat (List.length ws) <= 2.
Proof.
  apply (generateGameWords_bounded 2 (Resolves (Some " alpha beta  gamma "))).
  lia.
Defined.

Example generateGameWords_splits :
  generateGameWords 2 (Resolves (Some " alpha beta  gamma ")) = Returns ["alpha"; "beta"].
Proof. vm_compute. reflexivity. Qed.

End ServicesFacts.

(** ** The weak keys *)

Module WeakKeysFacts.
Import Heatmap HeatmapFacts.

Lemma ratio_gt_tenth (e t : Z) :
  0 < t -> Js.gt (ratio e t) (1 # 10) = (t <? 10 * e).
Proof.
  intro Ht. destruct t as [|p|p]; try lia.
  unfold ratio, Js.div.
  change (Qeq_bool (inject_Z (Z.pos p)) 0) with false. cbv iota. unfold Js.gt.
  assert (Q : (inject_Z e / inject_Z (Z.pos p) <= 1 # 10)%Q <-> 10 * e <= Z.pos p).
  { unfold Qle. cbn [Qnum Qden Qdiv Qmult Qinv inject_Z]. lia. }
  destruct (Z.ltb_spec (Z.pos p) (10 * e)) as [W|W].
  - apply negb_true_iff. destruct (Qle_bool _ _) eqn:B; [|reflexivity].
    apply Qle_bool_iff, Q in B. lia.
  - apply negb_false_iff. apply Qle_bool_iff, Q. exact W.
Qed.

Lemma lesson_filter_weak (k : KeyStats) :
  Js.gt (ratio (errors k) (total k)) (1 # 10) && (total k >? 5) = weak k.
Proof.
  unfold weak. destruct (Z.ltb_spec 5 (total k)) as [H|H].
  - replace (total k >? 5) with true by (symmetry; apply Z.gtb_lt; lia).
    rewrite andb_true_r. cbn [andb]. apply ratio_gt_tenth. lia.
  - replace (total k >? 5) with false
      by (symmetry; rewrite Z.gtb_ltb; apply Z.ltb_ge; lia).
    rewrite andb_false_r. reflexivity.
Qed.

Lemma goes_behind_true (a b : KeyStats) :
  goes_behind a b = true -> rate_ge b a.
Proof.
  unfold goes_behind, rate_ge. intro H. apply negb_true_iff in H.
  destruct (Qlt_le_dec (guarded_rate a) (guarded_rate b)) as [L|L].
  - apply Qlt_le_weak, L.
  - apply Qle_bool_iff in L. congruence.
Qed.

Lemma goes_behind_false (a b : KeyStats) :
  goes_behind a b = false -> rate_ge a b.
Proof.
  unfold goes_behind, rate_ge. intro H. apply negb_false_iff in H.
  apply Qle_bool_iff, H.
Qed.

Lemma rate_ge_trans (a b c : KeyStats) : rate_ge a b -> rate_ge b c -> rate_ge a c.
Proof. unfold rate_ge. intros H1 H2. eapply Qle_trans; eassumption. Qed.

Lemma insert_sorted_In (a x : KeyStats) (l : list KeyStats) :
  In x (insert_sorted a l) <-> x = a \/ In x l.
Proof.
  induction l as [|b l IH]; cbn [insert_sorted].
  - cbn. intuition congruence.
  - destruct (goes_behind a b); cbn [In]; [rewrite IH|]; intuition congruence.
Qed.

Lemma insert_sorted_sorted (a : KeyStats) (l : list KeyStats) :
  StronglySorted rate_ge l -> StronglySorted rate_ge (insert_sorted a l).
Proof.
  induction 1 as [|b l Hl IH Hb]; cbn [insert_sorted].
  - repeat constructor.
  - destruct (goes_behind a b) eqn:G.
    + constructor; [exact IH|]. apply Forall_forall. intros x Hx.
      apply insert_sorted_In in Hx as [->|Hx].
      * apply goes_behind_true, G.
      * rewrite Forall_forall in Hb. apply Hb, Hx.
    + constructor; [constructor; assumption|].
      constructor; [apply goes_behind_false, G|].
      eapply Forall_impl; [|exact Hb]. cbn beta. intros x Hx.
      eapply rate_ge_trans; [apply goes_behind_false, G | exact Hx].
Qed.

Lemma sort_sorted (l : list KeyStats) : StronglySorted rate_ge (sort l).
Proof.
  induction l as [|a l IH]; cbn [sort fold_right]; [constructor|].
  apply insert_sorted_sorted, IH.
Qed.

Lemma sort_In (x : KeyStats) (l : list KeyStats) : In x (sort l) <-> In x l.
Proof.
  induction l as [|a l IH]; cbn [sort fold_right]; [reflexivity|].
  fold (sort l). rewrite insert_sorted_In, IH. cbn. intuition congruence.
Qed.

Lemma insert_sorted_perm (a : KeyStats) (l : list KeyStats) :
  Permutation (a :: l) (insert_sorted a l).
Proof.
  induction l as [|b l IH]; cbn [insert_sorted]; [reflexivity|].
  destruct (goes_behind a b); [|reflexivity].
  rewrite perm_swap. constructor. exact IH.
Qed.

Lemma sort_perm (l : list KeyStats) : Permutation l (sort l).
Proof.
  induction l as [|a l IH]; cbn [sort fold_right]; [constructor|].
  fold (sort l). rewrite <- insert_sorted_perm. constructor. exact IH.
Qed.

Section Sublists.
Context {A : Type} (R : A -> A -> Prop).

Lemma sorted_filter (f : A -> bool) (l : list A) :
  StronglySorted R l -> StronglySorted R (filter f l).
Proof.
  induction 1 as [|a l Hl IH Ha]; cbn [filter]; [constructor|].
  destruct (f a); [|exact IH]. constructor; [exact IH|].
  apply Forall_forall. intros x Hx. apply filter_In in Hx as [Hx _].
  rewrite Forall_forall in Ha. apply Ha, Hx.
Qed.

Lemma Forall_firstn (P : A -> Prop) (n : nat) (l : list A) :
  Forall P l -> Forall P (firstn n l).
Proof.
  intro H. rewrite <- (firstn_skipn n l) in H. apply Forall_app in H. tauto.
Qed.

Lemma sorted_firstn (n : nat) (l : list A) :
  StronglySorted R l -> StronglySorted R (firstn n l).
Proof.
  intro H. revert n. induction H as [|a l Hl IH Ha]; intros [|n];
    cbn [firstn]; try constructor.
  - apply IH.
  - apply Forall_firstn, Ha.
Qed.

End Sublists.

Lemma filter_length_le {A : Type} (f : A -> bool) (l : list A) :
  (List.length (filter f l) <= List.length l)%nat.
Proof.
  induction l as [|a l IH]; cbn [filter List.length]; [lia|].
  destruct (f a); cbn [List.length]; lia.
Qed.

(** No path of the code yields weak keys both sorted by error rate and
    filtered by the two thresholds.  The keys sent with a
    lesson request come in the order of the heatmap: "a" (rate 2/10) before
    "b" (rate 5/10).  The sorted display applies no threshold: it shows "q"
    after one attempt. *)
Lemma weak_keys_counterexample :
  lessonWeakKeys two_keys = ["a"; "b"] /\
  ~ StronglySorted rate_ge (filter weak (Obj.values two_keys)) /\
  map (fun k => (char k, errors k, total k)) (Obj.values two_keys) =
    [("a", 2, 10); ("b", 5, 10)] /\
  map (fun k => (char k, errors k, total k)) (weakKeysDisplay one_miss) =
    [("q", 1, 1)].
Proof.
  split; [vm_compute; reflexivity|]. split; [|vm_compute; split; reflexivity].
  intro S. vm_compute in S. inversion S as [|? ? _ F]; subst.
  inversion F as [|? ? R _]; subst. vm_compute in R. apply R. reflexivity.
Qed.

(** The sort is stable: inserting [a], which stood first, passes only
    entries of a strictly higher rate. *)
Lemma insert_sorted_stable (k a : KeyStats) (l : list KeyStats) :
  filter (same_rate k) (insert_sorted a l) = filter (same_rate k) (a :: l).
Proof.
  induction l as [|b l IH]; cbn [insert_sorted]; [reflexivity|].
  destruct (goes_behind a b) eqn:G; [|reflexivity].
  cbn [filter] in *. rewrite IH.
  destruct (same_rate k a) eqn:A, (same_rate k b) eqn:B; try reflexivity.
  exfalso. unfold same_rate in A, B. apply Qeq_bool_iff in A, B.
  unfold goes_behind in G. apply negb_true_iff in G.
  assert (L : (guarded_rate b <= guarded_rate a)%Q) by (rewrite <- A, <- B; apply Qle_refl).
  apply Qle_bool_iff in L. congruence.
Qed.

Lemma sort_stable (k : KeyStats) (l : list KeyStats) :
  filter (same_rate k) (sort l) = filter (same_rate k) l.
Proof.
  induction l as [|a l IH]; cbn [sort fold_right]; [reflexivity|].
  fold (sort l). rewrite insert_sorted_stable. cbn [filter]. rewrite IH. reflexivity.
Qed.

Lemma sort_ranked (l : list KeyStats) : ranked l (sort l).
Proof.
  split; [apply sort_perm|]. split; [apply sort_sorted|].
  intro k. apply sort_stable.
Qed.

Lemma same_rate_refl (a : KeyStats) : same_rate a a = true.
Proof. apply Qeq_bool_iff. reflexivity. Qed.

Lemma ranked_head_rate (a b : KeyStats) (o1 o2 : list KeyStats) :
  StronglySorted rate_ge (a :: o1) ->
  filter (same_rate b) (a :: o1) = filter (same_rate b) (b :: o2) ->
  rate_ge a b.
Proof.
  intros S E. cbn [filter] in E. rewrite (same_rate_refl b) in E.
  assert (I : In b (a :: o1)).
  { assert (I : In b (b :: filter (same_rate b) o2)) by (left; reflexivity).
    rewrite <- E in I. destruct (same_rate b a).
    - destruct I as [->|I]; [left; reflexivity|].
      right. apply filter_In in I. tauto.
    - right. apply filter_In in I. tauto. }
  destruct I as [->|I]; [apply Qle_refl|].
  inversion S as [|? ? _ F]; subst. rewrite Forall_forall in F. apply F, I.
Qed.

(** The ranking of a list is unique. *)
Lemma sorted_stable_unique (o1 : list KeyStats) :
  forall o2,
    StronglySorted rate_ge o1 -> StronglySorted rate_ge o2 ->
    (forall k, filter (same_rate k) o1 = filter (same_rate k) o2) ->
    o1 = o2.
Proof.
  induction o1 as [|a o1 IH]; intros [|b o2] S1 S2 E.
  - reflexivity.
  - specialize (E b). cbn [filter] in E. rewrite same_rate_refl in E. discriminate.
  - specialize (E a). cbn [filter] in E. rewrite same_rate_refl in E. discriminate.
  - assert (R1 : rate_ge a b) by (eapply ranked_head_rate; [exact S1 | apply E]).
    assert (R2 : rate_ge b a).
    { eapply ranked_head_rate; [exact S2 | symmetry; apply E]. }
    assert (Q : (guarded_rate a == guarded_rate b)%Q)
      by (apply Qle_antisym; [exact R2 | exact R1]).
    assert (Hab : a = b).
    { pose proof (E a) as Ea. cbn [filter] in Ea. rewrite same_rate_refl in Ea.
      assert (B : same_rate a b = true) by (apply Qeq_bool_iff; exact Q).
      rewrite B in Ea. congruence. }
    subst b. f_equal. apply IH.
    + inversion S1; assumption.
    + inversion S2; assumption.
    + intro k. specialize (E k). cbn [filter] in E.
      destruct (same_rate k a); congruence.
Qed.

Lemma ranked_unique (l o1 o2 : list KeyStats) :
  ranked l o1 -> ranked l o2 -> o1 = o2.
Proof.
  intros (_ & S1 & E1) (_ & S2 & E2). apply sorted_stable_unique; try assumption.
  intro k. rewrite E1, E2. reflexivity.
Qed.

(** C4, as the code has it. The weak keys sent with a lesson request are
    the characters of the heatmap entries with more than 5 attempts and an
    error rate above one in ten, in the order in which the heatmap
    enumerates its entries; none of them has total 0.  The order descending
    by errors / (total || 1) is the order of the sidebar display: the
    entries of the heatmap have one ranking by that rate (entries of equal
    rate staying in the order of the heatmap), and the display shows
    exactly the entries with at least one error among the first three of
    the ranking, in that order.  It shows at most three entries; on a
    heatmap built by recorded attempts each entry shown is an entry of the
    heatmap and none has total 0. *)
Theorem weak_keys_as_coded (attempts : list (option string * bool)) :
  let h := recordAll attempts in
  lessonWeakKeys h = map char (filter weak (Obj.values h)) /\
  Forall (fun k => total k <> 0) (filter weak (Obj.values h)) /\
  (exists order, ranked (Obj.values h) order) /\
  (forall order, ranked (Obj.values h) order ->
     weakKeysDisplay h = filter (fun k => 0 <? errors k) (firstn 3 order)) /\
  StronglySorted rate_ge (weakKeysDisplay h) /\
  (List.length (weakKeysDisplay h) <= 3)%nat /\
  Forall (fun k => 0 < errors k /\ total k <> 0 /\ In k (Obj.values h))
         (weakKeysDisplay h).
Proof.
  intro h. repeat split.
  - unfold lessonWeakKeys. f_equal. apply filter_ext. intro k.
    apply lesson_filter_weak.
  - apply Forall_forall. intros k Hk. apply filter_In in Hk as [_ Hk].
    unfold weak in Hk. apply andb_prop in Hk as [Hk _].
    apply Z.ltb_lt in Hk. lia.
  - exists (sort (Obj.values h)). apply sort_ranked.
  - intros order R.
    rewrite (ranked_unique _ _ _ R (sort_ranked (Obj.values h))).
    unfold weakKeysDisplay. apply filter_ext. intro k. apply Z.gtb_ltb.
  - unfold weakKeysDisplay. apply sorted_filter, sorted_firstn, sort_sorted.
  - unfold weakKeysDisplay.
    pose proof (filter_length_le (fun k => errors k >? 0)
                  (firstn 3 (sort (Obj.values h)))) as L.
    pose proof (firstn_le_length 3 (sort (Obj.values h))). lia.
  - apply Forall_forall. intros k Hk. unfold weakKeysDisplay in Hk.
    apply filter_In in Hk as [Hin He].
    assert (Hv : In k (Obj.values h)).
    { apply sort_In.
      rewrite <- (firstn_skipn 3 (sort (Obj.values h))).
      apply in_or_app. left. exact Hin. }
    pose proof (recordAll_sane attempts) as S. rewrite Forall_forall in S.
    specialize (S k Hv). unfold sane in S. apply Z.gtb_lt in He.
    repeat split; [lia | lia | exact Hv].
Qed.

End WeakKeysFacts.

(** ** The falling-word game *)

Module RainGameFacts.
Import RainGame.

Ltac game_cells :=
  lazy beta iota zeta delta
    [onGameEnd spawnWord setWords setCurrentInput setScore setLives setLevel
     setLastSpawnTime setSpawnRate setPendingSpawns setSpawnCalls setGameEnds
     words currentInput score lives level lastSpawnTime spawnRate spawnCalls
     pendingSpawns gameEnds] in *.

(** *** The spawn interval *)

Lemma updateGame_spawn (time : Q) (s : State) :
  spawnCalls (updateGame time s) =
    (spawnCalls s + (if spawns_now time s then 1 else 0))%nat /\
  spawnRate (updateGame time s) =
    (if spawns_now time s && (spawnRate s >? 800)
     then spawnRate s - 10 else spawnRate s).
Proof.
  unfold updateGame, spawns_now, spawn_due.
  destruct (Z.leb_spec (lives s) 0) as [L|L].
  - replace (0 <? lives s) with false by (symmetry; apply Z.ltb_ge; exact L).
    cbn [andb]. split; [lia | reflexivity].
  - replace (0 <? lives s) with true by (symmetry; apply Z.ltb_lt; exact L).
    cbn [andb].
    destruct s as [ws ci sc lv lvl lst sr scs ps ge]. game_cells.
    repeat (match goal with
            | |- context [negb ?c] => destruct c; cbn [negb]
            | |- context [if ?a >? ?b then _ else _] => destruct (a >? b)
            | |- context [if ?a <=? ?b then _ else _] => destruct (a <=? b)
            | |- context [fold_left advance ?l ?a] =>
                destruct (fold_left advance l a) as [nw ll]
            end; game_cells; cbn [andb]).
    all: split; first [lia | reflexivity].
Qed.

Lemma step_interval (e : Event) (s : State) :
  spawnRate s = interval_after (spawnCalls s) ->
  spawnRate (step s e) = interval_after (spawnCalls (step s e)).
Proof.
  unfold interval_after. intro H. destruct e as [time|key|i p now rnd]; cbn [step].
  - destruct (updateGame_spawn time s) as [-> ->].
    destruct (spawns_now time s); cbn [andb].
    + destruct (Z.gtb_spec (spawnRate s) 800); lia.
    + rewrite Nat.add_0_r. exact H.
  - unfold handleKeyDown.
    repeat match goal with
           | |- context [if ?c then _ else _] => destruct c
           | |- context [match ?c with Some _ => _ | None => _ end] => destruct c
           end; destruct s; game_cells; exact H.
  - unfold spawnWord_resume.
    destruct (nth_error (pendingSpawns s) i); [|exact H].
    destruct (Services.generateGameWords 1 p); destruct s; game_cells; exact H.
Qed.

Lemma run_interval (evs : list Event) :
  forall s, spawnRate s = interval_after (spawnCalls s) ->
            spawnRate (run s evs) = interval_after (spawnCalls (run s evs)).
Proof.
  induction evs as [|e evs IH]; intros s H; cbn [run fold_left]; [exact H|].
  apply IH, step_interval, H.
Qed.

(** C7. The spawn interval starts at 2000; a frame that spawns a word
    lowers it by 10 while it is above 800 and leaves it alone otherwise.
    After any events of a game it equals max(800, 2000 - 10 * spawns), so it
    is never below 800, and from 130 spawns on (indeed from 120) it is
    exactly 800. *)
Theorem spawn_interval_floor :
  spawnRate initial = 2000 /\
  (forall time s,
     spawnCalls (updateGame time s) =
       (spawnCalls s + (if spawns_now time s then 1 else 0))%nat /\
     spawnRate (updateGame time s) =
       (if spawns_now time s && (spawnRate s >? 800)
        then spawnRate s - 10 else spawnRate s)) /\
  (forall evs,
     let s := run initial evs in
     spawnRate s = interval_after (spawnCalls s) /\ 800 <= spawnRate s) /\
  (forall k, interval_after (130 + k) = 800) /\
  (forall n, 800 <= interval_after n).
Proof.
  split; [reflexivity|]. split; [exact updateGame_spawn|].
  split; [|split].
  - intros evs s. assert (H : spawnRate s = interval_after (spawnCalls s))
      by (apply run_interval; reflexivity).
    split; [exact H|]. rewrite H. unfold interval_after. lia.
  - intro k. unfold interval_after. lia.
  - intro n. unfold interval_after. lia.
Qed.

(** *** One frame *)

(** The [forEach] keeps, moved, the words that do not fall out, in their
    order, and counts the others. *)
Lemma advance_all (l : list Word.WordEntity) :
  forall acc n,
    fold_left advance l (acc, n) =
    (acc ++ map moved (filter (fun w => negb (falls_out w)) l),
     n + Z.of_nat (List.length (filter falls_out l))).
Proof.
  induction l as [|w l IH]; intros acc n; cbn [fold_left filter map].
  - rewrite app_nil_r. f_equal. cbn. lia.
  - unfold advance at 2. cbn [fst snd]. fold (falls_out w).
    destruct (falls_out w); cbn [negb]; rewrite IH.
    + f_equal. cbn [List.length]. lia.
    + cbn [map]. rewrite <- app_assoc. reflexivity.
Qed.

Lemma updateGame_frame (time : Q) (s : State) :
  0 < lives s ->
  let lost := Z.of_nat (List.length (filter falls_out (words s))) in
  let s' := updateGame time s in
  words s' = map moved (filter (fun w => negb (falls_out w)) (words s)) /\
  lives s' = lives s - lost /\
  gameEnds s' = (if lives s - lost <=? 0 then gameEnds s ++ [score s] else gameEnds s) /\
  score s' = score s.
Proof.
  intros L lost s'. subst s' lost. unfold updateGame.
  destruct s as [ws ci sc lv lvl lst sr scs ps ge]. game_cells.
  replace (lv <=? 0) with false by (symmetry; apply Z.leb_gt; exact L).
  assert (N : 0 <= Z.of_nat (List.length (filter falls_out ws))) by lia.
  set (lost := Z.of_nat (List.length (filter falls_out ws))) in *.
  destruct (negb _); [destruct (sr >? 800)|]; game_cells;
    rewrite advance_all; cbn [app]; rewrite Z.add_0_l; fold lost;
    (destruct (Z.gtb_spec lost 0) as [P|P];
     [ destruct (lv - lost <=? 0); game_cells; auto
     | assert (lost = 0) as -> by lia; rewrite Z.sub_0_r;
       replace (lv <=? 0) with false by (symmetry; apply Z.leb_gt; exact L);
       game_cells; auto ]).
Qed.

Lemma step_end_reported_once (e : Event) (s : State) :
  end_reported_once s -> end_reported_once (step s e).
Proof.
  unfold end_reported_once. intros [[L G]|[L G]].
  - destruct e as [time|key|i p now rnd]; cbn [step].
    + destruct (updateGame_frame time s L) as (_ & V & E & C).
      rewrite V, E, C, G.
      destruct (Z.leb_spec (lives s - Z.of_nat (List.length (filter falls_out (words s)))) 0);
        [right | left]; split; auto.
    + left. unfold handleKeyDown.
      repeat match goal with
             | |- context [if ?c then _ else _] => destruct c
             | |- context [match ?c with Some _ => _ | None => _ end] => destruct c
             end; destruct s; game_cells; auto.
    + left. unfold spawnWord_resume.
      destruct (nth_error (pendingSpawns s) i); [|auto].
      destruct (Services.generateGameWords 1 p); destruct s; game_cells; auto.
  - right. destruct e as [time|key|i p now rnd]; cbn [step].
    + unfold updateGame.
      replace (lives s <=? 0) with true by (symmetry; apply Z.leb_le; exact L). auto.
    + unfold handleKeyDown.
      replace (lives s <=? 0) with true by (symmetry; apply Z.leb_le; exact L). auto.
    + unfold spawnWord_resume.
      destruct (nth_error (pendingSpawns s) i); [|auto].
      destruct (Services.generateGameWords 1 p); destruct s; game_cells; auto.
Qed.

Lemma run_end_reported_once (evs : list Event) :
  forall s, end_reported_once s -> end_reported_once (run s evs).
Proof.
  induction evs as [|e evs IH]; intros s H; cbn [run fold_left]; [exact H|].
  apply IH, step_end_reported_once, H.
Qed.

(** C5. On a frame of a running game, the active words afterwards are the
    words whose position plus fall speed does not exceed 100, each moved down by
    its fall speed, in their order; the other words are removed and the lives
    decrease by exactly their number; the end of the game is reported on that
    frame, with the score held at it, exactly when the lives are then used
    up.  Over all the events of a game the end is reported exactly once when
    the lives reach zero and not before, and never again. *)
Theorem updateGame_lives_and_end (time : Q) (s : State) :
  0 < lives s ->
  let lost := Z.of_nat (List.length (filter falls_out (words s))) in
  let s' := updateGame time s in
  (words s' = map moved (filter (fun w => negb (falls_out w)) (words s)) /\
   lives s' = lives s - lost /\
   gameEnds s' = (if lives s - lost <=? 0 then gameEnds s ++ [score s] else gameEnds s) /\
   score s' = score s) /\
  (forall w, Word.y (moved w) == Word.y w + Word.speed w /\
             falls_out w = negb (Qle_bool (Word.y w + Word.speed w) 100))%Q /\
  (forall evs, end_reported_once (run initial evs)).
Proof.
  intros L lost s'. split; [apply updateGame_frame, L|].
  split; [intro w; split; reflexivity|].
  intro evs. apply run_end_reported_once. left. split; reflexivity.
Qed.

(** A frame on which one of two words falls out. *)
Lemma updateGame_lives_and_end_witness :
  let near := {| Word.id := 7; Word.text := "star"; Word.x := 20; Word.y := 999 # 10;
                 Word.speed := 1 # 4; Word.typed := "" |} in
  let s := playing [near; word "moon"] "" 0 in
  lives (updateGame 16 s) = 2 /\
  words (updateGame 16 s) = [moved (word "moon")] /\
  gameEnds (updateGame 16 s) = [].
Proof.
  cbv zeta.
  destruct (updateGame_lives_and_end 16
              (playing [ {| Word.id := 7; Word.text := "star"; Word.x := 20;
                            Word.y := 999 # 10; Word.speed := 1 # 4;
                            Word.typed := "" |}; word "moon"] "" 0))
    as ((W & V & G & _) & _).
  - vm_compute; reflexivity.
  - split; [exact V | split; [exact W | exact G]].
Defined.

(** *** Completing a word *)

Lemma one_unit_printable (key : string) :
  Js.len key = 1 ->
  ((Js.len key >? 1) && negb (String.eqb key "Backspace")) = false /\
  String.eqb key "Backspace" = false.
Proof.
  intro H. rewrite H. split; [reflexivity|].
  destruct key as [|a [|b k]]; unfold Js.len in H; cbn [String.length] in H;
    try lia.
  cbn. destruct (Ascii.eqb a "B"); reflexivity.
Qed.

(** Two runs against the reading that every completed text scores and that
    the level follows the hundreds crossed.  Typing the last
    letter of "rocket" at score 60 brings the score to 120, across 100, and
    the level stays 1.  And with "rockets" spawned before "rocket", the
    keystroke that makes the buffer equal to "rocket" removes no word and
    scores nothing: the first word that starts with the buffer is the
    target. *)
Lemma word_completed_counterexample :
  let s := playing [word "rocket"] "rocke" 60 in
  let s' := handleKeyDown "t" s in
  let u := playing [word "rockets"; word "rocket"] "rocke" 0 in
  let u' := handleKeyDown "t" u in
  (score s' = 120 /\ hundreds_crossed (score s) (score s') = 1 /\
   level s' = level s /\ level s' <> level s + hundreds_crossed (score s) (score s')) /\
  (currentInput u' = "rocket" /\ words u' = words u /\ score u' = score u).
Proof. vm_compute. repeat split; discriminate. Qed.

(** C6, as the code has it. On a one-unit key in a running game, let the
    target be the first active word whose text starts with the buffer
    extended by the key.  When the extended buffer equals the text of the
    target, the target is removed from the active words, the score grows by
    ten times the length of the word, the buffer becomes empty, and the
    level grows by one exactly when the score held before the keystroke is a
    positive multiple of 100. *)
Theorem word_completed (key : string) (s : State) (targetIndex : nat)
    (targetWord : Word.WordEntity) :
  0 < lives s ->
  Js.len key = 1 ->
  Js.findIndex (fun w => Js.starts_with (Word.text w) (currentInput s ++ key))
               (words s) = Some targetIndex ->
  nth_error (words s) targetIndex = Some targetWord ->
  Word.text targetWord = (currentInput s ++ key)%string ->
  let s' := handleKeyDown key s in
  words s' = Js.remove_index targetIndex (words s) /\
  score s' = score s + Js.len (Word.text targetWord) * 10 /\
  currentInput s' = "" /\
  level s' = level s + (if (0 <? score s) && (Z.rem (score s) 100 =? 0) then 1 else 0) /\
  lives s' = lives s.
Proof.
  intros L K F N T s'. subst s'. unfold handleKeyDown.
  replace (lives s <=? 0) with false by (symmetry; apply Z.leb_gt; exact L).
  destruct (one_unit_printable key K) as [-> ->].
  rewrite F, N, T, String.eqb_refl.
  replace (score s >? 0) with (0 <? score s) by (symmetry; apply Z.gtb_ltb).
  destruct s as [ws ci sc lv lvl lst sr scs ps ge]. game_cells.
  destruct ((0 <? sc) && (Z.rem sc 100 =? 0)); game_cells;
    repeat split; lia.
Qed.

(** "rocket", alone on the screen, typed letter by letter from score 0:
    the score is 60, no word is left, the buffer is empty. *)
Example rocket_typed :
  let s := run (playing [word "rocket"] "" 0)
             (map KeyDown ["r"; "o"; "c"; "k"; "e"; "t"]) in
  score s = 60 /\ words s = [] /\ currentInput s = "" /\ level s = 1.
Proof. vm_compute. repeat split. Qed.

(** The last keystroke of "rocket". *)
Lemma word_completed_witness :
  let s := playing [word "rocket"] "rocke" 0 in
  words (handleKeyDown "t" s) = [] /\
  score (handleKeyDown "t" s) = 60 /\
  currentInput (handleKeyDown "t" s) = "".
Proof.
  cbv zeta.
  destruct (word_completed "t" (playing [word "rocket"] "rocke" 0) 0 (word "rocket"))
    as (W & S & C & _).
  - vm_compute; reflexivity.
  - vm_compute; reflexivity.
  - vm_compute; reflexivity.
  - vm_compute; reflexivity.
  - vm_compute; reflexivity.
  - split; [exact W | split; [exact S | exact C]].
Defined.

End RainGameFacts.

(* ================================================================== *)
(** * Further properties of the code *)
(* ================================================================== *)

(** ** The statistics: bounds, perfect input, decay *)

Module ScoringMore.
Import Scoring Vocabulary.

Lemma append_unit_assoc (p : string) (a : ascii) (t : string) :
  ((p ++ String a "") ++ t)%string = (p ++ String a t)%string.
Proof. induction p as [|c p IH]; cbn; [reflexivity | rewrite IH; reflexivity]. Qed.

Lemma length_append_unit (p : string) (a : ascii) :
  String.length (p ++ String a "") = S (String.length p).
Proof. induction p as [|c p IH]; cbn; [reflexivity | rewrite IH; reflexivity]. Qed.

Lemma get_after_prefix (p t : string) :
  String.get (String.length p) (p ++ t) = String.get 0 t.
Proof. induction p as [|c p IH]; cbn; [reflexivity | exact IH]. Qed.

Lemma get_past_end (x : string) :
  forall off, (String.length x <= off)%nat -> String.get off x = None.
Proof.
  induction x as [|c x IH]; intros off H; cbn; [destruct off; reflexivity|].
  destruct off as [|off]; cbn in H; [lia|]. apply IH. lia.
Qed.

(** Past the end of the reference every typed unit counts as an error. *)
Lemma reduce_past_end (x : string) :
  forall u off acc,
    (String.length x <= off)%nat ->
    Js.reduce_from (count_error x) (Js.split_chars u) off acc =
    acc + Z.of_nat (String.length u).
Proof.
  induction u as [|b u IH]; intros off acc H; cbn [Js.split_chars Js.reduce_from String.length].
  - lia.
  - rewrite IH by lia. unfold count_error, Js.char_at.
    rewrite (get_past_end x off H). cbn. lia.
Qed.

(** The fold of [currentStats], read along the two strings. *)
Lemma reduce_mismatches :
  forall u t p acc,
    Js.reduce_from (count_error (p ++ t)) (Js.split_chars u) (String.length p) acc =
    acc + Z.of_nat (mismatches t u).
Proof.
  induction u as [|b u IH]; intros t p acc;
    cbn [Js.split_chars Js.reduce_from mismatches].
  - lia.
  - destruct t as [|a t].
    + rewrite reduce_past_end.
      * unfold count_error, Js.char_at. rewrite get_after_prefix. cbn. lia.
      * clear. induction p as [|c p IHp]; cbn; lia.
    + rewrite <- (append_unit_assoc p a t), <- (length_append_unit p a), IH.
      rewrite append_unit_assoc.
      unfold count_error, Js.char_at. rewrite get_after_prefix.
      cbn [String.get Js.strict_eq String.eqb].
      rewrite Ascii.eqb_sym. destruct (Ascii.eqb a b); cbn; lia.
Qed.

Lemma count_errors_mismatches (text userInput : string) :
  count_errors text userInput = Z.of_nat (mismatches text userInput).
Proof.
  unfold count_errors, Js.reduce.
  pose proof (reduce_mismatches userInput text "" 0) as H.
  cbn [append String.length] in H. rewrite H. lia.
Qed.

Lemma mismatches_le (t : string) :
  forall u, (mismatches u t <= String.length t)%nat.
Proof.
  induction t as [|b t IH]; intro u; cbn [mismatches String.length]; [lia|].
  destruct u as [|a u]; [lia|]. specialize (IH u).
  destruct (Ascii.eqb a b); lia.
Qed.

Lemma mismatches_prefix (u : string) :
  forall t, Nat.eqb (mismatches t u) 0 = String.prefix u t.
Proof.
  induction u as [|b u IH]; intro t; cbn [mismatches];
    [destruct t; reflexivity|].
  destruct t as [|a t]; [reflexivity|]. cbn [String.prefix].
  destruct (Ascii.eqb_spec a b) as [->|N].
  - destruct (ascii_dec b b) as [_|F]; [|congruence]. cbn [Nat.add]. apply IH.
  - destruct (ascii_dec b a) as [E|_]; [congruence | reflexivity].
Qed.

Lemma round_between (x : Q) (lo hi : Z) :
  (inject_Z lo <= x)%Q -> (x <= inject_Z hi)%Q -> lo <= Js.round x <= hi.
Proof.
  intros L H. unfold Js.round. split.
  - replace lo with (Qfloor (inject_Z lo)) by apply Qfloor_Z.
    apply Qfloor_resp_le. lra.
  - assert (A : (x + (1 # 2) < inject_Z (hi + 1))%Q).
    { rewrite inject_Z_plus. change (inject_Z 1) with 1%Q. lra. }
    pose proof (Qfloor_le (x + (1 # 2))) as F.
    assert (B : (inject_Z (Qfloor (x + (1 # 2))) < inject_Z (hi + 1))%Q) by lra.
    rewrite <- Zlt_Qlt in B. lia.
Qed.

Lemma elapsed_minutes_pos (startTime : option Z) (now : Z) :
  (0 < elapsed_minutes startTime now)%Q.
Proof.
  unfold elapsed_minutes. apply Q.max_lt_iff. right. reflexivity.
Qed.

Lemma inject_Z_pos (n : Z) : 0 < n -> (0 < inject_Z n)%Q.
Proof. intro H. change 0%Q with (inject_Z 0). rewrite <- Zlt_Qlt. exact H. Qed.

Lemma inject_Z_nonneg (n : Z) : 0 <= n -> (0 <= inject_Z n)%Q.
Proof. intro H. change 0%Q with (inject_Z 0). rewrite <- Zle_Qle. exact H. Qed.

Lemma fraction_bounds (n m : Z) :
  0 < n -> 0 <= m <= n ->
  (0 <= inject_Z (n - m) / inject_Z n * 100 <= 100)%Q.
Proof.
  intros Hn Hm.
  assert (P : (0 < inject_Z n)%Q) by (apply inject_Z_pos; exact Hn).
  assert (A : (0 <= inject_Z (n - m))%Q) by (apply inject_Z_nonneg; lia).
  assert (B : (inject_Z (n - m) <= inject_Z n)%Q) by (rewrite <- Zle_Qle; lia).
  assert (C : (0 <= inject_Z (n - m) / inject_Z n)%Q).
  { apply Qle_shift_div_l; [exact P | lra]. }
  assert (D : (inject_Z (n - m) / inject_Z n <= 1)%Q).
  { apply Qle_shift_div_r; [exact P | lra]. }
  split; lra.
Qed.

(** X1. Whatever the reference, the typed input and the timestamps, the
    statistics are within their ranges: 0 <= mistakes <= charsTyped,
    0 <= accuracy <= 100 and 0 <= wpm. *)
Theorem currentStats_ranges (text userInput : string) (startTime : option Z)
    (isFinished : bool) (now : Z) :
  let s := currentStats text userInput startTime isFinished now in
  0 <= mistakes s <= charsTyped s /\
  0 <= accuracy s <= 100 /\
  0 <= wpm s.
Proof.
  cbv zeta. unfold currentStats. cbn [mistakes charsTyped accuracy wpm].
  rewrite count_errors_mismatches.
  pose proof (mismatches_le userInput text) as M. unfold Js.len.
  set (n := Z.of_nat (String.length userInput)) in *.
  set (m := Z.of_nat (mismatches text userInput)) in *.
  assert (Hm : 0 <= m <= n) by (subst m n; lia).
  split; [exact Hm|]. split.
  - destruct (Z.gtb_spec n 0) as [P|P]; [|lia].
    apply round_between; apply (fraction_bounds n m); lia.
  - pose proof (elapsed_minutes_pos startTime now) as E.
    assert (A : (0 <= inject_Z n / 5 / elapsed_minutes startTime now)%Q).
    { apply Qle_shift_div_l; [exact E|].
      assert (0 <= inject_Z n)%Q by (apply inject_Z_nonneg; lia).
      rewrite Qmult_0_l. apply Qle_shift_div_l; [reflexivity | lra]. }
    unfold Js.round. replace 0 with (Qfloor 0) by reflexivity.
    apply Qfloor_resp_le. lra.
Qed.

(** X2. The mistake count is zero exactly when the typed input is a prefix
    of the reference text. *)
Theorem mistakes_zero_iff_prefix (text userInput : string) (startTime : option Z)
    (isFinished : bool) (now : Z) :
  (mistakes (currentStats text userInput startTime isFinished now) =? 0) =
  String.prefix userInput text.
Proof.
  unfold currentStats. cbn [mistakes].
  rewrite count_errors_mismatches, <- mismatches_prefix.
  destruct (mismatches text userInput); reflexivity.
Qed.

(** X3. When the typed input is a prefix of the reference text the
    accuracy is 100, whatever its length and whatever the clock. *)
Theorem prefix_accuracy (text userInput : string) (startTime : option Z)
    (isFinished : bool) (now : Z) :
  String.prefix userInput text = true ->
  accuracy (currentStats text userInput startTime isFinished now) = 100.
Proof.
  intro H. unfold currentStats. cbn [accuracy].
  rewrite count_errors_mismatches.
  pose proof (mismatches_prefix userInput text) as P.
  assert (Z0 : mismatches text userInput = 0%nat).
  { rewrite H in P. apply Nat.eqb_eq in P. exact P. }
  rewrite Z0. cbn [Z.of_nat].
  destruct (Z.gtb_spec (Js.len userInput) 0) as [L|L]; [|reflexivity].
  rewrite Z.sub_0_r. unfold Js.round.
  assert (E : (inject_Z (Js.len userInput) / inject_Z (Js.len userInput) * 100 + (1 # 2)
               == 201 # 2)%Q).
  { assert (N : ~ (inject_Z (Js.len userInput) == 0)%Q).
    { intro Q0. pose proof (inject_Z_pos _ L). lra. }
    field. exact N. }
  rewrite (Qfloor_comp _ _ E). reflexivity.
Qed.

Lemma prefix_accuracy_witness :
  accuracy (currentStats "neon rain" "neon" (Some 1000) false 4000) = 100.
Proof.
  apply (prefix_accuracy "neon rain" "neon" (Some 1000) false 4000).
  vm_compute; reflexivity.
Defined.

Lemma elapsed_minutes_mono (startTime : option Z) (now1 now2 : Z) :
  now1 <= now2 ->
  (elapsed_minutes startTime now1 <= elapsed_minutes startTime now2)%Q.
Proof.
  intro H. unfold elapsed_minutes.
  assert (A : (inject_Z (now1 - Js.or_num startTime now1) / 60000 <=
               inject_Z (now2 - Js.or_num startTime now2) / 60000)%Q).
  { apply Qmult_le_compat_r; [|discriminate].
    rewrite <- Zle_Qle. unfold Js.or_num.
    destruct startTime as [t|]; [destruct (t =? 0)|]; lia. }
  apply Q.max_le_compat_r. exact A.
Qed.

(** X4. With the typed input fixed, the speed shown does not rise as the
    clock advances. *)
Theorem wpm_decays (text userInput : string) (startTime : option Z)
    (isFinished : bool) (now1 now2 : Z) :
  now1 <= now2 ->
  wpm (currentStats text userInput startTime isFinished now2) <=
  wpm (currentStats text userInput startTime isFinished now1).
Proof.
  intro H. unfold currentStats. cbn [wpm]. unfold Js.round.
  apply Qfloor_resp_le.
  pose proof (elapsed_minutes_mono startTime now1 now2 H) as M.
  pose proof (elapsed_minutes_pos startTime now1) as P1.
  pose proof (elapsed_minutes_pos startTime now2) as P2.
  set (m1 := elapsed_minutes startTime now1) in *.
  set (m2 := elapsed_minutes startTime now2) in *.
  set (c := (inject_Z (Js.len userInput) / 5)%Q).
  assert (C : (0 <= c)%Q).
  { subst c. apply Qle_shift_div_l; [reflexivity|].
    rewrite Qmult_0_l. apply inject_Z_nonneg. unfold Js.len. lia. }
  assert (D : (c / m2 <= c / m1)%Q).
  { apply Qle_shift_div_r; [exact P2|].
    assert (Z1 : (0 <= c / m1)%Q).
    { apply Qle_shift_div_l; [exact P1 | lra]. }
    assert (E : (c / m1 * m1 == c)%Q) by (field; lra).
    assert (F : (c / m1 * m1 <= c / m1 * m2)%Q).
    { rewrite !(Qmult_comm (c / m1)). apply Qmult_le_compat_r; assumption. }
    lra. }
  lra.
Qed.

Lemma wpm_decays_witness :
  wpm (currentStats "neon rain" "neon" (Some 1000) false 9000) <=
  wpm (currentStats "neon rain" "neon" (Some 1000) false 4000).
Proof. apply (wpm_decays "neon rain" "neon" (Some 1000) false 4000 9000). lia. Defined.

Lemma wpm_floor_aux (text userInput : string) (startTime : option Z)
    (isFinished : bool) (now : Z) :
  spec_elapsed_ms startTime now <= 60 ->
  wpm (currentStats text userInput startTime isFinished now) = 200 * Js.len userInput.
Proof.
  intro H. unfold currentStats. cbn [wpm]. unfold elapsed_minutes, Js.round.
  rewrite ScoringFacts.elapsed_ms_eq.
  set (e := spec_elapsed_ms startTime now) in *.
  assert (M : (Qmax (inject_Z e / 60000) (1 # 1000) == 1 # 1000)%Q).
  { apply Q.max_r. apply Qle_shift_div_r; [reflexivity|].
    assert (inject_Z e <= inject_Z 60)%Q by (rewrite <- Zle_Qle; exact H).
    change (inject_Z 60) with 60%Q in *. lra. }
  assert (E : (inject_Z (Js.len userInput) / 5 / Qmax (inject_Z e / 60000) (1 # 1000)
               + (1 # 2) == inject_Z (200 * Js.len userInput) + (1 # 2))%Q).
  { rewrite M, inject_Z_mult. change (inject_Z 200) with 200%Q. field. }
  rewrite (Qfloor_comp _ _ E).
  pose proof (round_between (inject_Z (200 * Js.len userInput))
                (200 * Js.len userInput) (200 * Js.len userInput)) as R.
  unfold Js.round in R. specialize (R (Qle_refl _) (Qle_refl _)). lia.
Qed.

(** X5. While no more than 60 ms have passed since the start, and while
    the start timestamp is unset, the floor on the elapsed time decides:
    the speed shown is 200 times the number of typed units. *)
Theorem wpm_at_the_floor (text userInput : string) (startTime : option Z)
    (isFinished : bool) (now : Z) :
  spec_elapsed_ms startTime now <= 60 ->
  wpm (currentStats text userInput startTime isFinished now) = 200 * Js.len userInput.
Proof. apply wpm_floor_aux. Qed.

Lemma wpm_at_the_floor_witness :
  wpm (currentStats "neon rain" "n" (Some 1000) false 1000) = 200.
Proof.
  apply (wpm_at_the_floor "neon rain" "n" (Some 1000) false 1000).
  vm_compute. discriminate.
Defined.

End ScoringMore.

(** ** The text area against the statistics *)

Module TypingAreaFacts.
Import Scoring Vocabulary TypingArea.

Lemma length_append (p u : string) :
  String.length (p ++ u) = (String.length p + String.length u)%nat.
Proof. induction p as [|c p IH]; cbn; [reflexivity | rewrite IH; reflexivity]. Qed.

Lemma length_split_chars (t : string) :
  List.length (Js.split_chars t) = String.length t.
Proof. induction t as [|c t IH]; cbn; [reflexivity | rewrite IH; reflexivity]. Qed.

(** A span at or past the end of the typed input has no colour. *)
Lemma no_red_past_input (x : string) (f : bool) (l : list string) :
  forall i, (String.length x <= i)%nat ->
            filter is_incorrect (mapi_from (renderSpan x f) l i) = [].
Proof.
  induction l as [|c l IH]; intros i H; cbn [mapi_from filter]; [reflexivity|].
  rewrite IH by lia. unfold is_incorrect, renderSpan. cbn [colorClass].
  replace (Nat.ltb i (String.length x)) with false
    by (symmetry; apply Nat.ltb_ge; exact H). reflexivity.
Qed.

Lemma red_spans_within (f : bool) :
  forall t u pu,
    List.length (filter is_incorrect
      (mapi_from (renderSpan (pu ++ u) f) (Js.split_chars t) (String.length pu))) =
    mismatches_within t u.
Proof.
  induction t as [|a t IH]; intros u pu; cbn [Js.split_chars mapi_from filter].
  - destruct u; reflexivity.
  - destruct u as [|b u].
    + assert (H : is_incorrect (renderSpan (pu ++ "") f (String a "")
                                  (String.length pu)) = false).
      { unfold is_incorrect, renderSpan. cbn [colorClass].
        replace (Nat.ltb (String.length pu) (String.length (pu ++ "")))
          with false by (symmetry; apply Nat.ltb_ge; rewrite length_append; cbn; lia).
        reflexivity. }
      rewrite H, no_red_past_input by (rewrite length_append; cbn; lia).
      reflexivity.
    + cbn [mismatches_within].
      assert (R : List.length (filter is_incorrect
                    (mapi_from (renderSpan (pu ++ String b u) f)
                       (Js.split_chars t) (S (String.length pu)))) =
                  mismatches_within t u).
      { rewrite <- (ScoringMore.append_unit_assoc pu b u),
                <- (ScoringMore.length_append_unit pu b). apply IH. }
      assert (H : is_incorrect (renderSpan (pu ++ String b u) f (String a "")
                                  (String.length pu)) = negb (Ascii.eqb a b)).
      { unfold is_incorrect, renderSpan. cbn [colorClass].
        replace (Nat.ltb (String.length pu) (String.length (pu ++ String b u)))
          with true by (symmetry; apply Nat.ltb_lt; rewrite length_append; cbn; lia).
        unfold Js.char_at. rewrite ScoringMore.get_after_prefix.
        cbn [String.get Js.strict_eq String.eqb].
        destruct (Ascii.eqb a b); reflexivity. }
      rewrite H. destruct (Ascii.eqb a b); cbn [negb List.length]; rewrite R; lia.
Qed.

Lemma mismatches_split (u : string) :
  forall t,
    mismatches t u =
    (mismatches_within t u + (String.length u - String.length t))%nat.
Proof.
  induction u as [|b u IH]; intro t; cbn [mismatches mismatches_within String.length].
  - destruct t; reflexivity.
  - destruct t as [|a t]; cbn [String.length]; [lia|]. rewrite IH. lia.
Qed.

(** X6. The mistakes counted by the statistics are the spans the text area
    shows in red, plus the units typed past the end of the reference, which
    the text area has no span for.  While the typed input is no longer than
    the reference the two numbers agree. *)
Theorem mistakes_are_red_spans (text userInput : string) (startTime : option Z)
    (isFinished isFocused : bool) (now : Z) :
  mistakes (currentStats text userInput startTime isFinished now) =
  redCount text userInput isFocused +
  Z.max 0 (Js.len userInput - Js.len text).
Proof.
  unfold currentStats, redCount, spans, mapi. cbn [mistakes].
  rewrite ScoringMore.count_errors_mismatches, mismatches_split.
  pose proof (red_spans_within isFocused text userInput "") as R.
  cbn [append String.length] in R. rewrite R. unfold Js.len. lia.
Qed.

Lemma cursor_spans (x : string) (f : bool) (l : list string) :
  forall i,
    List.length (filter isCursor (mapi_from (renderSpan x f) l i)) =
    if f && Nat.leb i (String.length x) && Nat.ltb (String.length x) (i + List.length l)
    then 1%nat else 0%nat.
Proof.
  induction l as [|c l IH]; intro i; cbn [mapi_from filter List.length].
  - destruct (Nat.leb_spec i (String.length x)) as [L|L].
    + replace (Nat.ltb (String.length x) (i + 0)) with false
        by (symmetry; apply Nat.ltb_ge; lia).
      rewrite andb_false_r. reflexivity.
    + rewrite andb_false_r. reflexivity.
  - assert (H : isCursor (renderSpan x f c i) = Nat.eqb i (String.length x) && f)
      by reflexivity.
    rewrite H. clear H.
    destruct f; cbn [andb];
      [|rewrite andb_false_r; cbn [List.length]; rewrite IH; reflexivity].
    rewrite andb_true_r.
    destruct (Nat.eqb_spec i (String.length x)) as [E|E]; cbn [List.length];
      rewrite IH; cbn [andb].
    + replace (Nat.leb (S i) (String.length x)) with false
        by (symmetry; apply Nat.leb_gt; lia).
      replace (Nat.leb i (String.length x)) with true
        by (symmetry; apply Nat.leb_le; lia).
      replace (Nat.ltb (String.length x) (i + S (List.length l))) with true
        by (symmetry; apply Nat.ltb_lt; lia).
      reflexivity.
    + destruct (Nat.leb_spec (S i) (String.length x)) as [L|L].
      * replace (Nat.leb i (String.length x)) with true
          by (symmetry; apply Nat.leb_le; lia).
        replace (i + S (List.length l))%nat with (S i + List.length l)%nat by lia.
        reflexivity.
      * replace (Nat.leb i (String.length x)) with false
          by (symmetry; apply Nat.leb_gt; lia).
        reflexivity.
Qed.

(** X7. The text area shows exactly one cursor when it has the focus and
    the typed input is shorter than the reference, and none otherwise: once
    the text is completed, or overrun, no span carries the cursor. *)
Theorem one_cursor (fullText userInput : string) (isFocused : bool) :
  cursorCount fullText userInput isFocused =
  if isFocused && Nat.ltb (String.length userInput) (String.length fullText)
  then 1%nat else 0%nat.
Proof.
  unfold cursorCount, spans, mapi. rewrite cursor_spans, length_split_chars.
  cbn [Nat.leb Nat.add]. rewrite andb_true_r. reflexivity.
Qed.

End TypingAreaFacts.

(** ** The heatmap: keys, totals, and the keyboard *)

Module HeatmapMore.
Import Heatmap Vocabulary.

Lemma lower_ascii_idem (c : ascii) :
  Js.lower_ascii (Js.lower_ascii c) = Js.lower_ascii c.
Proof. destruct c as [[] [] [] [] [] [] [] []]; vm_compute; reflexivity. Qed.

Lemma toLowerCase_idem (s : string) : Js.toLowerCase (Js.toLowerCase s) = Js.toLowerCase s.
Proof.
  induction s as [|c s IH]; cbn [Js.toLowerCase]; [reflexivity|].
  rewrite lower_ascii_idem, IH. reflexivity.
Qed.

Section Keys.
Context {V : Type}.

Lemma get_None_keys (o : Obj.t V) (k : string) :
  Obj.get o k = None <-> ~ In k (Obj.keys o).
Proof.
  unfold Obj.keys. induction o as [|[k0 v0] o IH]; cbn [Obj.get map fst In].
  - tauto.
  - destruct (String.eqb_spec k k0) as [->|N].
    + split; [discriminate | intro H; exfalso; apply H; left; reflexivity].
    + rewrite IH. split; [intros H [E|I]; [congruence | tauto] | tauto].
Qed.

Lemma get_In (o : Obj.t V) (k : string) (v : V) :
  Obj.get o k = Some v -> In (k, v) o.
Proof.
  induction o as [|[k0 v0] o IH]; cbn [Obj.get In]; [discriminate|].
  destruct (String.eqb_spec k k0) as [->|N].
  - intro H. injection H as ->. left; reflexivity.
  - intro H. right. apply IH, H.
Qed.

Lemma In_get (o : Obj.t V) (k : string) (v : V) :
  NoDup (Obj.keys o) -> In (k, v) o -> Obj.get o k = Some v.
Proof.
  unfold Obj.keys. induction o as [|[k0 v0] o IH]; cbn [Obj.get In map fst];
    intros N H; [contradiction|].
  inversion N as [|? ? Hn Hd]; subst. destruct H as [E|H].
  - injection E as -> ->. rewrite String.eqb_refl. reflexivity.
  - destruct (String.eqb_spec k k0) as [->|_]; [|apply IH; assumption].
    exfalso. apply Hn. apply (in_map fst) in H. exact H.
Qed.

Lemma keys_replace (o : Obj.t V) (k : string) (v : V) :
  Obj.keys (Obj.replace o k v) = Obj.keys o.
Proof.
  unfold Obj.keys. induction o as [|[k0 v0] o IH]; cbn [Obj.replace map]; [reflexivity|].
  destruct (String.eqb k k0); cbn [map fst]; [reflexivity | rewrite IH; reflexivity].
Qed.

Lemma keys_insert_index (o : Obj.t V) (n : N) (k : string) (v : V) :
  Permutation (k :: Obj.keys o) (Obj.keys (Obj.insert_index o n k v)).
Proof.
  unfold Obj.keys. induction o as [|[k0 v0] o IH]; cbn [Obj.insert_index map fst];
    [reflexivity|].
  destruct (Obj.array_index k0) as [m|]; [destruct (n <? m)%N|];
    cbn [map fst]; try reflexivity.
  rewrite perm_swap. constructor. exact IH.
Qed.

Lemma NoDup_set (o : Obj.t V) (k : string) (v : V) :
  NoDup (Obj.keys o) -> NoDup (Obj.keys (Obj.set o k v)).
Proof.
  intro N. unfold Obj.set. destruct (Obj.get o k) eqn:E.
  - rewrite keys_replace. exact N.
  - apply get_None_keys in E.
    assert (N' : NoDup (k :: Obj.keys o)) by (constructor; assumption).
    destruct (Obj.array_index k).
    + eapply Permutation_NoDup; [apply keys_insert_index | exact N'].
    + unfold Obj.keys in *. rewrite map_app. cbn [map fst].
      eapply Permutation_NoDup; [|exact N'].
      apply Permutation_cons_append.
Qed.

End Keys.

Section Pairs.
Context {V : Type} (Q : string * V -> Prop).

Lemma Forall_pairs_replace (o : Obj.t V) (k : string) (v : V) :
  Forall Q o -> Q (k, v) -> Forall Q (Obj.replace o k v).
Proof.
  induction o as [|[k0 v0] o IH]; cbn [Obj.replace]; intros Ho Hv; [constructor|].
  inversion Ho; subst.
  destruct (String.eqb_spec k k0) as [->|_]; constructor; auto.
Qed.

Lemma Forall_pairs_insert_index (o : Obj.t V) (n : N) (k : string) (v : V) :
  Forall Q o -> Q (k, v) -> Forall Q (Obj.insert_index o n k v).
Proof.
  induction o as [|[k0 v0] o IH]; cbn [Obj.insert_index]; intros Ho Hv;
    [repeat constructor; exact Hv|].
  inversion Ho; subst.
  destruct (Obj.array_index k0) as [m|]; [destruct (n <? m)%N|];
    repeat constructor; auto.
Qed.

Lemma Forall_pairs_set (o : Obj.t V) (k : string) (v : V) :
  Forall Q o -> Q (k, v) -> Forall Q (Obj.set o k v).
Proof.
  intros Ho Hv. unfold Obj.set.
  destruct (Obj.get o k); [apply Forall_pairs_replace; assumption|].
  destruct (Obj.array_index k); [apply Forall_pairs_insert_index; assumption|].
  apply Forall_app. split; [exact Ho | repeat constructor; exact Hv].
Qed.

End Pairs.

(** The key of an attempt is its own lower case. *)
Lemma charKey_lower (e : option string) :
  let charKey := Js.or_str (option_map Js.toLowerCase e) "" in
  Js.toLowerCase charKey = charKey.
Proof.
  cbv zeta. destruct e as [x|]; cbn [option_map Js.or_str]; [|reflexivity].
  destruct (Js.toLowerCase x) as [|c r] eqn:L; [reflexivity|].
  rewrite <- L. apply toLowerCase_idem.
Qed.

(** One recorded attempt keeps every entry under its own lower-case key,
    and the keys distinct. *)
Lemma recordAttempt_well_keyed (prev : Heatmap.t) (e : option string) (b : bool) :
  Forall well_keyed prev /\ NoDup (Obj.keys prev) ->
  Forall well_keyed (recordAttempt prev e b) /\
  NoDup (Obj.keys (recordAttempt prev e b)).
Proof.
  intros [W N]. unfold recordAttempt.
  pose proof (charKey_lower e) as K. cbv zeta in K.
  set (key := Js.or_str (option_map Js.toLowerCase e) "") in *.
  destruct (String.eqb key ""); [split; assumption|].
  split; [|apply NoDup_set, N].
  apply Forall_pairs_set; [exact W|].
  unfold well_keyed. cbn [fst snd char total].
  assert (T : 0 <= total match Obj.get prev key with
                         | Some k => k
                         | None => {| char := key; total := 0; errors := 0 |}
                         end).
  { destruct (Obj.get prev key) as [k|] eqn:G; [|cbn; lia].
    apply get_In in G. rewrite Forall_forall in W. specialize (W _ G).
    unfold well_keyed in W. cbn [fst snd] in W. lia. }
  assert (C : char match Obj.get prev key with
                   | Some k => k
                   | None => {| char := key; total := 0; errors := 0 |}
                   end = key).
  { destruct (Obj.get prev key) as [k|] eqn:G; [|reflexivity].
    apply get_In in G. rewrite Forall_forall in W. specialize (W _ G).
    unfold well_keyed in W. cbn [fst snd] in W. tauto. }
  split; [exact C|]. split; [exact K | lia].
Qed.

Lemma run_well_keyed (evs : list (Z * App.Event)) :
  forall s,
    Forall well_keyed (App.keyStats s) /\ NoDup (Obj.keys (App.keyStats s)) ->
    Forall well_keyed (App.keyStats (App.run s evs)) /\
    NoDup (Obj.keys (App.keyStats (App.run s evs))).
Proof.
  induction evs as [|[now e] evs IH]; intros s H; cbn [App.run fold_left]; [exact H|].
  apply IH. unfold App.step. cbn [fst snd]. rewrite HeatmapFacts.render_keyStats.
  destruct (HeatmapFacts.handle_keyStats now e s) as [->|(ex & b & ->)];
    [exact H | apply recordAttempt_well_keyed, H].
Qed.

Lemma initial_well_keyed :
  Forall well_keyed (App.keyStats App.initial) /\
  NoDup (Obj.keys (App.keyStats App.initial)).
Proof. split; constructor. Qed.

Lemma heatmap_well_keyed_aux (evs : list (Z * App.Event)) :
  Forall well_keyed (App.keyStats (App.run App.initial evs)) /\
  NoDup (Obj.keys (App.keyStats (App.run App.initial evs))).
Proof. apply run_well_keyed, initial_well_keyed. Qed.

(** X8. Whatever events the application has handled, every entry of the
    heatmap sits under its own character, which lower-casing leaves as it
    is, no character has two entries, and every entry has at least one
    attempt: the rates [errors / total] the filters and the keyboard compute
    are never a division by zero. *)
Theorem heatmap_well_keyed (evs : list (Z * App.Event)) :
  let h := App.keyStats (App.run App.initial evs) in
  Forall well_keyed h /\ NoDup (Obj.keys h).
Proof. apply run_well_keyed, initial_well_keyed. Qed.

End HeatmapMore.

(** ** The heatmap: nothing recorded is lost *)

Module HeatmapTotals.
Import Heatmap Vocabulary.

Section Sums.
Variable f : KeyStats -> Z.

Lemma sum_replace (o : Heatmap.t) (k : string) (v old : KeyStats) :
  Obj.get o k = Some old ->
  sum_by f (Obj.replace o k v) = sum_by f o - f old + f v.
Proof.
  unfold sum_by, Obj.values.
  induction o as [|[k0 v0] o IH]; cbn [Obj.get Obj.replace map snd fold_right];
    [discriminate|].
  destruct (String.eqb k k0); cbn [map snd fold_right].
  - intro H. injection H as ->. lia.
  - intro H. rewrite (IH H). lia.
Qed.

Lemma sum_insert_index (o : Heatmap.t) (n : N) (k : string) (v : KeyStats) :
  sum_by f (Obj.insert_index o n k v) = sum_by f o + f v.
Proof.
  unfold sum_by, Obj.values.
  induction o as [|[k0 v0] o IH]; cbn [Obj.insert_index map snd fold_right]; [lia|].
  destruct (Obj.array_index k0) as [m|]; [destruct (n <? m)%N|];
    cbn [map snd fold_right]; lia.
Qed.

Lemma sum_app_new (o : Heatmap.t) (k : string) (v : KeyStats) :
  sum_by f (o ++ [(k, v)]) = sum_by f o + f v.
Proof.
  unfold sum_by, Obj.values.
  induction o as [|[k0 v0] o IH]; cbn [app map snd fold_right]; [lia|].
  rewrite IH. lia.
Qed.

Lemma sum_set (o : Heatmap.t) (k : string) (v : KeyStats) :
  sum_by f (Obj.set o k v) =
  sum_by f o - match Obj.get o k with Some old => f old | None => 0 end + f v.
Proof.
  unfold Obj.set. destruct (Obj.get o k) as [old|] eqn:E.
  - apply sum_replace, E.
  - destruct (Obj.array_index k); [rewrite sum_insert_index | rewrite sum_app_new]; lia.
Qed.

End Sums.

Lemma toLowerCase_empty (e : string) :
  String.eqb (Js.toLowerCase e) "" = String.eqb e "".
Proof. destruct e; reflexivity. Qed.

Lemma or_str_lower (e : string) :
  Js.or_str (option_map Js.toLowerCase (Some e)) "" = Js.toLowerCase e.
Proof. destruct e; reflexivity. Qed.

Lemma recordAttempt_sums (prev : Heatmap.t) (a : option string * bool) :
  sum_total (recordAttempt prev (fst a) (snd a)) =
    sum_total prev + (if recorded a then 1 else 0) /\
  sum_errors (recordAttempt prev (fst a) (snd a)) =
    sum_errors prev + (if failed a then 1 else 0).
Proof.
  destruct a as [[e|] b]; unfold failed, recorded; cbn [fst snd];
    [|unfold recordAttempt; cbn [option_map Js.or_str String.eqb andb];
      split; lia].
  unfold recordAttempt. rewrite or_str_lower, toLowerCase_empty.
  destruct (String.eqb e ""); cbn [negb andb]; [split; lia|].
  unfold sum_total, sum_errors.
  rewrite !sum_set. cbn [total errors].
  destruct (Obj.get prev (Js.toLowerCase e)); cbn [total errors];
    destruct b; cbn [negb]; split; lia.
Qed.

Lemma fold_record_sums (attempts : list (option string * bool)) :
  forall h,
    let h' := fold_left (fun h a => recordAttempt h (fst a) (snd a)) attempts h in
    sum_total h' = sum_total h + Z.of_nat (List.length (filter recorded attempts)) /\
    sum_errors h' = sum_errors h + Z.of_nat (List.length (filter failed attempts)).
Proof.
  induction attempts as [|a l IH]; intro h; cbn [fold_left filter List.length].
  - cbn. lia.
  - destruct (IH (recordAttempt h (fst a) (snd a))) as [T E].
    destruct (recordAttempt_sums h a) as [T1 E1].
    cbv zeta in *. rewrite T, E, T1, E1.
    destruct (recorded a), (failed a); cbn [List.length]; lia.
Qed.

(** X9. The heatmap loses nothing and invents nothing: after any list of
    attempts the totals of its entries add up to the number of attempts that
    had an expected character, and the errors add up to the number of those
    that were not correct. *)
Theorem heatmap_counts_every_attempt (attempts : list (option string * bool)) :
  sum_total (recordAll attempts) = Z.of_nat (List.length (filter recorded attempts)) /\
  sum_errors (recordAll attempts) = Z.of_nat (List.length (filter failed attempts)).
Proof.
  unfold recordAll. destruct (fold_record_sums attempts Obj.empty) as [T E].
  cbv zeta in *. rewrite T, E. cbn. lia.
Qed.

End HeatmapTotals.

(** ** The keyboard *)

Module KeyboardFacts.
Import Heatmap Vocabulary VirtualKeyboard.

Lemma ratio_gt (e t : Z) (a b : positive) :
  0 < t -> Js.gt (ratio e t) (Z.pos a # b) = (Z.pos a * t <? Z.pos b * e).
Proof.
  intro Ht. destruct t as [|p|p]; try lia.
  unfold ratio, Js.div.
  change (Qeq_bool (inject_Z (Z.pos p)) 0) with false. cbv iota. unfold Js.gt.
  assert (Q : (inject_Z e / inject_Z (Z.pos p) <= Z.pos a # b)%Q <->
              Z.pos b * e <= Z.pos a * Z.pos p).
  { unfold Qle. cbn [Qnum Qden Qdiv Qmult Qinv inject_Z]. lia. }
  destruct (Z.ltb_spec (Z.pos a * Z.pos p) (Z.pos b * e)) as [W|W].
  - apply negb_true_iff. destruct (Qle_bool _ _) eqn:B; [|reflexivity].
    apply Qle_bool_iff, Q in B. lia.
  - apply negb_false_iff. apply Qle_bool_iff, Q. exact W.
Qed.

(** X11. On the heatmap the application has built, the colour of a key that
    is not the one to press next is decided by the two counters of its
    entry: red when errors exceed a fifth of the attempts, orange when they
    exceed a tenth, and the base colour otherwise and for a key never
    attempted.  The guard [total > 0] of the source never fires. *)
Theorem key_colour_by_counters (evs : list (Z * App.Event)) (activeKey : option string)
    (keyLabel : string) :
  let h := App.keyStats (App.run App.initial evs) in
  getKeyColor activeKey h keyLabel =
  if is_active activeKey keyLabel then ActiveColor
  else match Obj.get h (Js.toLowerCase keyLabel) with
       | Some st =>
           if total st <? 5 * errors st then RedColor
           else if total st <? 10 * errors st then OrangeColor
           else BaseColor
       | None => BaseColor
       end.
Proof.
  intro h. unfold getKeyColor.
  destruct (is_active activeKey keyLabel); [reflexivity|].
  destruct (Obj.get h (Js.toLowerCase keyLabel)) as [st|] eqn:G; [|reflexivity].
  destruct (HeatmapMore.heatmap_well_keyed_aux evs) as [W _]. fold h in W.
  apply HeatmapMore.get_In in G. rewrite Forall_forall in W. specialize (W _ G).
  unfold well_keyed in W. cbn [fst snd] in W.
  assert (P : 0 < total st) by lia.
  replace (total st >? 0) with true by (symmetry; apply Z.gtb_lt; exact P).
  rewrite !(ratio_gt _ _ _ _ P).
  replace (2 * total st <? 10 * errors st) with (total st <? 5 * errors st).
  - replace (1 * total st) with (total st) by lia. reflexivity.
  - destruct (Z.ltb_spec (total st) (5 * errors st)),
             (Z.ltb_spec (2 * total st) (10 * errors st)); try reflexivity; lia.
Qed.

(** The keys a lesson request would name, on the application's heatmap, are
    shown in a colour on the keyboard. *)
Lemma weak_key_has_entry (evs : list (Z * App.Event)) (c : string) :
  let h := App.keyStats (App.run App.initial evs) in
  In c (lessonWeakKeys h) ->
  exists st, Obj.get h (Js.toLowerCase c) = Some st /\
             Js.gt (ratio (errors st) (total st)) (1 # 10) = true /\ 5 < total st.
Proof.
  intros h H. unfold lessonWeakKeys in H.
  apply in_map_iff in H as (st & Hc & Hk). apply filter_In in Hk as [Hin Hw].
  apply andb_prop in Hw as [Hr Ht]. unfold Obj.values in Hin.
  apply in_map_iff in Hin as ([k st'] & E & Hin). cbn [snd] in E. subst st'.
  destruct (HeatmapMore.heatmap_well_keyed_aux evs) as [W N]. fold h in W, N.
  pose proof W as W'. rewrite Forall_forall in W'. specialize (W' _ Hin).
  unfold well_keyed in W'. cbn [fst snd] in W'. destruct W' as (C1 & C3 & _).
  exists st. assert (E : k = c) by congruence.
  rewrite E in C3, Hin. rewrite C3.
  split; [apply HeatmapMore.In_get; assumption|].
  split; [exact Hr | apply Z.gtb_lt in Ht; lia].
Qed.

(** X12. A key that the next lesson request would name as a focus key is
    never shown in the base colour on the keyboard: it is red or orange, or
    it is the key to press next. *)
Theorem weak_keys_are_coloured (evs : list (Z * App.Event)) (activeKey : option string)
    (c : string) :
  let h := App.keyStats (App.run App.initial evs) in
  In c (lessonWeakKeys h) ->
  getKeyColor activeKey h c <> BaseColor.
Proof.
  intros h H. destruct (weak_key_has_entry evs c H) as (st & G & R & T).
  fold h in G. unfold getKeyColor. rewrite G.
  destruct (is_active activeKey c); [discriminate|].
  replace (total st >? 0) with true by (symmetry; apply Z.gtb_lt; lia).
  rewrite R. destruct (Js.gt _ (2 # 10)); discriminate.
Qed.

(** Six wrong keystrokes on the first character of the default text, each
    taken back: "w" becomes a focus key and turns red once it is no longer
    the key to press. *)
Lemma weak_keys_are_coloured_witness :
  let evs := flat_map (fun t => [(t, App.KeyDown "x"); (t + 1, App.KeyDown "Backspace")])
               [1000; 2000; 3000; 4000; 5000; 6000] in
  getKeyColor (Some "e") (App.keyStats (App.run App.initial evs)) "w" <> BaseColor.
Proof.
  cbv zeta.
  apply (weak_keys_are_coloured
           (flat_map (fun t => [(t, App.KeyDown "x"); (t + 1, App.KeyDown "Backspace")])
              [1000; 2000; 3000; 4000; 5000; 6000]) (Some "e") "w").
  vm_compute. left. reflexivity.
Defined.

End KeyboardFacts.

(** ** The text services: what a caller can rely on *)

Module ServicesMore.
Import Services Vocabulary.

Lemma trim_end_head_kept (c : ascii) (s : string) :
  Js.trim_end (String c s) = "" \/ exists r, Js.trim_end (String c s) = String c r.
Proof.
  cbn [Js.trim_end]. destruct (Js.trim_end s).
  - destruct (Js.is_space c); eauto.
  - eauto.
Qed.

Lemma trim_end_idem (s : string) : Js.trim_end (Js.trim_end s) = Js.trim_end s.
Proof.
  induction s as [|c s IH]; [reflexivity|]. cbn [Js.trim_end].
  destruct (Js.trim_end s) as [|d r] eqn:E.
  - destruct (Js.is_space c) eqn:Sp; [reflexivity|].
    cbn [Js.trim_end]. rewrite Sp. reflexivity.
  - change (Js.trim_end (String c (String d r))) with
      (match Js.trim_end (String d r) with
       | EmptyString => if Js.is_space c then EmptyString else String c EmptyString
       | rest => String c rest
       end).
    rewrite IH. reflexivity.
Qed.

Lemma trim_start_fixed (s : string) :
  (s = "" \/ exists c r, s = String c r /\ Js.is_space c = false) ->
  Js.trim_start s = s.
Proof.
  intros [->|(c & r & -> & H)]; [reflexivity|]. cbn [Js.trim_start]. rewrite H. reflexivity.
Qed.

(** [trim] of a trimmed string changes nothing. *)
Lemma trim_idem (s : string) : Js.trim (Js.trim s) = Js.trim s.
Proof.
  unfold Js.trim.
  destruct (ServicesFacts.trim_start_shape s) as [[E _]|(c & r & E & Hc)]; rewrite E.
  - reflexivity.
  - rewrite (trim_start_fixed (Js.trim_end (String c r))); [apply trim_end_idem|].
    destruct (trim_end_head_kept c r) as [->|[r' ->]]; [left; reflexivity|].
    right. exists c, r'. split; [reflexivity | exact Hc].
Qed.

Lemma or_str_trimmed (r : option string) (fallback : string) :
  fallback <> "" -> Js.trim fallback = fallback ->
  Js.or_str (option_map Js.trim r) fallback <> "" /\
  Js.trim (Js.or_str (option_map Js.trim r) fallback) =
    Js.or_str (option_map Js.trim r) fallback.
Proof.
  intros N T. destruct r as [t|]; cbn [option_map Js.or_str]; [|split; assumption].
  destruct (Js.trim t) as [|c t'] eqn:E; [split; assumption|].
  split; [discriminate|]. rewrite <- E. apply trim_idem.
Qed.

(** X13. The lesson text and the coach's advice handed to the application
    are never empty and never start or end with whitespace, whatever the
    provider does: the answer is trimmed, and an answer that trims to
    nothing is replaced. *)
Theorem texts_nonempty_and_trimmed (focusKeys : list string) (difficulty topic : string)
    (wpm accuracy : Js.jsnum) (weakKeys : list string) (p : Provider) :
  (exists v, generateLessonContent focusKeys difficulty topic p = Returns v /\
             v <> "" /\ Js.trim v = v) /\
  (exists v, generateTypingAdvice wpm accuracy weakKeys p = Returns v /\
             v <> "" /\ Js.trim v = v).
Proof.
  split; destruct p as [|r]; cbn [generateLessonContent generateTypingAdvice
    generateContent bind try_catch]; eexists; (split; [reflexivity|]).
  - split; [discriminate | vm_compute; reflexivity].
  - apply or_str_trimmed; [discriminate | vm_compute; reflexivity].
  - split; [discriminate | vm_compute; reflexivity].
  - apply or_str_trimmed; [discriminate | vm_compute; reflexivity].
Qed.

Lemma no_space_snoc (cur : string) (c : ascii) :
  no_space (cur ++ String c "") = no_space cur && negb (Js.is_space c).
Proof.
  induction cur as [|d cur IH]; cbn [append no_space].
  - rewrite andb_true_r. reflexivity.
  - rewrite IH, andb_assoc. reflexivity.
Qed.

Lemma split_ws_no_space (s : string) :
  forall cur b, no_space cur = true ->
                Forall (fun w => no_space w = true) (Js.split_ws_from cur b s).
Proof.
  induction s as [|c s IH]; intros cur b H; cbn [Js.split_ws_from].
  - repeat constructor. exact H.
  - destruct (Js.is_space c) eqn:Sp.
    + destruct b; [apply IH, H|]. constructor; [exact H | apply IH; reflexivity].
    + apply IH. rewrite no_space_snoc, H, Sp. reflexivity.
Qed.

Lemma game_words_nonempty_aux (count : Z) (p : Provider) :
  exists ws, generateGameWords count p = Returns ws /\ Forall (fun w => w <> "") ws.
Proof.
  destruct p as [|r]; unfold generateGameWords;
    cbn [generateContent bind try_catch]; eexists; (split; [reflexivity|]).
  - unfold FALLBACK_WORDS. repeat constructor; discriminate.
  - apply ServicesFacts.slice0_incl, ServicesFacts.kept_words_nonempty.
Qed.

(** X14. No word handed to the game contains whitespace, whatever the
    provider answers and whatever count is asked for. *)
Theorem game_words_have_no_space (count : Z) (p : Provider) :
  exists ws, generateGameWords count p = Returns ws /\
             Forall (fun w => no_space w = true) ws.
Proof.
  destruct p as [|r]; unfold generateGameWords;
    cbn [generateContent bind try_catch]; eexists; (split; [reflexivity|]).
  - unfold FALLBACK_WORDS. repeat constructor.
  - apply ServicesFacts.slice0_incl.
    apply Forall_forall. intros w Hw. apply filter_In in Hw as [Hw _].
    pose proof (split_ws_no_space (Js.or_str r "") "" false eq_refl) as F.
    rewrite Forall_forall in F. apply F, Hw.
Qed.

End ServicesMore.

(** ** The session: timer, corrections, length of the input *)

Module AppMore.
Import App Vocabulary.

Lemma render_cells (now : Z) (s : State) :
  userInput (render now s) = userInput s /\ startTime (render now s) = startTime s /\
  isFinished (render now s) = isFinished s /\ text (render now s) = text s /\
  adviceCalls (render now s) = adviceCalls s /\ mode (render now s) = mode s /\
  loading (render now s) = loading s.
Proof.
  unfold render. destruct (statsMemo s) as [[d v]|];
    [destruct (deps_eqb d (deps s))|]; repeat split.
Qed.

Lemma length_drop_last (u : string) :
  (String.length (Js.drop_last u) <= String.length u)%nat.
Proof.
  induction u as [|c u IH]; cbn [Js.drop_last]; [lia|].
  destruct u as [|d u]; cbn [String.length] in *; lia.
Qed.

Lemma drop_last_snoc (u : string) (c : ascii) :
  Js.drop_last (u ++ String c "") = u.
Proof.
  induction u as [|d u IH]; [reflexivity|]. cbn [append].
  destruct (u ++ String c "")%string as [|a r] eqn:E.
  - destruct u; discriminate.
  - change (Js.drop_last (String d (String a r)))
      with (String d (Js.drop_last (String a r))).
    rewrite IH. reflexivity.
Qed.

Lemma one_unit_key (key : string) :
  Js.len key = 1 -> exists c, key = String c "".
Proof.
  destruct key as [|c [|d k]]; unfold Js.len; cbn [String.length]; intro H;
    try lia. eauto.
Qed.

(** What the listener does with a printable key in a running session. *)
Lemma handleKeyDown_printable (key : string) (now : Z) (s : State) :
  GameMode_eqb (mode s) GAME_RAIN = false ->
  isFinished s = false ->
  loading s = false ->
  Js.len key = 1 ->
  let expectedChar := Js.char_at (text s) (String.length (userInput s)) in
  let next := (userInput s ++ key)%string in
  let s2 := setKeyStats
              (Heatmap.recordAttempt (keyStats s) expectedChar (Js.strict_eq key expectedChar))
              (if negb (Js.truthy_num (startTime s)) then setStartTime (Some now) s else s) in
  handleKeyDown key now s =
  setUserInput next
    (if Js.len next =? Js.len (text s) then finishSession next now s s2 else s2).
Proof.
  intros Hmode Hfin Hload Hkey. cbv zeta. unfold handleKeyDown.
  rewrite Hmode, Hfin, Hload. cbn [orb].
  rewrite (AppFacts.one_unit_not_backspace key Hkey).
  replace (Js.len key =? 1) with true by (symmetry; apply Z.eqb_eq; exact Hkey).
  cbn [orb].
  destruct (negb (Js.truthy_num (startTime s))); reflexivity.
Qed.

Lemma handleKeyDown_backspace (now : Z) (s : State) :
  GameMode_eqb (mode s) GAME_RAIN = false ->
  isFinished s = false ->
  loading s = false ->
  handleKeyDown "Backspace" now s =
  setUserInput (Js.drop_last (userInput s))
    (if negb (Js.truthy_num (startTime s)) then setStartTime (Some now) s else s).
Proof.
  intros Hmode Hfin Hload. unfold handleKeyDown.
  rewrite Hmode, Hfin, Hload. reflexivity.
Qed.

(** The listener either ignores the key, or takes it as Backspace, or takes
    it as a printable key. *)
Lemma handleKeyDown_cases (key : string) (now : Z) (s : State) :
  handleKeyDown key now s = s \/
  (GameMode_eqb (mode s) GAME_RAIN = false /\ isFinished s = false /\
   loading s = false /\ (key = "Backspace" \/ Js.len key = 1)).
Proof.
  unfold handleKeyDown.
  destruct (GameMode_eqb (mode s) GAME_RAIN); [left; reflexivity|].
  destruct (isFinished s); [left; reflexivity|].
  destruct (loading s); [left; reflexivity|]. cbn [orb].
  destruct (Z.eqb_spec (Js.len key) 1) as [K|K]; cbn [orb].
  - right. auto.
  - destruct (String.eqb_spec key "Backspace") as [B|B]; [right; auto | left; reflexivity].
Qed.

Lemma startTime_kept_by_key (key : string) (now t : Z) (s : State) :
  startTime s = Some t -> t <> 0 ->
  startTime (handleKeyDown key now s) = Some t.
Proof.
  intros H Ht.
  assert (Tr : negb (Js.truthy_num (startTime s)) = false).
  { rewrite H. cbn. destruct (Z.eqb_spec t 0); [contradiction | reflexivity]. }
  destruct (handleKeyDown_cases key now s) as [->|(M & F & L & [->|K])]; [exact H| |].
  - rewrite handleKeyDown_backspace, Tr by assumption. exact H.
  - rewrite handleKeyDown_printable, Tr by assumption.
    destruct (_ =? _); exact H.
Qed.

Lemma startTime_kept_by_keys (evs : list (Z * Event)) (t : Z) :
  t <> 0 ->
  forall s, startTime s = Some t ->
            Forall (fun ev => is_keydown (snd ev) = true) evs ->
            startTime (run s evs) = Some t.
Proof.
  intro Ht. induction evs as [|[now e] evs IH]; intros s H A; cbn [run fold_left];
    [exact H|].
  inversion A as [|? ? He Hr]; subst. apply IH; [|exact Hr].
  unfold step. cbn [fst snd] in *.
  destruct (render_cells now (handle now e s)) as (_ & -> & _).
  destruct e; try discriminate. cbn [handle].
  apply startTime_kept_by_key; assumption.
Qed.

(** X15. The first key a running session accepts, a printable key or
    Backspace, starts the clock at the reading of that keystroke, and no
    later keystroke moves it: the start timestamp is set once. *)
Theorem start_timestamp_set_once (s : State) (key : string) (now : Z)
    (evs : list (Z * Event)) :
  GameMode_eqb (mode s) GAME_RAIN = false ->
  isFinished s = false ->
  loading s = false ->
  startTime s = None ->
  key = "Backspace" \/ Js.len key = 1 ->
  now <> 0 ->
  Forall (fun ev => is_keydown (snd ev) = true) evs ->
  startTime (step s (now, KeyDown key)) = Some now /\
  startTime (run (step s (now, KeyDown key)) evs) = Some now.
Proof.
  intros M F L St K N A.
  assert (H : startTime (step s (now, KeyDown key)) = Some now).
  { unfold step. cbn [fst snd handle].
    destruct (render_cells now (handleKeyDown key now s)) as (_ & -> & _).
    destruct K as [->|K].
    - rewrite handleKeyDown_backspace, St by assumption. reflexivity.
    - rewrite handleKeyDown_printable, St by assumption. cbn [Js.truthy_num negb].
      destruct (_ =? _); reflexivity. }
  split; [exact H|]. apply startTime_kept_by_keys; assumption.
Qed.

Lemma start_timestamp_set_once_witness :
  startTime (run (step initial (5000, KeyDown "Backspace"))
               [(6000, KeyDown "W"); (7000, KeyDown "e")]) = Some 5000.
Proof.
  apply (start_timestamp_set_once initial "Backspace" 5000
           [(6000, KeyDown "W"); (7000, KeyDown "e")]).
  - reflexivity.
  - reflexivity.
  - reflexivity.
  - reflexivity.
  - left; reflexivity.
  - discriminate.
  - repeat constructor.
Defined.

Lemma get_within (t : string) :
  forall i, (i < String.length t)%nat -> String.get i t <> None.
Proof.
  induction t as [|c t IH]; intros i H; cbn [String.length] in H; [lia|].
  destruct i as [|i]; cbn [String.get]; [discriminate | apply IH; lia].
Qed.

Lemma char_at_recorded (t : string) (i : nat) (b : bool) :
  recorded (Js.char_at t i, b) = Nat.ltb i (String.length t).
Proof.
  unfold recorded, Js.char_at. cbn [fst].
  destruct (Nat.ltb_spec i (String.length t)) as [L|L].
  - destruct (String.get i t) eqn:G; [reflexivity|].
    exfalso. exact (get_within t i L G).
  - rewrite (ScoringMore.get_past_end t i L). reflexivity.
Qed.

Lemma length_snoc_key (u key : string) :
  Js.len key = 1 -> String.length (u ++ key) = S (String.length u).
Proof.
  intro K. destruct (one_unit_key key K) as [c ->].
  apply ScoringMore.length_append_unit.
Qed.

(** X16. A character typed and then taken back with Backspace leaves the
    typed input as it was, and the session unfinished, but the attempt
    stays in the heatmap: the attempts it holds have grown by one (by none
    when the cursor was already past the end of the reference). *)
Theorem correction_keeps_the_attempt (s : State) (key : string) (t1 t2 : Z) :
  GameMode_eqb (mode s) GAME_RAIN = false ->
  isFinished s = false ->
  loading s = false ->
  Js.len key = 1 ->
  Js.len (userInput s ++ key)%string <> Js.len (text s) ->
  let s2 := run s [(t1, KeyDown key); (t2, KeyDown "Backspace")] in
  userInput s2 = userInput s /\
  isFinished s2 = false /\
  sum_total (keyStats s2) =
    sum_total (keyStats s) +
    (if Nat.ltb (String.length (userInput s)) (String.length (text s)) then 1 else 0).
Proof.
  intros M F L K N s2. subst s2. cbn [run fold_left]. unfold step. cbn [fst snd handle].
  set (s1 := render t1 (handleKeyDown key t1 s)).
  assert (H1 : userInput s1 = (userInput s ++ key)%string /\ isFinished s1 = false /\
               GameMode_eqb (mode s1) GAME_RAIN = false /\ loading s1 = false /\
               keyStats s1 =
                 Heatmap.recordAttempt (keyStats s)
                   (Js.char_at (text s) (String.length (userInput s)))
                   (Js.strict_eq key (Js.char_at (text s) (String.length (userInput s))))).
  { subst s1.
    destruct (render_cells t1 (handleKeyDown key t1 s)) as (-> & _ & -> & _ & _ & -> & ->).
    rewrite HeatmapFacts.render_keyStats.
    rewrite handleKeyDown_printable by assumption.
    replace (Js.len (userInput s ++ key) =? Js.len (text s)) with false
      by (symmetry; apply Z.eqb_neq; exact N).
    destruct (negb (Js.truthy_num (startTime s))); repeat split; assumption. }
  destruct H1 as (U1 & F1 & M1 & L1 & K1). clearbody s1.
  destruct (render_cells t2 (handleKeyDown "Backspace" t2 s1)) as (-> & _ & -> & _).
  rewrite HeatmapFacts.render_keyStats.
  rewrite handleKeyDown_backspace by assumption.
  assert (H2 : forall c : bool,
             userInput (setUserInput (Js.drop_last (userInput s1))
                          (if c then setStartTime (Some t2) s1 else s1)) =
               Js.drop_last (userInput s1) /\
             isFinished (setUserInput (Js.drop_last (userInput s1))
                          (if c then setStartTime (Some t2) s1 else s1)) = isFinished s1 /\
             keyStats (setUserInput (Js.drop_last (userInput s1))
                          (if c then setStartTime (Some t2) s1 else s1)) = keyStats s1)
    by (intros []; repeat split).
  destruct (H2 (negb (Js.truthy_num (startTime s1)))) as (-> & -> & ->).
  rewrite U1, F1, K1. destruct (one_unit_key key K) as [c ->].
  rewrite drop_last_snoc. split; [reflexivity|]. split; [reflexivity|].
  destruct (HeatmapTotals.recordAttempt_sums (keyStats s)
              (Js.char_at (text s) (String.length (userInput s)),
               Js.strict_eq (String c "")
                 (Js.char_at (text s) (String.length (userInput s))))) as [T _].
  cbn [fst snd] in T. rewrite T, char_at_recorded. reflexivity.
Qed.

Lemma correction_keeps_the_attempt_witness :
  let s2 := run initial [(1000, KeyDown "x"); (2000, KeyDown "Backspace")] in
  userInput s2 = "" /\ sum_total (keyStats s2) = 1.
Proof.
  cbv zeta.
  destruct (correction_keeps_the_attempt initial "x" 1000 2000) as (U & _ & T).
  - reflexivity.
  - reflexivity.
  - reflexivity.
  - reflexivity.
  - vm_compute. discriminate.
  - split; [exact U | exact T].
Defined.

(** X10. The weak keys [finishSession] sends to the coach are read from
    the heatmap of the render before the completing keystroke: they are the
    keys whose error rate was above one in ten before that keystroke.  The
    attempt of the completing keystroke is recorded in the heatmap and is
    not counted in the keys sent. *)
Theorem coach_keys_precede_last_attempt (s : State) (key : string) (now : Z) :
  GameMode_eqb (mode s) GAME_RAIN = false ->
  isFinished s = false ->
  loading s = false ->
  Js.len key = 1 ->
  Js.len (userInput s ++ key)%string = Js.len (text s) ->
  let s1 := step s (now, KeyDown key) in
  let expectedChar := Js.char_at (text s) (String.length (userInput s)) in
  (exists r, adviceCalls s1 = adviceCalls s ++ [r] /\
             req_weakKeys r = Heatmap.adviceWeakKeys (keyStats s)) /\
  keyStats s1 =
    Heatmap.recordAttempt (keyStats s) expectedChar (Js.strict_eq key expectedChar).
Proof.
  intros M F L K E. cbv zeta. unfold step. cbn [fst snd handle].
  destruct (render_cells now (handleKeyDown key now s)) as (_ & _ & _ & _ & -> & _).
  rewrite HeatmapFacts.render_keyStats.
  rewrite handleKeyDown_printable by assumption.
  replace (Js.len (userInput s ++ key) =? Js.len (text s)) with true
    by (symmetry; apply Z.eqb_eq; exact E).
  destruct (negb (Js.truthy_num (startTime s))).
  - split; [eexists; split; reflexivity | reflexivity].
  - split; [eexists; split; reflexivity | reflexivity].
Qed.

(** The text "xxxxxx": five keys typed right, the sixth wrong.  The coach
    is sent no weak key; the heatmap, which counts the sixth attempt, has
    "x" above one error in ten, and the next lesson would be sent "x". *)
Lemma coach_keys_precede_last_attempt_witness :
  let s := run initial [(0, ZenTextSettled (Services.Resolves (Some "xxxxxx")));
                        (1000, KeyDown "x"); (2000, KeyDown "x"); (3000, KeyDown "x");
                        (4000, KeyDown "x"); (5000, KeyDown "x")] in
  let s1 := step s (6000, KeyDown "y") in
  (exists r, adviceCalls s1 = adviceCalls s ++ [r] /\ req_weakKeys r = []) /\
  Heatmap.adviceWeakKeys (keyStats s1) = ["x"] /\
  Heatmap.lessonWeakKeys (keyStats s1) = ["x"].
Proof.
  cbv zeta.
  destruct (coach_keys_precede_last_attempt
              (run initial [(0, ZenTextSettled (Services.Resolves (Some "xxxxxx")));
                            (1000, KeyDown "x"); (2000, KeyDown "x"); (3000, KeyDown "x");
                            (4000, KeyDown "x"); (5000, KeyDown "x")])
              "y" 6000) as [(r & Hc & Hk) Hs].
  - vm_compute; reflexivity.
  - vm_compute; reflexivity.
  - vm_compute; reflexivity.
  - vm_compute; reflexivity.
  - vm_compute; reflexivity.
  - split; [|split].
    + exists r. split; [exact Hc|]. rewrite Hk. vm_compute. reflexivity.
    + rewrite Hs. vm_compute. reflexivity.
    + rewrite Hs. vm_compute. reflexivity.
Defined.

Lemma lesson_content_nonempty (ks : list string) (d t : string) (p : Services.Provider) :
  exists v, Services.generateLessonContent ks d t p = Services.Returns v /\ v <> "".
Proof.
  destruct p as [|r]; cbn [Services.generateLessonContent Services.generateContent
    Services.bind Services.try_catch]; eexists; (split; [reflexivity|]).
  - discriminate.
  - apply ServicesMore.or_str_trimmed; [discriminate | vm_compute; reflexivity].
Qed.

Lemma handle_text_nonempty (now : Z) (e : Event) (s : State) :
  text s <> "" -> text (handle now e s) <> "".
Proof.
  intro H. destruct e; cbn [handle].
  - destruct (handleKeyDown_cases key now s) as [->|(M & F & L & [->|K])]; [exact H| |].
    + rewrite handleKeyDown_backspace by assumption.
      destruct (negb _); exact H.
    + rewrite handleKeyDown_printable by assumption.
      destruct (negb _); destruct (_ =? _); exact H.
  - exact H.
  - unfold handleModeChange. destruct newMode; try exact H. discriminate.
  - unfold handleModeChange_resume.
    destruct (lesson_content_nonempty [] "Intermediate" "Philosophy and Nature" p)
      as (v & -> & Hv). exact Hv.
  - destruct (_ && _); exact H.
  - unfold handleLessonGenerate_resume.
    destruct (lesson_content_nonempty (Heatmap.lessonWeakKeys (keyStats s))
                "Intermediate" "Science Fiction" p) as (v & -> & Hv). exact Hv.
  - destruct (last _ _); [|exact H]. unfold finishSession_resume.
    destruct (Services.generateTypingAdvice _ _ _ _); exact H.
  - destruct (_ && _); [|exact H]. destruct (GameMode_eqb _ _); exact H.
  - destruct (_ && _); exact H.
  - destruct (_ && _); exact H.
Qed.

(** X18. The reference text is never empty, whatever events the application
    has handled and whatever the provider answered (an answer that trims to
    nothing is replaced by the pangram): a session always has a character
    to type. *)
Theorem reference_text_never_empty (evs : list (Z * Event)) :
  (1 <= String.length (text (run initial evs)))%nat.
Proof.
  assert (G : forall s, text s <> "" -> text (run s evs) <> "").
  { induction evs as [|[now e] evs IH]; intros s H; cbn [run fold_left]; [exact H|].
    apply IH. unfold step. cbn [fst snd].
    destruct (render_cells now (handle now e s)) as (_ & _ & _ & -> & _).
    apply handle_text_nonempty, H. }
  assert (T : text (run initial evs) <> "") by (apply G; discriminate).
  destruct (text (run initial evs)); [contradiction | cbn [String.length]; lia].
Qed.

Lemma within_text_key (key : string) (now : Z) (s : State) :
  within_text s -> within_text (handleKeyDown key now s).
Proof.
  intro W.
  destruct (handleKeyDown_cases key now s) as [->|(M & F & L & [->|K])]; [exact W| |].
  - rewrite handleKeyDown_backspace by assumption.
    destruct W as [[Fin _]|W]; [congruence|].
    right. pose proof (length_drop_last (userInput s)).
    destruct (negb _); cbn [userInput text setUserInput setStartTime]; lia.
  - rewrite handleKeyDown_printable by assumption.
    destruct W as [[Fin _]|W]; [congruence|].
    pose proof (length_snoc_key (userInput s) key K) as Ls.
    destruct (Z.eqb_spec (Js.len (userInput s ++ key)) (Js.len (text s))) as [E|E].
    + left. unfold Js.len in E.
      destruct (negb _); cbn [userInput text isFinished setUserInput setStartTime
        setKeyStats finishSession callGenerateTypingAdvice setIsFinished];
        split; try reflexivity; lia.
    + right. unfold Js.len in E.
      destruct (negb _); cbn [userInput text setUserInput setStartTime setKeyStats];
        lia.
Qed.

(** X19. From a session that can still take a character (or is finished
    with no more typed than the reference holds), no sequence of keystrokes
    makes the typed input longer than the reference text: the keystroke
    that reaches its length finishes the session, and a finished session
    ignores keys. *)
Theorem typed_input_within_text (s : State) (evs : list (Z * Event)) :
  within_text s ->
  Forall (fun ev => is_keydown (snd ev) = true) evs ->
  within_text (run s evs) /\
  (String.length (userInput (run s evs)) <= String.length (text (run s evs)))%nat.
Proof.
  intros W A.
  assert (G : within_text (run s evs)).
  { revert s W. induction evs as [|[now e] evs IH]; intros s W; cbn [run fold_left];
      [exact W|].
    inversion A as [|? ? He Hr]; subst. apply IH; [exact Hr|].
    unfold step, within_text. cbn [fst snd] in *.
    destruct (render_cells now (handle now e s)) as (-> & _ & -> & -> & _).
    destruct e; try discriminate. cbn [handle]. apply within_text_key, W. }
  split; [exact G|]. destruct G as [[_ G]|G]; lia.
Qed.

Lemma typed_input_within_text_witness :
  let s := run initial [(0, ZenTextSettled (Services.Resolves (Some "ab")))] in
  let s' := run s [(1, KeyDown "a"); (2, KeyDown "x"); (3, KeyDown "y"); (4, KeyDown "z")] in
  (String.length (userInput s') <= String.length (text s'))%nat.
Proof.
  cbv zeta.
  destruct (typed_input_within_text
              (run initial [(0, ZenTextSettled (Services.Resolves (Some "ab")))])
              [(1, KeyDown "a"); (2, KeyDown "x"); (3, KeyDown "y"); (4, KeyDown "z")])
    as [_ H].
  - right. vm_compute. lia.
  - repeat constructor.
  - exact H.
Defined.

End AppMore.

(** ** The falling-word game: what holds throughout a game *)

Module RainGameMore.
Import RainGame Vocabulary.

Ltac cells := RainGameFacts.game_cells.

Lemma Forall_remove_index {A : Type} (P : A -> Prop) (l : list A) :
  forall i, Forall P l -> Forall P (Js.remove_index i l).
Proof.
  induction l as [|a l IH]; intros i H; [destruct i; constructor|].
  inversion H; subst. destruct i as [|i]; cbn [Js.remove_index]; [assumption|].
  constructor; auto.
Qed.

(** What a frame does to the level and to the spawns under way. *)
Lemma updateGame_level (time : Q) (s : State) :
  level (updateGame time s) = level s /\
  (pendingSpawns (updateGame time s) = pendingSpawns s \/
   pendingSpawns (updateGame time s) = pendingSpawns s ++ [level s]).
Proof.
  unfold updateGame. destruct (lives s <=? 0); [auto|].
  destruct s as [ws ci sc lv lvl lst sr scs ps ge]. cells.
  repeat (match goal with
          | |- context [negb ?c] => destruct c; cbn [negb]
          | |- context [if ?a >? ?b then _ else _] => destruct (a >? b)
          | |- context [if ?a <=? ?b then _ else _] => destruct (a <=? b)
          | |- context [fold_left advance ?l ?a] =>
              destruct (fold_left advance l a) as [nw ll]
          end; cells); auto.
Qed.

(** What a keystroke does: nothing to the lives and the spawns; to the
    words, the score and the level nothing, or the removal of one word, its
    length times ten, and at most one level. *)
Lemma handleKeyDown_effect (key : string) (s : State) :
  let s' := handleKeyDown key s in
  lives s' = lives s /\ pendingSpawns s' = pendingSpawns s /\
  ((words s' = words s /\ score s' = score s /\ level s' = level s) \/
   (exists i w, nth_error (words s) i = Some w /\
                words s' = Js.remove_index i (words s) /\
                score s' = score s + Js.len (Word.text w) * 10 /\
                (level s' = level s \/ level s' = level s + 1))).
Proof.
  cbv zeta. unfold handleKeyDown.
  assert (Same : forall ci, let s' := setCurrentInput ci s in
            lives s' = lives s /\ pendingSpawns s' = pendingSpawns s /\
            ((words s' = words s /\ score s' = score s /\ level s' = level s) \/
             (exists i w, nth_error (words s) i = Some w /\
                words s' = Js.remove_index i (words s) /\
                score s' = score s + Js.len (Word.text w) * 10 /\
                (level s' = level s \/ level s' = level s + 1)))).
  { intro ci. cbv zeta. split; [reflexivity|]. split; [reflexivity|].
    left. repeat split. }
  assert (Id : lives s = lives s /\ pendingSpawns s = pendingSpawns s /\
            ((words s = words s /\ score s = score s /\ level s = level s) \/
             (exists i w, nth_error (words s) i = Some w /\
                words s = Js.remove_index i (words s) /\
                score s = score s + Js.len (Word.text w) * 10 /\
                (level s = level s \/ level s = level s + 1)))).
  { split; [reflexivity|]. split; [reflexivity|]. left. repeat split. }
  destruct (lives s <=? 0); [exact Id|].
  destruct ((Js.len key >? 1) && negb (String.eqb key "Backspace")); [exact Id|].
  destruct (String.eqb key "Backspace"); [apply Same|].
  destruct (Js.findIndex _ (words s)) as [i|]; [|apply Same].
  destruct (nth_error (words s) i) as [w|] eqn:N; [|exact Id].
  destruct (String.eqb _ (Word.text w)); [|apply Same].
  set (up := (score s >? 0) && (Z.rem (score s) 100 =? 0)).
  split; [destruct up; destruct s; cells; reflexivity|].
  split; [destruct up; destruct s; cells; reflexivity|].
  right. exists i, w. split; [exact N|].
  destruct up; destruct s; cells; auto.
Qed.

Lemma game_words_nonempty (p : Services.Provider) :
  exists ws, Services.generateGameWords 1 p = Services.Returns ws /\
             Js.or_str (nth_error ws 0) "code" <> "".
Proof.
  destruct (ServicesMore.game_words_nonempty_aux 1 p) as (ws & -> & F).
  exists ws. split; [reflexivity|].
  destruct ws as [|w ws]; cbn [nth_error Js.or_str]; [discriminate|].
  inversion F; subst. destruct w; [contradiction | discriminate].
Qed.

Lemma spawn_speed (lvl : Z) : 1 <= lvl -> (1 # 4 <= (2 # 10) + inject_Z lvl * (5 # 100))%Q.
Proof.
  intro H. assert (inject_Z 1 <= inject_Z lvl)%Q by (rewrite <- Zle_Qle; exact H).
  change (inject_Z 1) with 1%Q in *. lra.
Qed.

Lemma moved_ok (w : Word.WordEntity) :
  word_ok w -> falls_out w = false -> word_ok (moved w).
Proof.
  unfold word_ok, moved, setY. cbn [Word.text Word.speed Word.y].
  intros (T & S & Lo & Hi) F. unfold falls_out, below_bottom in F.
  apply negb_false_iff, Qle_bool_iff in F.
  repeat split; try assumption. lra.
Qed.

Lemma step_game_ok (e : Event) (s : State) : game_ok s -> game_ok (step s e).
Proof.
  unfold game_ok. intros (W & L & P). destruct e as [time|key|i p now rnd]; cbn [step].
  - destruct (updateGame_level time s) as [Lv Pd]. rewrite Lv.
    assert (Wd : Forall word_ok (words (updateGame time s))).
    { destruct (Z.leb_spec (lives s) 0) as [D|D].
      - unfold updateGame.
        replace (lives s <=? 0) with true by (symmetry; apply Z.leb_le; exact D).
        exact W.
      - destruct (RainGameFacts.updateGame_frame time s D) as (-> & _).
        apply Forall_forall. intros w' Hw. apply in_map_iff in Hw as (w & <- & Hw).
        apply filter_In in Hw as [Hin Hf]. apply negb_true_iff in Hf.
        rewrite Forall_forall in W. apply moved_ok; [apply W, Hin | exact Hf]. }
    split; [exact Wd|]. split; [exact L|].
    destruct Pd as [->| ->]; [exact P|].
    apply Forall_app. split; [exact P | repeat constructor; exact L].
  - destruct (handleKeyDown_effect key s) as (_ & -> & [(-> & _ & ->)|(j & w & _ & -> & _ & Lv)]).
    + auto.
    + split; [apply Forall_remove_index, W|]. split; [|exact P].
      destruct Lv as [->| ->]; lia.
  - unfold spawnWord_resume.
    destruct (nth_error (pendingSpawns s) i) as [lvl|] eqn:N; [|auto].
    assert (Hl : 1 <= lvl).
    { rewrite Forall_forall in P. apply P. eapply nth_error_In. exact N. }
    destruct (game_words_nonempty p) as (ws & -> & T).
    destruct s as [wds ci sc lv lev lst sr scs ps ge]. cells.
    split; [|split; [exact L | apply Forall_remove_index, P]].
    apply Forall_app. split; [exact W|]. repeat constructor.
    + exact T.
    + cbn [Word.speed]. apply spawn_speed, Hl.
    + cbn [Word.y]. lra.
    + cbn [Word.y]. lra.
Qed.

Lemma run_game_ok (evs : list Event) : forall s, game_ok s -> game_ok (run s evs).
Proof.
  induction evs as [|e evs IH]; intros s H; cbn [run fold_left]; [exact H|].
  apply IH, step_game_ok, H.
Qed.

Lemma initial_game_ok : game_ok initial.
Proof. unfold game_ok. cbn. repeat split; try constructor. lia. Qed.

(** X20. Throughout a game, whatever the frames, the keystrokes and the
    answers of the provider, every word on screen has a non-empty text,
    falls by at least a quarter of a unit per frame, and lies between its
    spawn height, -10, and the bottom boundary, 100; the level is at
    least 1. *)
Theorem words_on_screen_are_sound (evs : list Event) :
  game_ok (run initial evs).
Proof. apply run_game_ok, initial_game_ok. Qed.

Lemma spawnWord_resume_counters (i : nat) (r : Services.result (list string))
    (now : Z) (rnd : Q) (s : State) :
  let s' := spawnWord_resume i r now rnd s in
  score s' = score s /\ lives s' = lives s /\ level s' = level s.
Proof.
  cbv zeta. unfold spawnWord_resume.
  destruct (nth_error (pendingSpawns s) i); [|auto].
  destruct r; destruct s; cells; auto.
Qed.

(** What one event does to the three counters. *)
Lemma step_counters (e : Event) (s : State) :
  score s <= score (step s e) /\ lives (step s e) <= lives s /\
  level s <= level (step s e) /\
  (exists n, 0 <= n /\ score (step s e) = score s + n * 10).
Proof.
  destruct e as [time|key|i p now rnd]; cbn [step].
  - destruct (updateGame_level time s) as [-> _].
    destruct (Z.leb_spec (lives s) 0) as [D|D].
    + unfold updateGame.
      replace (lives s <=? 0) with true by (symmetry; apply Z.leb_le; exact D).
      repeat split; try lia. exists 0. lia.
    + destruct (RainGameFacts.updateGame_frame time s D) as (_ & -> & _ & ->).
      repeat split; try lia. exists 0. lia.
  - destruct (handleKeyDown_effect key s)
      as (-> & _ & [(_ & -> & ->)|(j & w & _ & _ & -> & Lv)]).
    + repeat split; try lia. exists 0. lia.
    + assert (0 <= Js.len (Word.text w)) by (unfold Js.len; lia).
      split; [lia|]. split; [lia|]. split; [destruct Lv as [->| ->]; lia|].
      exists (Js.len (Word.text w)). lia.
  - destruct (spawnWord_resume_counters i (Services.generateGameWords 1 p) now rnd s)
      as (-> & -> & ->).
    repeat split; try lia. exists 0. lia.
Qed.

Lemma run_counters_ok (evs : list Event) :
  forall s, counters_ok s -> counters_ok (run s evs).
Proof.
  induction evs as [|e evs IH]; intros s H; cbn [run fold_left]; [exact H|].
  apply IH. unfold counters_ok in *. destruct H as (S0 & S10 & Lv & Le).
  destruct (step_counters e s) as (A & B & C & n & Hn & E).
  repeat split; try lia.
  rewrite E. apply Z.divide_add_r; [exact S10 | apply Z.divide_factor_r].
Qed.

(** X21. Throughout a game the score is a non-negative multiple of ten,
    the lives never exceed the three of the start and the level is at least
    one; and no event lowers the score, raises the lives or lowers the
    level. *)
Theorem counters_are_monotone (evs : list Event) (e : Event) :
  let s := run initial evs in
  counters_ok s /\
  score s <= score (step s e) /\
  lives (step s e) <= lives s /\
  level s <= level (step s e).
Proof.
  intro s. split.
  - apply run_counters_ok. unfold counters_ok. cbn.
    repeat split; try lia. exists 0. reflexivity.
  - destruct (step_counters e s) as (A & B & C & _). auto.
Qed.

(** X22. A key that extends the buffer towards a longer word, followed by
    Backspace, leaves the game exactly as it was. *)
Theorem partial_match_undone (key : string) (s : State) (targetIndex : nat)
    (targetWord : Word.WordEntity) :
  0 < lives s ->
  Js.len key = 1 ->
  Js.findIndex (fun w => Js.starts_with (Word.text w) (currentInput s ++ key))
               (words s) = Some targetIndex ->
  nth_error (words s) targetIndex = Some targetWord ->
  Word.text targetWord <> (currentInput s ++ key)%string ->
  handleKeyDown key s = setCurrentInput (currentInput s ++ key) s /\
  handleKeyDown "Backspace" (handleKeyDown key s) = s.
Proof.
  intros L K F N T.
  assert (H : handleKeyDown key s = setCurrentInput (currentInput s ++ key) s).
  { unfold handleKeyDown.
    replace (lives s <=? 0) with false by (symmetry; apply Z.leb_gt; exact L).
    destruct (RainGameFacts.one_unit_printable key K) as [-> ->].
    rewrite F, N.
    replace (String.eqb (currentInput s ++ key) (Word.text targetWord)) with false
      by (symmetry; apply String.eqb_neq; congruence).
    reflexivity. }
  split; [exact H|]. rewrite H. unfold handleKeyDown.
  assert (Lv : lives (setCurrentInput (currentInput s ++ key) s) = lives s) by reflexivity.
  rewrite Lv.
  replace (lives s <=? 0) with false by (symmetry; apply Z.leb_gt; exact L).
  cbn [String.eqb Ascii.eqb Bool.eqb negb andb].
  rewrite andb_false_r.
  destruct (AppMore.one_unit_key key K) as [c ->].
  destruct s as [ws ci sc lv lvl lst sr scs ps ge]. cells.
  rewrite AppMore.drop_last_snoc. reflexivity.
Qed.

Lemma partial_match_undone_witness :
  let s := playing [word "rocket"] "ro" 0 in
  handleKeyDown "Backspace" (handleKeyDown "c" s) = s.
Proof.
  cbv zeta.
  destruct (partial_match_undone "c" (playing [word "rocket"] "ro" 0) 0 (word "rocket"))
    as [_ H].
  - vm_compute; reflexivity.
  - vm_compute; reflexivity.
  - vm_compute; reflexivity.
  - vm_compute; reflexivity.
  - vm_compute; discriminate.
  - exact H.
Defined.

(** X23. A frame never moves a word up: every word on screen after a frame
    is a word that was on screen before it, with the same text and speed,
    at the same height or lower. *)
Theorem words_only_fall (evs : list Event) (time : Q) :
  let s := run initial evs in
  Forall (fun w' => exists w, In w (words s) /\ same_word_lower w w')
         (words (updateGame time s)).
Proof.
  intro s. pose proof (run_game_ok evs initial initial_game_ok) as (W & _).
  fold s in W. rewrite Forall_forall in W.
  apply Forall_forall. intros w' Hw.
  destruct (Z.leb_spec (lives s) 0) as [D|D].
  - unfold updateGame in Hw.
    replace (lives s <=? 0) with true in Hw by (symmetry; apply Z.leb_le; exact D).
    exists w'. split; [exact Hw|]. unfold same_word_lower.
    repeat split. apply Qle_refl.
  - destruct (RainGameFacts.updateGame_frame time s D) as (E & _).
    rewrite E in Hw. apply in_map_iff in Hw as (w & <- & Hw).
    apply filter_In in Hw as [Hin _]. exists w. split; [exact Hin|].
    unfold same_word_lower, moved, setY. cbn [Word.id Word.text Word.speed Word.y].
    repeat split. destruct (W w Hin) as (_ & Sp & _). lra.
Qed.

End RainGameMore.
